(** * The indexer agent's reconciliation engine

    A shallow embedding of [packages/indexer-agent/src/agent.ts]: the rule
    normalizer, the derivation of the target deployments, the dispute
    identifier, the deployment reconciler and the allocation-action
    reconciler.  Arrays are lists, JS numbers that hold epochs, versions
    and timestamps are [Z], dictionaries keyed by network identifier
    ([NetworkMapped<T>]) are [gmap string T], a thrown exception is
    [Throw].  Collaborators (network monitor, contracts, graph node,
    operator) appear as oracles held in records and as recorded calls. *)

From Stdlib Require Import ZArith List String Bool Lia.
From stdpp Require Import base option gmap strings.
Import ListNotations.

Local Open Scope Z_scope.

(** ** Exceptions *)

Inductive Result (A : Type) : Type :=
| Ok (a : A)
| Throw.
Arguments Ok {A} a.
Arguments Throw {A}.

#[global] Instance Result_ret : MRet Result := fun _ a => Ok a.

#[global] Instance Result_bind : MBind Result := fun _ _ k r =>
  match r with
  | Ok a => k a
  | Throw => Throw
  end.

(** [Promise.all] / sequential [await] over a list of thunks. *)
Fixpoint mapR {A B : Type} (f : A -> Result B) (l : list A) : Result (list B) :=
  match l with
  | [] => Ok []
  | x :: rest =>
      y ← f x;
      ys ← mapR f rest;
      Ok (y :: ys)
  end.

(** ** JavaScript array and value helpers *)

Module Js.

(** [Array.prototype.findIndex]: the first index whose element satisfies
    the callback, [-1] when there is none. *)
Fixpoint findIndex_from {A : Type} (p : A -> bool) (l : list A) (i : Z) : Z :=
  match l with
  | [] => -1
  | x :: rest => if p x then i else findIndex_from p rest (i + 1)
  end.

Definition findIndex {A : Type} (p : A -> bool) (l : list A) : Z :=
  findIndex_from p l 0.

(** [Array.prototype.filter] with the three-argument callback
    [(value, index, array)]. *)
Fixpoint filter_from {A : Type} (p : A -> Z -> list A -> bool)
         (array l : list A) (i : Z) : list A :=
  match l with
  | [] => []
  | x :: rest =>
      if p x i array
      then x :: filter_from p array rest (i + 1)
      else filter_from p array rest (i + 1)
  end.

Definition filter3 {A : Type} (p : A -> Z -> list A -> bool) (l : list A) : list A :=
  filter_from p l l 0.

(** [!x] on a value of type [string | null | undefined]. *)
Definition falsy (x : option string) : bool :=
  match x with
  | None => true
  | Some s => String.eqb s ""
  end.

(** [a == b] on values of type [string | null | undefined]: [null] and
    [undefined] are equal to each other and to nothing else. *)
Definition looseEq (a b : option string) : bool :=
  match a, b with
  | None, None => true
  | Some x, Some y => String.eqb x y
  | _, _ => false
  end.

(** [a == b] on values of type [number | undefined]. *)
Definition looseEqZ (a b : option Z) : bool :=
  match a, b with
  | None, None => true
  | Some x, Some y => Z.eqb x y
  | _, _ => false
  end.

(** [s.slice(-n)]: the last [n] characters, the whole string when it is
    shorter. *)
Definition sliceLast (n : nat) (s : string) : string :=
  String.substring (String.length s - n) n s.

End Js.

(** ** Data model *)

(** A [SubgraphDeploymentID] object of [@graphprotocol/common-ts].  [oid]
    is the identity of the object (what [==] between two objects and a
    [Set] of objects compare); [bytes32] and [ipfsHash] are its two
    renderings.  [toString()] returns the hex rendering. *)
Record SubgraphDeploymentID : Type := mkSubgraphDeploymentID {
  oid : nat;
  bytes32 : string;
  ipfsHash : string;
}.

Definition toString (d : SubgraphDeploymentID) : string := bytes32 d.

Record SubgraphDeployment : Type := mkSubgraphDeployment {
  deployment_id : SubgraphDeploymentID;
}.

Inductive AllocationStatus : Type := ACTIVE | CLOSED | CLAIMED | FINALIZED | NULL.

Module Allocation.
Record t : Type := mk {
  id : string;
  indexer : string;
  subgraphDeployment : SubgraphDeployment;
  allocatedTokens : Z;
  createdAtEpoch : Z;
  closedAtEpoch : option Z;
  closedAtEpochStartBlockHash : option string;
  previousEpochStartBlockHash : option string;
  poi : option string;
  status : AllocationStatus;
}.
End Allocation.
Abbreviation Allocation := Allocation.t.

(** ** Deployment lists compared by bytes32 *)

Definition deploymentInList (list : list SubgraphDeploymentID)
           (deployment : SubgraphDeploymentID) : bool :=
  match List.find (fun item => String.eqb (bytes32 item) (bytes32 deployment)) list with
  | Some _ => true
  | None => false
  end.

Definition uniqueDeploymentsOnly (value : SubgraphDeploymentID) (index : Z)
           (array : list SubgraphDeploymentID) : bool :=
  Js.findIndex (fun v => String.eqb (bytes32 value) (bytes32 v)) array =? index.

Definition uniqueDeployments (deployments : list SubgraphDeploymentID)
  : list SubgraphDeploymentID :=
  Js.filter3 uniqueDeploymentsOnly deployments.

(** ** The deployment reconciler *)

(** Calls issued to the graph node. *)
Inductive GraphNodeCall : Type :=
| ensure (name : string) (deployment : SubgraphDeploymentID)
| remove (deployment : SubgraphDeploymentID).

(** [if (!deploymentInList(targetDeployments, d)) targetDeployments.push(d)] *)
Definition pushIfAbsent (targetDeployments : list SubgraphDeploymentID)
           (d : SubgraphDeploymentID) : list SubgraphDeploymentID :=
  if negb (deploymentInList targetDeployments d)
  then targetDeployments ++ [d]
  else targetDeployments.

Section ReconcileDeployments.

(** The deployments [network.networkSubgraph.deployment.id] that the
    callback of [multiNetworks.map] pushes, in order.  The call is not
    awaited: which pushes have landed when the lists below are computed
    depends on the scheduling.  The properties of the reconciler are
    stated for every such list, the empty one included. *)
Variable networkSubgraphDeployments : list SubgraphDeploymentID.

(** [this.offchainSubgraphs], the static list from startup. *)
Variable offchainSubgraphs : list SubgraphDeploymentID.

(** The target list after the two "always indexed" loops and the
    deduplication. *)
Definition augmentedTargetDeployments
           (targetDeployments : list SubgraphDeploymentID)
  : list SubgraphDeploymentID :=
  let targetDeployments :=
    fold_left pushIfAbsent networkSubgraphDeployments targetDeployments in
  let targetDeployments :=
    fold_left pushIfAbsent offchainSubgraphs targetDeployments in
  uniqueDeployments targetDeployments.

Definition eligibleAllocationDeployments (eligibleAllocations : list Allocation)
  : list SubgraphDeploymentID :=
  uniqueDeployments
    (map (fun allocation =>
            deployment_id (Allocation.subgraphDeployment allocation))
         eligibleAllocations).

(** The [deploy] and [remove] lists of [reconcileDeployments]. *)
Definition deployList (activeDeployments targetDeployments : list SubgraphDeploymentID)
  : list SubgraphDeploymentID :=
  let activeDeployments := uniqueDeployments activeDeployments in
  let targetDeployments := augmentedTargetDeployments targetDeployments in
  List.filter (fun deployment => negb (deploymentInList activeDeployments deployment))
         targetDeployments.

Definition removeList (activeDeployments targetDeployments : list SubgraphDeploymentID)
           (eligibleAllocations : list Allocation)
  : list SubgraphDeploymentID :=
  let activeDeployments := uniqueDeployments activeDeployments in
  let targetDeployments := augmentedTargetDeployments targetDeployments in
  let eligible := eligibleAllocationDeployments eligibleAllocations in
  List.filter (fun deployment =>
            negb (deploymentInList targetDeployments deployment) &&
            negb (deploymentInList eligible deployment))
         activeDeployments.

(** [reconcileDeployments]: the calls queued on the graph node, first
    the [ensure]s, then the [remove]s. *)
Definition reconcileDeployments
           (activeDeployments targetDeployments : list SubgraphDeploymentID)
           (eligibleAllocations : list Allocation) : list GraphNodeCall :=
  let deploy := deployList activeDeployments targetDeployments in
  let remove_ := removeList activeDeployments targetDeployments eligibleAllocations in
  map (fun deployment =>
         ensure (String.append "indexer-agent/" (Js.sliceLast 10 (ipfsHash deployment)))
                deployment)
      deploy
  ++ map remove remove_.

End ReconcileDeployments.

(** ** Indexing rules and subgraphs *)

Inductive SubgraphIdentifierType : Type := DEPLOYMENT | SUBGRAPH | GLOBAL.

Inductive IndexingDecisionBasis : Type := RULES | NEVER | ALWAYS | OFFCHAIN.

Definition identifierType_eqb (a b : SubgraphIdentifierType) : bool :=
  match a, b with
  | DEPLOYMENT, DEPLOYMENT | SUBGRAPH, SUBGRAPH | GLOBAL, GLOBAL => true
  | _, _ => false
  end.

Definition decisionBasis_eqb (a b : IndexingDecisionBasis) : bool :=
  match a, b with
  | RULES, RULES | NEVER, NEVER | ALWAYS, ALWAYS | OFFCHAIN, OFFCHAIN => true
  | _, _ => false
  end.

Module IndexingRule.
Record t : Type := mk {
  identifier : string;
  identifierType : SubgraphIdentifierType;
  decisionBasis : IndexingDecisionBasis;
  allocationAmount : option Z;
  allocationLifetime : option Z;
  parallelAllocations : option Z;
  maxSignal : option Z;
  minSignal : option Z;
  minStake : option Z;
  minAverageQueryFees : option Z;
  protocolNetwork : string;
}.

(** [rule.identifier = i; rule.identifierType = ty], every other field
    kept. *)
Definition retarget (rule : t) (i : string) (ty : SubgraphIdentifierType) : t :=
  {| identifier := i;
     identifierType := ty;
     decisionBasis := decisionBasis rule;
     allocationAmount := allocationAmount rule;
     allocationLifetime := allocationLifetime rule;
     parallelAllocations := parallelAllocations rule;
     maxSignal := maxSignal rule;
     minSignal := minSignal rule;
     minStake := minStake rule;
     minAverageQueryFees := minAverageQueryFees rule;
     protocolNetwork := protocolNetwork rule |}.
End IndexingRule.
Abbreviation IndexingRuleAttributes := IndexingRule.t.

Module Subgraph.
Record Version : Type := mkVersion {
  version : Z;
  createdAt : Z;
  deployment : SubgraphDeploymentID;
}.

Record t : Type := mk {
  id : string;
  versionCount : Z;
  versions : list Version;
}.
End Subgraph.
Abbreviation Subgraph := Subgraph.t.

(** ** The rule normalizer *)

Section RuleNormalizer.

(** The constructor [new SubgraphDeploymentID(id)] of common-ts decodes
    a hex or base-58 identifier into the two renderings, and throws on
    anything else: [decodeDeploymentID id] is [None] when it throws. *)
Variable decodeDeploymentID : string -> option (string * string).

(** [new SubgraphDeploymentID(id)], the new object getting identity [o]. *)
Definition newSubgraphDeploymentID (o : nat) (id : string)
  : Result SubgraphDeploymentID :=
  match decodeDeploymentID id with
  | Some (hex, ipfs) => Ok (mkSubgraphDeploymentID o hex ipfs)
  | None => Throw
  end.

(** [list.find(rule => rule.identifierType == DEPLOYMENT &&
      new SubgraphDeploymentID(rule.identifier).toString() ==
      deployment.toString()) !== undefined].
    The constructor runs only on deployment-typed rules, and only up to
    the first match. *)
Fixpoint deploymentRuleInList (list : list IndexingRuleAttributes)
         (deployment : SubgraphDeploymentID) : Result bool :=
  match list with
  | [] => Ok false
  | rule :: rest =>
      if identifierType_eqb (IndexingRule.identifierType rule) DEPLOYMENT
      then
        d ← newSubgraphDeploymentID 0 (IndexingRule.identifier rule);
        if String.eqb (toString d) (toString deployment)
        then Ok true
        else deploymentRuleInList rest deployment
      else deploymentRuleInList rest deployment
  end.

Variable subgraphs : list Subgraph.
Variable previousVersionBuffer : Z.

(** [Date.now()], in milliseconds; the clock is read once per rule and
    taken to stand still during the call. *)
Variable dateNow : Z.

(** The body of the [rules.map] callback for the rule at the current
    index.  The array [rules] is [done ++ rule :: rest]: [done] holds
    the rules already visited (as mutated), [rest] the ones still to be
    visited.  Returns the rule as it is left in the array and the
    entries pushed on [toAdd]. *)
Definition convertRule (done : list IndexingRuleAttributes)
           (rule : IndexingRuleAttributes) (rest : list IndexingRuleAttributes)
  : Result (IndexingRuleAttributes * list IndexingRuleAttributes) :=
  if negb (identifierType_eqb (IndexingRule.identifierType rule) SUBGRAPH)
  then Ok (rule, [])
  else
    match List.find (fun subgraph =>
                       String.eqb (Subgraph.id subgraph) (IndexingRule.identifier rule))
                    subgraphs with
    | None => Ok (rule, [])
    | Some ruleSubgraph =>
        let latestVersion := Subgraph.versionCount ruleSubgraph - 1 in
        match List.find (fun version => Subgraph.version version =? latestVersion)
                        (Subgraph.versions ruleSubgraph) with
        | None => Ok (rule, [])
        | Some latestDeploymentVersion =>
            targeted ← deploymentRuleInList (done ++ rule :: rest)
                         (Subgraph.deployment latestDeploymentVersion);
            let rule :=
              if negb targeted
              then IndexingRule.retarget rule
                     (toString (Subgraph.deployment latestDeploymentVersion))
                     DEPLOYMENT
              else rule in
            let currentTimestamp := dateNow / 1000 in
            if Subgraph.createdAt latestDeploymentVersion
               >? currentTimestamp - previousVersionBuffer
            then
              match List.find (fun version =>
                                 Subgraph.version version =? latestVersion - 1)
                              (Subgraph.versions ruleSubgraph) with
              | None => Ok (rule, [])
              | Some previousDeploymentVersion =>
                  targeted' ← deploymentRuleInList (done ++ rule :: rest)
                                (Subgraph.deployment previousDeploymentVersion);
                  if negb targeted'
                  then
                    let previousDeploymentRule :=
                      IndexingRule.retarget rule
                        (toString (Subgraph.deployment previousDeploymentVersion))
                        DEPLOYMENT in
                    Ok (rule, [previousDeploymentRule])
                  else Ok (rule, [])
              end
            else Ok (rule, [])
        end
    end.

(** [rules.map(...)]: the callback visits the rules in order, mutating
    the rule objects in place. *)
Fixpoint convertLoop (done pending toAdd : list IndexingRuleAttributes)
  : Result (list IndexingRuleAttributes * list IndexingRuleAttributes) :=
  match pending with
  | [] => Ok (done, toAdd)
  | rule :: rest =>
      r ← convertRule done rule rest;
      convertLoop (done ++ [r.1]) rest (toAdd ++ r.2)
  end.

(** [rules.push(...toAdd); return rules] *)
Definition convertSubgraphBasedRulesToDeploymentBased
           (rules : list IndexingRuleAttributes)
  : Result (list IndexingRuleAttributes) :=
  r ← convertLoop [] rules [];
  Ok (r.1 ++ r.2).

End RuleNormalizer.

(** ** Allocation decisions and the target deployments *)

Record RuleMatch : Type := mkRuleMatch {
  rule : option IndexingRuleAttributes;
  reason : string;
}.

Module AllocationDecision.
Record t : Type := mk {
  deployment : SubgraphDeploymentID;
  toAllocate : bool;
  ruleMatch : RuleMatch;
}.

(** [decision.toAllocate = b] *)
Definition setToAllocate (decision : t) (b : bool) : t :=
  {| deployment := deployment decision;
     toAllocate := b;
     ruleMatch := ruleMatch decision |}.
End AllocationDecision.
Abbreviation AllocationDecision := AllocationDecision.t.

(** [Object.values(m)] of a dictionary keyed by network identifier. *)
Definition Object_values {T : Type} (m : gmap string T) : list T :=
  (map_to_list m).*2.

(** A [Set<SubgraphDeploymentID>]: insertion-ordered, and two members are
    the same when they are the same object. *)
Definition Set_has (s : list SubgraphDeploymentID) (x : SubgraphDeploymentID) : bool :=
  existsb (fun y => Nat.eqb (oid y) (oid x)) s.

Definition Set_add (s : list SubgraphDeploymentID) (x : SubgraphDeploymentID)
  : list SubgraphDeploymentID :=
  if Set_has s x then s else s ++ [x].

Definition Set_new (l : list SubgraphDeploymentID) : list SubgraphDeploymentID :=
  fold_left Set_add l [].

Section TargetDeployments.

Variable decodeDeploymentID : string -> option (string * string).

(** [this.offchainSubgraphs] *)
Variable offchainSubgraphs : list SubgraphDeploymentID.

(** [.forEach(rule => targetDeploymentIDs.add(new SubgraphDeploymentID(rule.identifier)))];
    [next] is the identity the next allocated object gets. *)
Fixpoint addOffchainRules (rules : list IndexingRuleAttributes)
         (targetDeploymentIDs : list SubgraphDeploymentID) (next : nat)
  : Result (list SubgraphDeploymentID) :=
  match rules with
  | [] => Ok targetDeploymentIDs
  | rule :: rest =>
      d ← newSubgraphDeploymentID decodeDeploymentID next (IndexingRule.identifier rule);
      addOffchainRules rest (Set_add targetDeploymentIDs d) (S next)
  end.

(** The callback of the [targetDeployments] eventual.  [next] is an
    object identity not yet in use. *)
Definition targetDeployments (next : nat)
           (indexingRules : gmap string (list IndexingRuleAttributes))
           (networkDeploymentAllocationDecisions : gmap string (list AllocationDecision))
  : Result (list SubgraphDeploymentID) :=
  let targetDeploymentIDs :=
    Set_new
      (map AllocationDecision.deployment
         (List.filter (fun decision => AllocationDecision.toAllocate decision)
            (concat (Object_values networkDeploymentAllocationDecisions)))) in
  targetDeploymentIDs ←
    addOffchainRules
      (List.filter (fun rule =>
                      decisionBasis_eqb (IndexingRule.decisionBasis rule) OFFCHAIN)
         (concat (Object_values indexingRules)))
      targetDeploymentIDs next;
  Ok (fold_left Set_add offchainSubgraphs targetDeploymentIDs).

End TargetDeployments.

(** ** Networks and operators *)

Inductive AllocationManagementMode : Type := AUTO | MANUAL | OVERSIGHT.

Definition managementMode_eqb (a b : AllocationManagementMode) : bool :=
  match a, b with
  | AUTO, AUTO | MANUAL, MANUAL | OVERSIGHT, OVERSIGHT => true
  | _, _ => false
  end.

Record IndexerOptions : Type := mkIndexerOptions {
  allocationManagementMode : AllocationManagementMode;
  poiDisputableEpochs : Z;
  allocateOnNetworkSubgraph : bool;
}.

Record NetworkSpecification : Type := mkNetworkSpecification {
  networkIdentifier : string;
  indexerOptions : IndexerOptions;
}.

Record Block : Type := mkBlock {
  number : Z;
  hash : string;
}.

(** What [staking.getAllocation(id)] returns, as far as the agent reads it. *)
Record OnChainAllocation : Type := mkOnChainAllocation {
  onChain_closedAtEpoch : Z;
}.

(** One protocol network: its specification, its meta-subgraph, and the
    reads the agent performs on it.  A read that rejects is [Throw]. *)
Record Network : Type := mkNetwork {
  specification : NetworkSpecification;
  networkSubgraph_deployment : option SubgraphDeployment;
  networkMonitor_allocations : AllocationStatus -> Result (list Allocation);
  networkMonitor_closedAllocations : SubgraphDeploymentID -> Result (list Allocation);
  staking_getAllocation : string -> Result OnChainAllocation;
  networkProvider_getBlock : option string -> Result Block;
}.

Record Operator : Type := mkOperator {
  operator_specification : NetworkSpecification;
}.

Record NetworkAndOperator : Type := mkNetworkAndOperator {
  network : Network;
  operator : Operator;
}.

(** ** The dispute identifier *)

Inductive DisputeStatus : Type := valid | potential | reference_unavailable.

Definition disputeStatus_eqb (a b : DisputeStatus) : bool :=
  match a, b with
  | valid, valid | potential, potential
  | reference_unavailable, reference_unavailable => true
  | _, _ => false
  end.

Module RewardsPool.
Record t : Type := mk {
  subgraphDeployment : SubgraphDeploymentID;
  allocationIndexer : string;
  closedAtEpoch : option Z;
  closedAtEpochStartBlockHash : option string;
  closedAtEpochStartBlockNumber : option Z;
  previousEpochStartBlockHash : option string;
  previousEpochStartBlockNumber : option Z;
  referencePOI : option string;
  referencePreviousPOI : option string;
}.
End RewardsPool.
Abbreviation RewardsPool := RewardsPool.t.

Module POIDispute.
Record t : Type := mk {
  allocationID : string;
  subgraphDeploymentID : string;
  allocationIndexer : string;
  allocationAmount : Z;
  allocationProof : option string;
  closedEpoch : option Z;
  closedEpochReferenceProof : option string;
  closedEpochStartBlockHash : option string;
  closedEpochStartBlockNumber : option Z;
  previousEpochReferenceProof : option string;
  previousEpochStartBlockHash : option string;
  previousEpochStartBlockNumber : option Z;
  status : DisputeStatus;
  protocolNetwork : string;
}.
End POIDispute.
Abbreviation POIDisputeAttributes := POIDispute.t.

(** Modelled from the spec: [allocationRewardsPool] of indexer-common is
    defined outside the agent.  It builds the pool row of one allocation
    from the allocation's deployment, closing epoch and the two block
    hashes; block numbers and reference POIs are filled in later. *)
Definition allocationRewardsPool (allocation : Allocation) : RewardsPool :=
  {| RewardsPool.subgraphDeployment :=
       deployment_id (Allocation.subgraphDeployment allocation);
     RewardsPool.allocationIndexer := Allocation.indexer allocation;
     RewardsPool.closedAtEpoch := Allocation.closedAtEpoch allocation;
     RewardsPool.closedAtEpochStartBlockHash :=
       Allocation.closedAtEpochStartBlockHash allocation;
     RewardsPool.closedAtEpochStartBlockNumber := None;
     RewardsPool.previousEpochStartBlockHash :=
       Allocation.previousEpochStartBlockHash allocation;
     RewardsPool.previousEpochStartBlockNumber := None;
     RewardsPool.referencePOI := None;
     RewardsPool.referencePreviousPOI := None |}.

(** Modelled from the spec: the operator's dispute persistence
    ([Operator.fetchPOIDisputes], [Operator.storePoiDisputes]) is defined
    outside the agent.  The store is the list of persisted disputes.  A
    fetch returns the disputes of the given status and network whose
    closing epoch is at or after the epoch threshold.  A store is
    append-only and idempotent by [(allocationID, protocolNetwork)]: an
    entry whose key is already present is left as it is. *)
Definition fetchPOIDisputes (store : list POIDisputeAttributes)
           (status : DisputeStatus) (epochThreshold : Z) (networkIdentifier : string)
  : list POIDisputeAttributes :=
  List.filter
    (fun dispute =>
       disputeStatus_eqb (POIDispute.status dispute) status
       && match POIDispute.closedEpoch dispute with
          | Some e => epochThreshold <=? e
          | None => false
          end
       && String.eqb (POIDispute.protocolNetwork dispute) networkIdentifier)
    store.

Definition sameDisputeKey (a b : POIDisputeAttributes) : bool :=
  String.eqb (POIDispute.allocationID a) (POIDispute.allocationID b)
  && String.eqb (POIDispute.protocolNetwork a) (POIDispute.protocolNetwork b).

Definition storePoiDispute (store : list POIDisputeAttributes)
           (dispute : POIDisputeAttributes) : list POIDisputeAttributes :=
  if existsb (sameDisputeKey dispute) store then store else store ++ [dispute].

Definition storePoiDisputes (store : list POIDisputeAttributes)
           (disputes : list POIDisputeAttributes) : list POIDisputeAttributes :=
  fold_left storePoiDispute disputes store.

(** What one run of the dispute identifier did. *)
Inductive DisputeRun : Type :=
| NoNewDisputableAllocations
| Stored (disputes : list POIDisputeAttributes) (store : list POIDisputeAttributes).

Section IdentifyPotentialDisputes.

(** [graphNode.proofOfIndexing(deployment, block, indexer)] *)
Variable proofOfIndexing :
  SubgraphDeploymentID -> Block -> string -> Result (option string).

Variable operator_ : Operator.
Variable network_ : Network.

(** The body of the [.map(async pool => ...)] that fills in one pool. *)
Definition fillRewardsPool (pool : RewardsPool) : Result RewardsPool :=
  closedAtEpochStartBlock ←
    networkProvider_getBlock network_ (RewardsPool.closedAtEpochStartBlockHash pool);
  previousEpochStartBlock ←
    networkProvider_getBlock network_ (RewardsPool.previousEpochStartBlockHash pool);
  referencePOI ←
    proofOfIndexing (RewardsPool.subgraphDeployment pool)
      (mkBlock (number closedAtEpochStartBlock) (hash closedAtEpochStartBlock))
      (RewardsPool.allocationIndexer pool);
  referencePreviousPOI ←
    proofOfIndexing (RewardsPool.subgraphDeployment pool)
      (mkBlock (number previousEpochStartBlock) (hash previousEpochStartBlock))
      (RewardsPool.allocationIndexer pool);
  Ok {| RewardsPool.subgraphDeployment := RewardsPool.subgraphDeployment pool;
        RewardsPool.allocationIndexer := RewardsPool.allocationIndexer pool;
        RewardsPool.closedAtEpoch := RewardsPool.closedAtEpoch pool;
        RewardsPool.closedAtEpochStartBlockHash :=
          RewardsPool.closedAtEpochStartBlockHash pool;
        RewardsPool.closedAtEpochStartBlockNumber :=
          Some (number closedAtEpochStartBlock);
        RewardsPool.previousEpochStartBlockHash :=
          Some (hash previousEpochStartBlock);
        RewardsPool.previousEpochStartBlockNumber :=
          Some (number previousEpochStartBlock);
        RewardsPool.referencePOI := referencePOI;
        RewardsPool.referencePreviousPOI := referencePreviousPOI |}.

(** [uniqueRewardsPools.find(pool => pool.subgraphDeployment ==
      allocation.subgraphDeployment.id &&
      pool.closedAtEpoch == allocation.closedAtEpoch)]: [==] between the
    two deployment objects compares their identity. *)
Definition findRewardsPool (uniqueRewardsPools : list RewardsPool)
           (allocation : Allocation) : option RewardsPool :=
  List.find
    (fun pool =>
       Nat.eqb (oid (RewardsPool.subgraphDeployment pool))
               (oid (deployment_id (Allocation.subgraphDeployment allocation)))
       && Js.looseEqZ (RewardsPool.closedAtEpoch pool)
                      (Allocation.closedAtEpoch allocation))
    uniqueRewardsPools.

(** The status computed for an allocation against its rewards pool. *)
Definition disputeStatus (rewardsPool : RewardsPool) (allocation : Allocation)
  : DisputeStatus :=
  let status :=
    if Js.looseEq (RewardsPool.referencePOI rewardsPool) (Allocation.poi allocation)
       || Js.looseEq (RewardsPool.referencePreviousPOI rewardsPool)
                     (Allocation.poi allocation)
    then valid
    else potential in
  if disputeStatus_eqb status potential
     && (Js.falsy (RewardsPool.referencePOI rewardsPool)
         || Js.falsy (RewardsPool.referencePreviousPOI rewardsPool))
  then reference_unavailable
  else status.

(** The body of [newDisputableAllocations.map(allocation => ...)]. *)
Definition makeDispute (uniqueRewardsPools : list RewardsPool)
           (allocation : Allocation) : Result POIDisputeAttributes :=
  match findRewardsPool uniqueRewardsPools allocation with
  | None => Throw
  | Some rewardsPool =>
      Ok {| POIDispute.allocationID := Allocation.id allocation;
            POIDispute.subgraphDeploymentID :=
              ipfsHash (deployment_id (Allocation.subgraphDeployment allocation));
            POIDispute.allocationIndexer := Allocation.indexer allocation;
            POIDispute.allocationAmount := Allocation.allocatedTokens allocation;
            POIDispute.allocationProof := Allocation.poi allocation;
            POIDispute.closedEpoch := Allocation.closedAtEpoch allocation;
            POIDispute.closedEpochReferenceProof :=
              RewardsPool.referencePOI rewardsPool;
            POIDispute.closedEpochStartBlockHash :=
              Allocation.closedAtEpochStartBlockHash allocation;
            POIDispute.closedEpochStartBlockNumber :=
              RewardsPool.closedAtEpochStartBlockNumber rewardsPool;
            POIDispute.previousEpochReferenceProof :=
              RewardsPool.referencePreviousPOI rewardsPool;
            POIDispute.previousEpochStartBlockHash :=
              RewardsPool.previousEpochStartBlockHash rewardsPool;
            POIDispute.previousEpochStartBlockNumber :=
              RewardsPool.previousEpochStartBlockNumber rewardsPool;
            POIDispute.status := disputeStatus rewardsPool allocation;
            POIDispute.protocolNetwork :=
              networkIdentifier (specification network_) |}
  end.

(** [disputableAllocations.filter(allocation =>
      !alreadyProcessed.find(dispute => dispute.allocationID == allocation.id))] *)
Definition newDisputableAllocations (store : list POIDisputeAttributes)
           (disputableAllocations : list Allocation) (disputableEpoch : Z)
  : list Allocation :=
  let alreadyProcessed :=
    fetchPOIDisputes store potential disputableEpoch
      (networkIdentifier (operator_specification operator_))
    ++ fetchPOIDisputes store valid disputableEpoch
         (networkIdentifier (operator_specification operator_)) in
  List.filter
    (fun allocation =>
       negb (match List.find
                     (fun dispute =>
                        String.eqb (POIDispute.allocationID dispute)
                                   (Allocation.id allocation))
                     alreadyProcessed with
             | Some _ => true
             | None => false
             end))
    disputableAllocations.

(** The rewards pools of the new allocations, filled in.  Each call of
    [allocationRewardsPool] returns a new object, so the [Set] built
    from them keeps every one. *)
Definition uniqueRewardsPools (new : list Allocation) : Result (list RewardsPool) :=
  mapR fillRewardsPool
    (List.filter
       (fun pool => negb (Js.falsy (RewardsPool.closedAtEpochStartBlockHash pool)))
       (map allocationRewardsPool new)).

(** [identifyPotentialDisputes], the dispute store passed explicitly. *)
Definition identifyPotentialDisputes (store : list POIDisputeAttributes)
           (disputableAllocations : list Allocation) (disputableEpoch : Z)
  : Result DisputeRun :=
  let new := newDisputableAllocations store disputableAllocations disputableEpoch in
  if (length new =? 0)%nat
  then Ok NoNewDisputableAllocations
  else
    pools ← uniqueRewardsPools new;
    disputes ← mapR (makeDispute pools) new;
    Ok (Stored disputes (storePoiDisputes store disputes)).

End IdentifyPotentialDisputes.

(** ** The allocation-action reconciler *)

(** Calls issued to an operator; the first argument is the operator's
    network identifier. *)
Inductive OperatorCall : Type :=
| createAllocation (protocolNetwork : string) (decision : AllocationDecision)
    (mostRecentlyClosedAllocation : option Allocation)
| closeEligibleAllocations (protocolNetwork : string) (decision : AllocationDecision)
    (activeDeploymentAllocations : list Allocation) (epoch : Z)
| refreshExpiredAllocations (protocolNetwork : string) (decision : AllocationDecision)
    (expiredAllocations : list Allocation).

Definition callNetwork (c : OperatorCall) : string :=
  match c with
  | createAllocation n _ _ => n
  | closeEligibleAllocations n _ _ _ => n
  | refreshExpiredAllocations n _ _ => n
  end.

(** An asynchronous computation that issues operator calls: the calls it
    has issued, and how it settles. *)
Inductive Act (A : Type) : Type :=
| act (calls : list OperatorCall) (outcome : Result A).
Arguments act {A} calls outcome.

Definition calls {A : Type} (m : Act A) : list OperatorCall :=
  match m with act c _ => c end.

Definition outcome {A : Type} (m : Act A) : Result A :=
  match m with act _ r => r end.

#[global] Instance Act_ret : MRet Act := fun _ a => act [] (Ok a).

#[global] Instance Act_bind : MBind Act := fun _ _ k m =>
  match m with
  | act c (Ok a) => match k a with act c' r => act (c ++ c') r end
  | act c Throw => act c Throw
  end.

Definition lift {A : Type} (r : Result A) : Act A := act [] r.

Definition issue (c : OperatorCall) : Act unit := act [c] (Ok tt).

(** [pMap(l, f)] with the default (unbounded) concurrency: every mapper
    is started, whether or not another one rejects; the whole rejects
    when one of them does.  The calls are recorded in the order of [l]. *)
Fixpoint pMap {A B : Type} (f : A -> Act B) (l : list A) : Act (list B) :=
  match l with
  | [] => act [] (Ok [])
  | x :: rest =>
      match f x, pMap f rest with
      | act c1 r1, act c2 r2 =>
          act (c1 ++ c2) (y ← r1; ys ← r2; Ok (y :: ys))
      end
  end.

(** A [Promise] object, as opposed to the value it resolves to. *)
Inductive Promise (A : Type) : Type :=
| promise (pending : Act A).
Arguments promise {A} pending.

Definition await {A : Type} (p : Promise A) : Act A :=
  match p with promise m => m end.

(** What [Object.entries] may be handed: a plain dictionary keyed by
    network identifier, or a [Promise] object. *)
Inductive JsObject (V A : Type) : Type :=
| Dictionary (m : gmap string V)
| PromiseObject (p : Promise A).
Arguments Dictionary {V A} m.
Arguments PromiseObject {V A} p.

(** [Object.entries(o)]: the own enumerable string-keyed properties of
    [o].  A dictionary has its entries; a promise has none, whatever it
    resolves to. *)
Definition Object_entries {V A : Type} (o : JsObject V A) : list (string * V) :=
  match o with
  | Dictionary m => map_to_list m
  | PromiseObject _ => []
  end.

Section MultiNetworks.

(** [MultiNetworks.inner]: the network/operator pairs by network
    identifier. *)
Variable inner : gmap string NetworkAndOperator.

(** Modelled from the spec: [MultiNetworks.mapNetworkMapped] of
    indexer-common is defined outside the agent.  It joins the input with
    the items by id and applies the function to each pair; an id without
    an item is fatal.  It is asynchronous: every caller that
    uses its result awaits it, and receives the dictionary of the
    resolved values. *)
Definition mapNetworkMapped {T U : Type} (nmap : gmap string T)
           (func : NetworkAndOperator -> T -> Act U) : Promise (gmap string U) :=
  promise
    (entries ← pMap (fun entry : string * T =>
                       match inner !! entry.1 with
                       | Some item => u ← func item entry.2; mret (entry.1, u)
                       | None => act [] Throw
                       end)
                    (map_to_list nmap);
     mret (list_to_map entries)).

(** Modelled from the spec: [MultiNetworks.zip4] of indexer-common is
    defined outside the agent.  The four dictionaries must cover the same
    id set as the items; anything else is fatal. *)
Definition zip4 {A B C D : Type} (a : gmap string A) (b : gmap string B)
           (c : gmap string C) (d : gmap string D)
  : Result (gmap string (A * B * C * D)) :=
  if bool_decide (dom a = dom inner ∧ dom b = dom inner
                  ∧ dom c = dom inner ∧ dom d = dom inner)
  then Ok (map_zip_with (fun ab cd => (ab.1, ab.2, cd.1, cd.2))
                        (map_zip a b) (map_zip c d))
  else Throw.

End MultiNetworks.

(** [x ? ... : ...] on a value of type [number | null | undefined]. *)
Definition truthyNumber (x : option Z) : bool :=
  match x with
  | Some n => negb (n =? 0)
  | None => false
  end.

(** [rule?.allocationLifetime ? rule.allocationLifetime
                              : Math.max(1, maxAllocationEpochs - 1)] *)
Definition desiredAllocationLifetime (deploymentAllocationDecision : AllocationDecision)
           (maxAllocationEpochs : Z) : Z :=
  let allocationLifetime :=
    match rule (AllocationDecision.ruleMatch deploymentAllocationDecision) with
    | Some r => IndexingRule.allocationLifetime r
    | None => None
    end in
  if truthyNumber allocationLifetime
  then match allocationLifetime with
       | Some n => n
       | None => 0
       end
  else Z.max 1 (maxAllocationEpochs - 1).

(** The callback of the [pFilter] cross-check: is the allocation still
    open on chain?  A failed contract read counts as open. *)
Definition openOnChain (network : Network) (allocation : Allocation) : bool :=
  match staking_getAllocation network (Allocation.id allocation) with
  | Ok onChainAllocation => onChain_closedAtEpoch onChainAllocation =? 0
  | Throw => true
  end.

Definition identifyExpiringAllocations (activeAllocations : list Allocation)
           (deploymentAllocationDecision : AllocationDecision)
           (epoch maxAllocationEpochs : Z) (network : Network) : list Allocation :=
  let desiredAllocationLifetime :=
    desiredAllocationLifetime deploymentAllocationDecision maxAllocationEpochs in
  let expiredAllocations :=
    List.filter
      (fun allocation =>
         epoch >=? Allocation.createdAtEpoch allocation + desiredAllocationLifetime)
      activeAllocations in
  List.filter (openOnChain network) expiredAllocations.

Definition reconcileDeploymentAllocationAction
           (deploymentAllocationDecision : AllocationDecision)
           (epoch maxAllocationEpochs : Z) (network : Network) (operator : Operator)
  : Act unit :=
  let protocolNetwork := networkIdentifier (operator_specification operator) in
  activeAllocations ← lift (networkMonitor_allocations network ACTIVE);
  let activeDeploymentAllocations :=
    List.filter
      (fun allocation =>
         String.eqb
           (bytes32 (deployment_id (Allocation.subgraphDeployment allocation)))
           (bytes32 (AllocationDecision.deployment deploymentAllocationDecision)))
      activeAllocations in
  if negb (AllocationDecision.toAllocate deploymentAllocationDecision)
  then
    issue (closeEligibleAllocations protocolNetwork deploymentAllocationDecision
             activeDeploymentAllocations epoch)
  else if (length activeDeploymentAllocations =? 0)%nat
  then
    closed ← lift (networkMonitor_closedAllocations network
                     (AllocationDecision.deployment deploymentAllocationDecision));
    issue (createAllocation protocolNetwork deploymentAllocationDecision (head closed))
  else
    let expiringAllocations :=
      identifyExpiringAllocations activeDeploymentAllocations
        deploymentAllocationDecision epoch maxAllocationEpochs network in
    if (0 <? length expiringAllocations)%nat
    then
      issue (refreshExpiredAllocations protocolNetwork deploymentAllocationDecision
               expiringAllocations)
    else mret tt.

(** The network-subgraph guard applied to one network's decisions. *)
Definition networkSubgraphGuard (network : Network)
           (allocationDecisions : list AllocationDecision) : list AllocationDecision :=
  match networkSubgraph_deployment network with
  | Some networkSubgraphDeployment =>
      if negb (allocateOnNetworkSubgraph (indexerOptions (specification network)))
      then
        let networkSubgraphIndex :=
          Js.findIndex
            (fun decision =>
               String.eqb (bytes32 (AllocationDecision.deployment decision))
                          (bytes32 (deployment_id networkSubgraphDeployment)))
            allocationDecisions in
        if networkSubgraphIndex >=? 0
        then alter (fun decision => AllocationDecision.setToAllocate decision false)
                   (Z.to_nat networkSubgraphIndex) allocationDecisions
        else allocationDecisions
      else allocationDecisions
  | None => allocationDecisions
  end.

Section ReconcileActions.

Variable multiNetworks : gmap string NetworkAndOperator.

(** The loop over [Object.entries(manualModeNetworks)], deleting the
    decisions of the networks flagged as manual. *)
Definition dropManualModeNetworks (entries : list (string * bool))
           (networkDeploymentAllocationDecisions : gmap string (list AllocationDecision))
  : gmap string (list AllocationDecision) :=
  fold_left
    (fun decisions (entry : string * bool) =>
       if entry.2 then delete entry.1 decisions else decisions)
    entries networkDeploymentAllocationDecisions.

Definition reconcileActions
           (networkDeploymentAllocationDecisions : gmap string (list AllocationDecision))
           (activeAllocations : gmap string (list Allocation))
           (epoch maxAllocationEpochs : gmap string Z) : Act unit :=
  (* not awaited *)
  let manualModeNetworks : Promise (gmap string bool) :=
    mapNetworkMapped multiNetworks networkDeploymentAllocationDecisions
      (fun item _ =>
         mret (managementMode_eqb
                 (allocationManagementMode
                    (indexerOptions (specification (network item))))
                 MANUAL)) in
  let networkDeploymentAllocationDecisions :=
    dropManualModeNetworks (Object_entries (PromiseObject manualModeNetworks))
      networkDeploymentAllocationDecisions in
  if bool_decide (networkDeploymentAllocationDecisions = ∅)
  then mret tt
  else
    filteredNetworkDeploymentAllocationDecisions ←
      await (mapNetworkMapped multiNetworks networkDeploymentAllocationDecisions
               (fun item allocationDecisions =>
                  mret (networkSubgraphGuard (network item) allocationDecisions)));
    zipped ← lift (zip4 multiNetworks filteredNetworkDeploymentAllocationDecisions
                     activeAllocations epoch maxAllocationEpochs);
    _ ← await (mapNetworkMapped multiNetworks zipped
                 (fun item (ctx : list AllocationDecision * list Allocation * Z * Z) =>
                    let '(allocationDecisions, activeAllocations, epoch,
                          maxAllocationEpochs) := ctx in
                    pMap (fun decision =>
                            reconcileDeploymentAllocationAction decision epoch
                              maxAllocationEpochs (network item) (operator item))
                         allocationDecisions));
    mret tt.

End ReconcileActions.

(** ** The expiring allocations as the specification words them

    [desiredLifetime] is the rule's [allocationLifetime] when set, and
    [max(1, maxAllocationEpochs - 1)] otherwise; an allocation is expired
    when [epoch >= createdAtEpoch + desiredLifetime]; the expired
    allocations still open on chain (or whose contract read failed) are
    returned. *)

Definition specifiedDesiredLifetime (decision : AllocationDecision)
           (maxAllocationEpochs : Z) : Z :=
  match rule (AllocationDecision.ruleMatch decision) with
  | Some r =>
      match IndexingRule.allocationLifetime r with
      | Some n => n
      | None => Z.max 1 (maxAllocationEpochs - 1)
      end
  | None => Z.max 1 (maxAllocationEpochs - 1)
  end.

Definition specifiedExpiringAllocations (activeAllocations : list Allocation)
           (decision : AllocationDecision) (epoch maxAllocationEpochs : Z)
           (network : Network) : list Allocation :=
  List.filter
    (fun allocation =>
       (Allocation.createdAtEpoch allocation
        + specifiedDesiredLifetime decision maxAllocationEpochs <=? epoch)
       && openOnChain network allocation)
    activeAllocations.

(** ** Rules that target a deployment

    The deployment a rule targets: the hex rendering its identifier
    decodes to, when the rule is deployment-typed.  A rule targets a
    deployment object when that is the object's hex rendering. *)

Definition ruleTarget (decodeDeploymentID : string -> option (string * string))
           (r : IndexingRuleAttributes) : option string :=
  if identifierType_eqb (IndexingRule.identifierType r) DEPLOYMENT
  then fst <$> decodeDeploymentID (IndexingRule.identifier r)
  else None.

Definition ruleTargets (decodeDeploymentID : string -> option (string * string))
           (r : IndexingRuleAttributes) (d : SubgraphDeploymentID) : Prop :=
  ruleTarget decodeDeploymentID r = Some (toString d).

(** ** Example data *)

Module Example.

Local Open Scope string_scope.

Definition hexA : string :=
  "0xaaaaaaaaaaaaaaaaaaaaaaaaaaaaaaaaaaaaaaaaaaaaaaaaaaaaaaaaaaaaaaaa".
Definition ipfsA : string := "QmZprxSLAFJgy9K2wTBzAg7yvg1Ucp9TH64gKQbn2ADKuB".
Definition hexB : string :=
  "0xbbbbbbbbbbbbbbbbbbbbbbbbbbbbbbbbbbbbbbbbbbbbbbbbbbbbbbbbbbbbbbbb".
Definition ipfsB : string := "QmayUysT5RMm1zgaC5c4iJ4s3eABCEbXx2ZceZbEnLuzPC".
Definition hexC : string :=
  "0xcccccccccccccccccccccccccccccccccccccccccccccccccccccccccccccccc".
Definition ipfsC : string := "Qmc871JZzbQq4r47Si29Fv1kAcJsmf3ccy4YyiahYXcesD".

(** The constructor [new SubgraphDeploymentID(id)] restricted to the three
    deployments above, each in its hex and its base-58 spelling. *)
Definition decodeDeploymentID (id : string) : option (string * string) :=
  if String.eqb id hexA || String.eqb id ipfsA then Some (hexA, ipfsA)
  else if String.eqb id hexB || String.eqb id ipfsB then Some (hexB, ipfsB)
  else if String.eqb id hexC || String.eqb id ipfsC then Some (hexC, ipfsC)
  else None.

(** Three deployment objects, and a second object for deployment A. *)
Definition deploymentA : SubgraphDeploymentID := mkSubgraphDeploymentID 0 hexA ipfsA.
Definition deploymentB : SubgraphDeploymentID := mkSubgraphDeploymentID 1 hexB ipfsB.
Definition deploymentA' : SubgraphDeploymentID := mkSubgraphDeploymentID 2 hexA ipfsA.
Definition deploymentC : SubgraphDeploymentID := mkSubgraphDeploymentID 3 hexC ipfsC.

Definition mainnet : string := "eip155:1".
Definition indexerAddress : string := "0x1111111111111111111111111111111111111111".

Definition ruleFor (identifier : string) (identifierType : SubgraphIdentifierType)
           (decisionBasis : IndexingDecisionBasis) (allocationLifetime : option Z)
  : IndexingRuleAttributes :=
  {| IndexingRule.identifier := identifier;
     IndexingRule.identifierType := identifierType;
     IndexingRule.decisionBasis := decisionBasis;
     IndexingRule.allocationAmount := Some 1000;
     IndexingRule.allocationLifetime := allocationLifetime;
     IndexingRule.parallelAllocations := None;
     IndexingRule.maxSignal := None;
     IndexingRule.minSignal := None;
     IndexingRule.minStake := None;
     IndexingRule.minAverageQueryFees := None;
     IndexingRule.protocolNetwork := mainnet |}.

Definition decisionFor (deployment : SubgraphDeploymentID) (toAllocate : bool)
           (r : option IndexingRuleAttributes) : AllocationDecision :=
  {| AllocationDecision.deployment := deployment;
     AllocationDecision.toAllocate := toAllocate;
     AllocationDecision.ruleMatch := {| rule := r; reason := "rules" |} |}.

(** An allocation on deployment A. *)
Definition allocationOnA (id : string) (createdAtEpoch : Z) (closedAtEpoch : option Z)
           (poi : option string) (status : AllocationStatus) : Allocation :=
  {| Allocation.id := id;
     Allocation.indexer := indexerAddress;
     Allocation.subgraphDeployment := mkSubgraphDeployment deploymentA;
     Allocation.allocatedTokens := 1000;
     Allocation.createdAtEpoch := createdAtEpoch;
     Allocation.closedAtEpoch := closedAtEpoch;
     Allocation.closedAtEpochStartBlockHash :=
       match closedAtEpoch with Some _ => Some "0xc105ed" | None => None end;
     Allocation.previousEpochStartBlockHash :=
       match closedAtEpoch with Some _ => Some "0x94e710" | None => None end;
     Allocation.poi := poi;
     Allocation.status := status |}.

Definition specificationFor (mode : AllocationManagementMode) : NetworkSpecification :=
  {| networkIdentifier := mainnet;
     indexerOptions :=
       {| allocationManagementMode := mode;
          poiDisputableEpochs := 1;
          allocateOnNetworkSubgraph := false |} |}.

(** A network without a meta-subgraph, whose monitor reports the given
    active allocations and no closed ones, whose staking contract reports
    every allocation as open, and whose provider knows every block. *)
Definition networkFor (mode : AllocationManagementMode) (active : list Allocation)
  : Network :=
  {| specification := specificationFor mode;
     networkSubgraph_deployment := None;
     networkMonitor_allocations := fun _ => Ok active;
     networkMonitor_closedAllocations := fun _ => Ok [];
     staking_getAllocation := fun _ => Ok (mkOnChainAllocation 0);
     networkProvider_getBlock :=
       fun h => match h with
                | Some h => Ok (mkBlock 100 h)
                | None => Throw
                end |}.

Definition operatorFor (mode : AllocationManagementMode) : Operator :=
  {| operator_specification := specificationFor mode |}.

Definition networksFor (mode : AllocationManagementMode)
  : gmap string NetworkAndOperator :=
  {[ mainnet := mkNetworkAndOperator (networkFor mode []) (operatorFor mode) ]}.

(** A disputable allocation on deployment A, closed at epoch 10 with the
    POI ["0xfeed"]. *)
Definition closedAllocation : Allocation :=
  allocationOnA "0xa1" 3 (Some 10) (Some "0xfeed") CLOSED.

(** A graph node that has indexed up to the block before the closing
    epoch's start block: it returns the POI ["0xfeed"] at the previous
    epoch's start block and ["0xbeef"] at the closing epoch's. *)
Definition proofOfIndexing (d : SubgraphDeploymentID) (b : Block) (indexer : string)
  : Result (option string) :=
  if String.eqb (hash b) "0x94e710" then Ok (Some "0xfeed") else Ok (Some "0xbeef").

(** A graph node that has no POI to offer. *)
Definition noProofOfIndexing (d : SubgraphDeploymentID) (b : Block) (indexer : string)
  : Result (option string) :=
  Ok None.

(** The dispute built for [closedAllocation] from the two reference POIs. *)
Definition disputeOf (referencePOI referencePreviousPOI : option string)
           (status : DisputeStatus) : POIDisputeAttributes :=
  {| POIDispute.allocationID := "0xa1";
     POIDispute.subgraphDeploymentID := ipfsA;
     POIDispute.allocationIndexer := indexerAddress;
     POIDispute.allocationAmount := 1000;
     POIDispute.allocationProof := Some "0xfeed";
     POIDispute.closedEpoch := Some 10;
     POIDispute.closedEpochReferenceProof := referencePOI;
     POIDispute.closedEpochStartBlockHash := Some "0xc105ed";
     POIDispute.closedEpochStartBlockNumber := Some 100;
     POIDispute.previousEpochReferenceProof := referencePreviousPOI;
     POIDispute.previousEpochStartBlockHash := Some "0x94e710";
     POIDispute.previousEpochStartBlockNumber := Some 100;
     POIDispute.status := status;
     POIDispute.protocolNetwork := mainnet |}.

(** The clock: [Date.now()] in milliseconds, and the same instant in
    seconds. *)
Definition dateNow : Z := 1700000000000.
Definition nowSeconds : Z := 1700000000.

(** A subgraph with two versions: [previous] created long ago, [latest]
    created at [latestCreatedAt]. *)
Definition subgraph (id : string) (previous latest : SubgraphDeploymentID)
           (latestCreatedAt : Z) : Subgraph :=
  {| Subgraph.id := id;
     Subgraph.versionCount := 2;
     Subgraph.versions :=
       [ Subgraph.mkVersion 0 1000 previous;
         Subgraph.mkVersion 1 latestCreatedAt latest ] |}.

End Example.

(** ** Reading operator calls *)

(** The decision an operator call was issued for. *)
Definition callDecision (c : OperatorCall) : AllocationDecision :=
  match c with
  | createAllocation _ d _ => d
  | closeEligibleAllocations _ d _ _ => d
  | refreshExpiredAllocations _ d _ => d
  end.

(** Does the call open or renew an allocation? *)
Definition allocates (c : OperatorCall) : bool :=
  match c with
  | createAllocation _ _ _ => true
  | closeEligibleAllocations _ _ _ _ => false
  | refreshExpiredAllocations _ _ _ => true
  end.

(** ** A sample network with a network subgraph *)

Module GuardExample.

(** The network of [Example.networkFor AUTO []], whose network subgraph is
    deployment C and which does not allocate on it. *)
Definition guardedNetwork : Network :=
  {| specification := Example.specificationFor AUTO;
     networkSubgraph_deployment := Some (mkSubgraphDeployment Example.deploymentC);
     networkMonitor_allocations := fun _ => Ok [];
     networkMonitor_closedAllocations := fun _ => Ok [];
     staking_getAllocation := fun _ => Ok (mkOnChainAllocation 0);
     networkProvider_getBlock :=
       fun h => match h with
                | Some h => Ok (mkBlock 100 h)
                | None => Throw
                end |}.

Definition guardedNetworks : gmap string NetworkAndOperator :=
  {[ Example.mainnet := mkNetworkAndOperator guardedNetwork (Example.operatorFor AUTO) ]}.

(** Decisions to allocate on the network subgraph and on deployment A. *)
Definition decisions : list AllocationDecision :=
  [Example.decisionFor Example.deploymentC true None;
   Example.decisionFor Example.deploymentA true None].

End GuardExample.

(** ** Building the agent's networks *)

(** [networkAndOperatorIdentity]: the identifier shared by a network and
    its operator; throws when they differ. *)
Definition networkAndOperatorIdentity (pair : NetworkAndOperator) : Result string :=
  let networkId := networkIdentifier (specification (network pair)) in
  let operatorId := networkIdentifier (operator_specification (operator pair)) in
  if negb (String.eqb networkId operatorId) then Throw else Ok networkId.

(** Modelled from the spec: the constructor of [MultiNetworks] of
    indexer-common is defined outside the agent.  It keys the items by
    their identity and validates that all identities are distinct; it
    throws otherwise, and when the identity function throws. *)
Fixpoint newMultiNetworks_from (items : list NetworkAndOperator)
         (identity : NetworkAndOperator -> Result string)
         (inner : gmap string NetworkAndOperator)
  : Result (gmap string NetworkAndOperator) :=
  match items with
  | [] => Ok inner
  | item :: rest =>
      id ← identity item;
      match inner !! id with
      | Some _ => Throw
      | None => newMultiNetworks_from rest identity (<[id := item]> inner)
      end
  end.

Definition newMultiNetworks (items : list NetworkAndOperator)
           (identity : NetworkAndOperator -> Result string)
  : Result (gmap string NetworkAndOperator) :=
  newMultiNetworks_from items identity ∅.

(** [array.every((value, index) => ...)], the callback possibly throwing. *)
Fixpoint every_from {A : Type} (p : A -> nat -> Result bool) (l : list A) (index : nat)
  : Result bool :=
  match l with
  | [] => Ok true
  | x :: rest =>
      match p x index with
      | Ok true => every_from p rest (S index)
      | Ok false => Ok false
      | Throw => Throw
      end
  end.

(** [networks.length === operators.length && networks.every((network, index) =>
      network.specification.networkIdentifier ===
      operators[index].specification.networkIdentifier)];
    reading a property of [operators[index]] throws when the index is out
    of range. *)
Definition validInputs (networks : list Network) (operators : list Operator)
  : Result bool :=
  if (length networks =? length operators)%nat
  then
    every_from
      (fun network index =>
         match operators !! index with
         | Some operator =>
             Ok (String.eqb (networkIdentifier (specification network))
                            (networkIdentifier (operator_specification operator)))
         | None => Throw
         end)
      networks 0%nat
  else Ok false.

(** [createMultiNetworks].  [zip] pairs the two arrays index by index;
    they have the same length once [validInputs] holds. *)
Definition createMultiNetworks (networks : list Network) (operators : list Operator)
  : Result (gmap string NetworkAndOperator) :=
  valid ← validInputs networks operators;
  if negb valid
  then Throw
  else
    let networksAndOperators :=
      map (fun pair : Network * Operator => mkNetworkAndOperator pair.1 pair.2)
          (combine networks operators) in
    newMultiNetworks networksAndOperators networkAndOperatorIdentity.

(** ** The indexing rules of one network *)

Section IndexingRules.

Variable decodeDeploymentID : string -> option (string * string).

(** [operator.indexingRules(true)] *)
Variable operator_indexingRules : Result (list IndexingRuleAttributes).

(** [network.networkMonitor.subgraphs(ids)] *)
Variable networkMonitor_subgraphs : list string -> Result (list Subgraph).

(** [network.contracts.epochManager.epochLength()] followed by
    [toNumber()]: the epoch length in blocks, [Throw] when the read or the
    conversion fails. *)
Variable epochManager_epochLength : Result Z.

Variable dateNow : Z.

(** The callback that [indexingRules] maps over the networks. *)
Definition networkIndexingRules : Result (list IndexingRuleAttributes) :=
  rules ← operator_indexingRules;
  let subgraphRuleIds :=
    map IndexingRule.identifier
        (List.filter (fun rule =>
                        identifierType_eqb (IndexingRule.identifierType rule) SUBGRAPH)
                     rules) in
  subgraphsMatchingRules ← networkMonitor_subgraphs subgraphRuleIds;
  if (1 <=? length subgraphsMatchingRules)%nat
  then
    epochLength ← epochManager_epochLength;
    let blockPeriod := 15 in
    let bufferPeriod := epochLength * blockPeriod * 100 in
    convertSubgraphBasedRulesToDeploymentBased decodeDeploymentID
      subgraphsMatchingRules bufferPeriod dateNow rules
  else Ok rules.

End IndexingRules.

(** ** The allocation decisions of every network *)

(** Modelled from the spec: [MultiNetworks.zip] of indexer-common is
    defined outside the agent.  The two dictionaries must cover the same
    id set as the items; anything else is fatal. *)
Definition zip {A B : Type} (inner : gmap string NetworkAndOperator)
           (a : gmap string A) (b : gmap string B) : Result (gmap string (A * B)) :=
  if bool_decide (dom a = dom inner ∧ dom b = dom inner)
  then Ok (map_zip a b)
  else Throw.

(** lodash's [mapValues(object, callback)], the callback possibly
    throwing. *)
Definition mapValues {T U : Type} (callback : T -> Result U) (object : gmap string T)
  : Result (gmap string U) :=
  entries ← mapR (fun entry : string * T =>
                    u ← callback entry.2;
                    Ok (entry.1, u))
                 (map_to_list object);
  Ok (list_to_map entries).

Section AllocationDecisions.

Variable multiNetworks : gmap string NetworkAndOperator.

(** [evaluateDeployments(logger, networkDeployments, rules)] of
    indexer-common: the rule evaluator. *)
Variable evaluateDeployments :
  list SubgraphDeployment -> list IndexingRuleAttributes ->
  Result (list AllocationDecision).

(** The callback of the eventual [networkDeploymentAllocationDecisions]. *)
Definition networkDeploymentAllocationDecisions
           (indexingRules : gmap string (list IndexingRuleAttributes))
           (networkDeployments : gmap string (list SubgraphDeployment))
  : Result (gmap string (list AllocationDecision)) :=
  rulesAndDeploymentsByNetwork ← zip multiNetworks indexingRules networkDeployments;
  mapValues
    (fun pair : list IndexingRuleAttributes * list SubgraphDeployment =>
       let indexingRules := pair.1 in
       let networkDeployments := pair.2 in
       if (length indexingRules =? 0)%nat
       then Ok []
       else evaluateDeployments networkDeployments indexingRules)
    rulesAndDeploymentsByNetwork.

End AllocationDecisions.

(** ** The allocations that keep a deployment indexed *)

(** [[...recentlyClosedAllocations, ...Object.values(activeAllocations).flat()]],
    the eligible allocations that the reconciliation loop hands to
    [reconcileDeployments]. *)
Definition eligibleAllocations (recentlyClosedAllocations : list Allocation)
           (activeAllocations : gmap string (list Allocation)) : list Allocation :=
  recentlyClosedAllocations ++ concat (Object_values activeAllocations).

(** ** The query endpoint of the indexer service *)

Module Server.

(** [req.headers['x-graph-payment-id']], of type
    [string | string[] | undefined]. *)
Inductive HeaderValue : Type :=
| undefined
| single (value : string)
| several (values : list string).

(** What the handler reads of a request: [req.params.id],
    [req.body.toString()], the payment header and [req.ip]. *)
Record Request : Type := mkRequest {
  params_id : string;
  body : string;
  header_paymentId : HeaderValue;
  ip : string;
}.

(** The answer of the paid query processor. *)
Module Paid.
Record Response (Payload : Type) : Type := mkResponse {
  status : option Z;
  result : Payload;
}.
Arguments mkResponse {Payload}.
Arguments status {Payload}.
Arguments result {Payload}.
End Paid.

(** The answer of the free query processor. *)
Module Free.
Record Response (Payload : Type) : Type := mkResponse {
  status : option Z;
  data : Payload;
}.
Arguments mkResponse {Payload}.
Arguments status {Payload}.
Arguments data {Payload}.
End Free.

(** Calls on the two query processors. *)
Inductive ProcessorCall : Type :=
| addPaidQuery (subgraphId paymentId query : string)
| addFreeQuery (subgraphId query : string).

(** What [send] is given: nothing, a text, or a processor's payload. *)
Inductive Body (Payload : Type) : Type :=
| noBody
| text (message : string)
| payload (p : Payload).
Arguments noBody {Payload}.
Arguments text {Payload}.
Arguments payload {Payload}.

(** The reply: [res.status(..)], [contentType(..)] when called, and
    [send(..)]. *)
Record Reply (Payload : Type) : Type := mkReply {
  reply_status : Z;
  reply_contentType : option string;
  reply_body : Body Payload;
}.
Arguments mkReply {Payload}.
Arguments reply_status {Payload}.
Arguments reply_contentType {Payload}.
Arguments reply_body {Payload}.

(** [whitelist.indexOf(x)] *)
Definition indexOf (whitelist : list string) (x : string) : Z :=
  Js.findIndex (String.eqb x) whitelist.

(** [status || 200] *)
Definition statusOr200 (status : option Z) : Z :=
  match status with
  | Some n => if n =? 0 then 200 else n
  | None => 200
  end.

Section CreateServer.

Variable Payload : Type.
Variable paidQueryProcessor_addPaidQuery :
  string -> string -> string -> Result (Paid.Response Payload).
Variable freeQueryProcessor_addFreeQuery :
  string -> string -> Result (Free.Response Payload).
Variable whitelist : list string.

(** The handler of [POST /subgraphs/id/:id]: the processor calls it makes
    and the reply it sends. *)
Definition postSubgraphQuery (req : Request) : list ProcessorCall * Reply Payload :=
  let subgraphId := params_id req in
  let query := body req in
  let paymentId := header_paymentId req in
  match paymentId with
  | several _ =>
      ([], mkReply 400 None (text "Invalid X-Graph-Payment-Id provided"))
  | _ =>
      let paymentRequired := if indexOf whitelist (ip req) >=? 0 then false else true in
      if paymentRequired
         && match paymentId with undefined => true | _ => false end
      then ([], mkReply 400 None (text "No X-Graph-Payment-Id provided"))
      else
        match paymentId with
        | single paymentId =>
            ([addPaidQuery subgraphId paymentId query],
             match paidQueryProcessor_addPaidQuery subgraphId paymentId query with
             | Ok response =>
                 mkReply (statusOr200 (Paid.status response)) (Some "application/json")
                         (payload (Paid.result response))
             | Throw => mkReply 500 None noBody
             end)
        | _ =>
            ([addFreeQuery subgraphId query],
             match freeQueryProcessor_addFreeQuery subgraphId query with
             | Ok response =>
                 mkReply (statusOr200 (Free.status response)) (Some "application/json")
                         (payload (Free.data response))
             | Throw => mkReply 500 None noBody
             end)
        end
  end.

End CreateServer.

End Server.

(** ** Startup: indexing the network subgraph *)


Section EnsureNetworkSubgraphIsIndexing.

Variable decodeDeploymentID : string -> option (string * string).

(** [graphNode.ensure(name, deployment)] *)
Variable graphNode_ensure : string -> SubgraphDeploymentID -> Result unit.

(** [validateProviderNetworkIdentifier(networkIdentifier, deployment,
    graphNode, logger)] of indexer-common. *)
Variable validateProviderNetworkIdentifier : string -> string -> Result unit.


End EnsureNetworkSubgraphIsIndexing.
(** * Properties of the deployment lists *)

Lemma deploymentInList_In (l : list SubgraphDeploymentID) (d : SubgraphDeploymentID) :
  deploymentInList l d = true <-> In (bytes32 d) (map bytes32 l).
Proof.
  unfold deploymentInList.
  induction l as [|x l IH]; simpl.
  - split; [discriminate | tauto].
  - destruct (String.eqb (bytes32 x) (bytes32 d)) eqn:E.
    + apply String.eqb_eq in E. split; auto.
    + apply String.eqb_neq in E. rewrite IH. split; [auto | intros [H|H]; [contradiction | exact H]].
Qed.

Lemma deploymentInList_existsb (l : list SubgraphDeploymentID) (d : SubgraphDeploymentID) :
  deploymentInList l d = existsb (fun v => String.eqb (bytes32 d) (bytes32 v)) l.
Proof.
  unfold deploymentInList.
  induction l as [|x l IH]; simpl; [reflexivity|].
  rewrite (String.eqb_sym (bytes32 d) (bytes32 x)).
  destruct (String.eqb (bytes32 x) (bytes32 d)); simpl; auto.
Qed.

Lemma findIndex_from_fresh {A : Type} (p : A -> bool) (pre : list A) (x : A)
      (rest : list A) (i : Z) :
  existsb p pre = false -> p x = true ->
  Js.findIndex_from p (pre ++ x :: rest) i = i + Z.of_nat (length pre).
Proof.
  revert i. induction pre as [|y pre IH]; simpl; intros i Hpre Hx.
  - rewrite Hx. lia.
  - apply orb_false_elim in Hpre as [Hy Hpre]. rewrite Hy.
    rewrite IH by assumption. lia.
Qed.

Lemma findIndex_from_seen {A : Type} (p : A -> bool) (pre l : list A) (i : Z) :
  existsb p pre = true ->
  Js.findIndex_from p (pre ++ l) i < i + Z.of_nat (length pre).
Proof.
  revert i. induction pre as [|y pre IH]; simpl; intros i Hpre; [discriminate|].
  destruct (p y) eqn:Hy; [lia|].
  simpl in Hpre. specialize (IH (i + 1) Hpre). lia.
Qed.

Lemma uniqueDeploymentsOnly_at (pre : list SubgraphDeploymentID)
      (x : SubgraphDeploymentID) (rest : list SubgraphDeploymentID) :
  uniqueDeploymentsOnly x (Z.of_nat (length pre)) (pre ++ x :: rest)
  = negb (deploymentInList pre x).
Proof.
  unfold uniqueDeploymentsOnly, Js.findIndex.
  rewrite deploymentInList_existsb.
  destruct (existsb _ pre) eqn:E; simpl.
  - apply Z.eqb_neq.
    pose proof (findIndex_from_seen _ pre (x :: rest) 0 E). lia.
  - apply Z.eqb_eq. rewrite findIndex_from_fresh; auto using String.eqb_refl.
Qed.

Lemma filter_from_unique_In (pre l : list SubgraphDeploymentID) (b : string) :
  In b (map bytes32
          (Js.filter_from uniqueDeploymentsOnly (pre ++ l) l (Z.of_nat (length pre))))
  <-> In b (map bytes32 l) /\ ~ In b (map bytes32 pre).
Proof.
  revert pre. induction l as [|x l IH]; intros pre; simpl.
  - tauto.
  - rewrite uniqueDeploymentsOnly_at.
    assert (Hshift : Js.filter_from uniqueDeploymentsOnly (pre ++ x :: l) l
                       (Z.of_nat (length pre) + 1)
                     = Js.filter_from uniqueDeploymentsOnly ((pre ++ [x]) ++ l) l
                         (Z.of_nat (length (pre ++ [x])))).
    { rewrite <- app_assoc. simpl. rewrite length_app. simpl.
      f_equal. lia. }
    rewrite Hshift.
    specialize (IH (pre ++ [x])). rewrite map_app, in_app_iff in IH. simpl in IH.
    destruct (deploymentInList pre x) eqn:E; simpl.
    + apply deploymentInList_In in E. rewrite IH.
      split.
      * intros [H1 H2]. split; [right; exact H1 | tauto].
      * intros [[H1|H1] H2]; [subst b; contradiction|]. split; [exact H1|].
        intros [H|[H|[]]]; [contradiction | subst b; contradiction].
    + assert (Hx : ~ In (bytes32 x) (map bytes32 pre)).
      { intros H. apply deploymentInList_In in H. congruence. }
      rewrite IH. split.
      * intros [H|[H1 H2]]; [subst b; split; auto | split; [right; exact H1 | tauto]].
      * intros [[H1|H1] H2]; [left; exact H1|].
        destruct (string_dec (bytes32 x) b) as [e|n]; [left; exact e|].
        right. split; [exact H1|]. intros [H|[H|[]]]; contradiction.
Qed.

Lemma uniqueDeployments_In (l : list SubgraphDeploymentID) (b : string) :
  In b (map bytes32 (uniqueDeployments l)) <-> In b (map bytes32 l).
Proof.
  unfold uniqueDeployments, Js.filter3.
  pose proof (filter_from_unique_In [] l b) as H. simpl in H.
  rewrite H. tauto.
Qed.

Lemma filter_from_incl {A : Type} (p : A -> Z -> list A -> bool) (array l : list A)
      (i : Z) (x : A) :
  In x (Js.filter_from p array l i) -> In x l.
Proof.
  revert i. induction l as [|y l IH]; simpl; intros i; [tauto|].
  destruct (p y i array); simpl; intros H.
  - destruct H as [H|H]; [left; exact H | right; eapply IH; exact H].
  - right; eapply IH; exact H.
Qed.

Lemma uniqueDeployments_incl (l : list SubgraphDeploymentID) (d : SubgraphDeploymentID) :
  In d (uniqueDeployments l) -> In d l.
Proof. apply filter_from_incl. Qed.

Lemma pushIfAbsent_In (xs t : list SubgraphDeploymentID) (b : string) :
  In b (map bytes32 (fold_left pushIfAbsent xs t))
  <-> In b (map bytes32 t) \/ In b (map bytes32 xs).
Proof.
  revert t. induction xs as [|x xs IH]; intros t; simpl.
  - tauto.
  - rewrite IH. unfold pushIfAbsent.
    destruct (deploymentInList t x) eqn:E; simpl.
    + apply deploymentInList_In in E. split.
      * intros [H|H]; auto.
      * intros [H|[H|H]]; auto. subst b; auto.
    + rewrite map_app, in_app_iff. simpl. tauto.
Qed.

Lemma augmentedTargetDeployments_In
      (networkSubgraphDeployments offchainSubgraphs targetDeployments :
         list SubgraphDeploymentID) (b : string) :
  In b (map bytes32
          (augmentedTargetDeployments networkSubgraphDeployments offchainSubgraphs
             targetDeployments))
  <-> In b (map bytes32 targetDeployments)
      \/ In b (map bytes32 networkSubgraphDeployments)
      \/ In b (map bytes32 offchainSubgraphs).
Proof.
  unfold augmentedTargetDeployments.
  rewrite uniqueDeployments_In, !pushIfAbsent_In. tauto.
Qed.

Lemma removeList_In
      (networkSubgraphDeployments offchainSubgraphs activeDeployments targetDeployments :
         list SubgraphDeploymentID)
      (eligibleAllocations : list Allocation) (d : SubgraphDeploymentID) :
  In d (removeList networkSubgraphDeployments offchainSubgraphs activeDeployments
          targetDeployments eligibleAllocations)
  <-> In d (uniqueDeployments activeDeployments)
      /\ ~ In (bytes32 d)
           (map bytes32
              (augmentedTargetDeployments networkSubgraphDeployments offchainSubgraphs
                 targetDeployments))
      /\ ~ In (bytes32 d)
           (map bytes32
              (map (fun allocation =>
                      deployment_id (Allocation.subgraphDeployment allocation))
                   eligibleAllocations)).
Proof.
  unfold removeList. rewrite filter_In, andb_true_iff, !negb_true_iff.
  unfold eligibleAllocationDeployments.
  rewrite <- (uniqueDeployments_In (map _ eligibleAllocations)).
  rewrite <- !deploymentInList_In.
  split; intros (H1 & H2 & H3); repeat split; try assumption;
    try (intros H; congruence);
    try (apply not_true_is_false; assumption).
Qed.

Lemma reconcileDeployments_remove_calls
      (networkSubgraphDeployments offchainSubgraphs activeDeployments targetDeployments :
         list SubgraphDeploymentID)
      (eligibleAllocations : list Allocation) (d : SubgraphDeploymentID) :
  In (remove d)
     (reconcileDeployments networkSubgraphDeployments offchainSubgraphs
        activeDeployments targetDeployments eligibleAllocations)
  <-> In d (removeList networkSubgraphDeployments offchainSubgraphs activeDeployments
              targetDeployments eligibleAllocations).
Proof.
  unfold reconcileDeployments. rewrite in_app_iff, !in_map_iff. split.
  - intros [(x & Hx & _)|(x & Hx & Hin)]; [discriminate | congruence].
  - intros H. right. exists d. auto.
Qed.

Lemma reconcileDeployments_ensure_calls
      (networkSubgraphDeployments offchainSubgraphs activeDeployments targetDeployments :
         list SubgraphDeploymentID)
      (eligibleAllocations : list Allocation) (name : string) (d : SubgraphDeploymentID) :
  In (ensure name d)
     (reconcileDeployments networkSubgraphDeployments offchainSubgraphs
        activeDeployments targetDeployments eligibleAllocations)
  -> In d (deployList networkSubgraphDeployments offchainSubgraphs activeDeployments
             targetDeployments).
Proof.
  unfold reconcileDeployments. rewrite in_app_iff, !in_map_iff.
  intros [(x & Hx & Hin)|(x & Hx & _)]; [congruence | discriminate].
Qed.

(** C1. The remove set of [reconcileDeployments] is, by bytes32, the active
    deployments minus the union of the target deployments (as augmented by
    the reconciler with the network subgraphs and the startup offchain
    list) and the deployments of the eligible allocations.  Hence a
    deployment backing an eligible allocation is never in the remove set
    and never passed to [graphNode.remove], whether or not a rule targets
    it. *)
Theorem remove_is_active_minus_target_and_eligible
      (networkSubgraphDeployments offchainSubgraphs activeDeployments targetDeployments :
         list SubgraphDeploymentID)
      (eligibleAllocations : list Allocation) :
  let target :=
    augmentedTargetDeployments networkSubgraphDeployments offchainSubgraphs
      targetDeployments in
  let eligible :=
    map (fun allocation => deployment_id (Allocation.subgraphDeployment allocation))
        eligibleAllocations in
  let remove_ :=
    removeList networkSubgraphDeployments offchainSubgraphs activeDeployments
      targetDeployments eligibleAllocations in
  let calls :=
    reconcileDeployments networkSubgraphDeployments offchainSubgraphs
      activeDeployments targetDeployments eligibleAllocations in
  (forall b : string,
      In b (map bytes32 remove_)
      <-> In b (map bytes32 activeDeployments)
          /\ ~ (In b (map bytes32 target) \/ In b (map bytes32 eligible)))
  /\ (forall b : string,
         In b (map bytes32 target)
         <-> In b (map bytes32 targetDeployments)
             \/ In b (map bytes32 networkSubgraphDeployments)
             \/ In b (map bytes32 offchainSubgraphs))
  /\ (forall d : SubgraphDeploymentID, In (remove d) calls <-> In d remove_)
  /\ (forall (allocation : Allocation) (d : SubgraphDeploymentID),
         In allocation eligibleAllocations ->
         bytes32 d = bytes32 (deployment_id (Allocation.subgraphDeployment allocation)) ->
         ~ In d remove_ /\ ~ In (remove d) calls).
Proof.
  intros target eligible remove_ calls.
  assert (Hmem : forall d, In d remove_ <->
                   In d (uniqueDeployments activeDeployments)
                   /\ ~ In (bytes32 d) (map bytes32 target)
                   /\ ~ In (bytes32 d) (map bytes32 eligible))
    by (intros d; apply removeList_In).
  assert (Hcalls : forall d, In (remove d) calls <-> In d remove_)
    by (intros d; apply reconcileDeployments_remove_calls).
  split; [|split; [|split]].
  - intros b. split.
    + intros H. apply in_map_iff in H as (d & <- & Hd).
      apply Hmem in Hd as (Ha & Ht & He). split; [|tauto].
      apply uniqueDeployments_In. apply in_map. exact Ha.
    + intros [Ha Hn]. apply uniqueDeployments_In in Ha.
      apply in_map_iff in Ha as (d & <- & Hd).
      apply in_map. apply Hmem. tauto.
  - intros b. apply augmentedTargetDeployments_In.
  - exact Hcalls.
  - intros allocation d Hin Hb.
    assert (Hnot : ~ In d remove_).
    { intros Hd. apply Hmem in Hd as (_ & _ & He). apply He.
      rewrite Hb. unfold eligible. rewrite map_map.
      apply (in_map (fun a => bytes32 (deployment_id (Allocation.subgraphDeployment a)))).
      exact Hin. }
    split; [exact Hnot|]. rewrite Hcalls. exact Hnot.
Qed.

(** C8. The deploy and remove sets of [reconcileDeployments] are disjoint
    by bytes32: a deployment to deploy is absent from the active list, a
    deployment to remove is present in it, so no deployment is both
    ensured and removed in one reconciliation. *)
Theorem deploy_and_remove_disjoint
      (networkSubgraphDeployments offchainSubgraphs activeDeployments targetDeployments :
         list SubgraphDeploymentID)
      (eligibleAllocations : list Allocation) :
  let deploy :=
    deployList networkSubgraphDeployments offchainSubgraphs activeDeployments
      targetDeployments in
  let remove_ :=
    removeList networkSubgraphDeployments offchainSubgraphs activeDeployments
      targetDeployments eligibleAllocations in
  let calls :=
    reconcileDeployments networkSubgraphDeployments offchainSubgraphs
      activeDeployments targetDeployments eligibleAllocations in
  (forall d : SubgraphDeploymentID,
      In d deploy -> ~ In (bytes32 d) (map bytes32 activeDeployments))
  /\ (forall d : SubgraphDeploymentID,
         In d remove_ -> In (bytes32 d) (map bytes32 activeDeployments))
  /\ (forall d d' : SubgraphDeploymentID,
         In d deploy -> In d' remove_ -> bytes32 d <> bytes32 d')
  /\ (forall (name : string) (d d' : SubgraphDeploymentID),
         In (ensure name d) calls -> In (remove d') calls -> bytes32 d <> bytes32 d').
Proof.
  intros deploy remove_ calls.
  assert (Hdeploy : forall d, In d deploy ->
                      ~ In (bytes32 d) (map bytes32 activeDeployments)).
  { intros d Hd. unfold deploy, deployList in Hd.
    apply filter_In in Hd as [_ Hd]. apply negb_true_iff in Hd.
    intros Hin. apply uniqueDeployments_In in Hin.
    apply deploymentInList_In in Hin. congruence. }
  assert (Hremove : forall d, In d remove_ ->
                      In (bytes32 d) (map bytes32 activeDeployments)).
  { intros d Hd. apply removeList_In in Hd as (Ha & _).
    apply uniqueDeployments_incl in Ha. apply in_map. exact Ha. }
  assert (Hdisj : forall d d', In d deploy -> In d' remove_ -> bytes32 d <> bytes32 d').
  { intros d d' Hd Hd' Heq. apply (Hdeploy d Hd). rewrite Heq. apply Hremove. exact Hd'. }
  repeat split; try assumption.
  intros name d d' He Hr. apply Hdisj.
  - eapply reconcileDeployments_ensure_calls. exact He.
  - eapply reconcileDeployments_remove_calls. exact Hr.
Qed.

(** Scenario S1: nothing targeted, nothing active, one network subgraph:
    it is the one deployment to ensure. *)
Example first_cycle_scenario :
  reconcileDeployments [Example.deploymentC] [] [] [] []
  = [ensure "indexer-agent/yiahYXcesD" Example.deploymentC].
Proof. reflexivity. Qed.

(** Scenario S3: B and A are active, only B is targeted, and an eligible
    allocation backs A: nothing is deployed, nothing is removed. *)
Example remove_safety_scenario :
  reconcileDeployments [] [] [Example.deploymentB; Example.deploymentA]
    [Example.deploymentB] [Example.allocationOnA "0xa1" 3 None None ACTIVE]
  = [].
Proof. reflexivity. Qed.

(** * Properties of the network-subgraph guard *)

Lemma findIndex_from_found {A : Type} (p : A -> bool) (l : list A) (i : Z) :
  0 <= i -> 0 <= Js.findIndex_from p l i ->
  exists (n : nat) (x : A),
    Js.findIndex_from p l i = i + Z.of_nat n
    /\ l !! n = Some x /\ p x = true
    /\ forall (j : nat) (e : A), (j < n)%nat -> l !! j = Some e -> p e = false.
Proof.
  revert i. induction l as [|y l IH]; simpl; intros i Hi Hfound; [lia|].
  destruct (p y) eqn:Hy.
  - exists 0%nat, y. repeat split; [lia | assumption | intros j e Hj; lia].
  - destruct (IH (i + 1)) as (n & x & Hn & Hx & Hpx & Hfirst); [lia | assumption |].
    exists (S n), x. repeat split; [lia | exact Hx | exact Hpx |].
    intros [|j] e Hj He; simpl in He.
    + congruence.
    + apply (Hfirst j); [lia | exact He].
Qed.

Lemma setToAllocate_id (d : AllocationDecision) :
  AllocationDecision.setToAllocate d (AllocationDecision.toAllocate d) = d.
Proof. destruct d; reflexivity. Qed.

(** The guard either leaves the list as it is, or clears [toAllocate] on
    the first decision for the network subgraph. *)
Lemma networkSubgraphGuard_cases (network : Network)
      (allocationDecisions : list AllocationDecision) :
  networkSubgraphGuard network allocationDecisions = allocationDecisions
  \/ exists (n : nat) (x : AllocationDecision) (nsd : SubgraphDeployment),
      networkSubgraphGuard network allocationDecisions
      = alter (fun decision => AllocationDecision.setToAllocate decision false) n
              allocationDecisions
      /\ networkSubgraph_deployment network = Some nsd
      /\ allocateOnNetworkSubgraph (indexerOptions (specification network)) = false
      /\ allocationDecisions !! n = Some x
      /\ bytes32 (AllocationDecision.deployment x) = bytes32 (deployment_id nsd)
      /\ forall (j : nat) (e : AllocationDecision),
          (j < n)%nat -> allocationDecisions !! j = Some e ->
          bytes32 (AllocationDecision.deployment e) <> bytes32 (deployment_id nsd).
Proof.
  unfold networkSubgraphGuard.
  destruct (networkSubgraph_deployment network) as [nsd|]; [|left; reflexivity].
  destruct (allocateOnNetworkSubgraph _) eqn:Hflag; simpl; [left; reflexivity|].
  destruct (Js.findIndex _ allocationDecisions >=? 0) eqn:Hidx; [|left; reflexivity].
  apply Z.geb_le in Hidx. unfold Js.findIndex in *.
  destruct (findIndex_from_found _ allocationDecisions 0 (Z.le_refl 0) Hidx)
    as (n & x & Hn & Hx & Hpx & Hfirst).
  right. exists n, x, nsd. rewrite Hn.
  replace (Z.to_nat (0 + Z.of_nat n)) with n by lia.
  repeat split; try assumption; try reflexivity.
  - apply String.eqb_eq. exact Hpx.
  - intros j e Hj He. apply String.eqb_neq. eapply Hfirst; eassumption.
Qed.

(** C9. The network-subgraph guard never turns a decision's [toAllocate]
    from false to true.  It keeps the list's length and every decision's
    deployment and rule match; a decision it changes is the first one
    whose deployment bytes32 equals that of the network's meta-subgraph,
    this deployment being configured and [allocateOnNetworkSubgraph] being
    false, and is left with [toAllocate = false]; so at most one decision
    per network is changed. *)
Theorem networkSubgraphGuard_frame (network : Network)
        (allocationDecisions : list AllocationDecision) :
  let guarded := networkSubgraphGuard network allocationDecisions in
  length guarded = length allocationDecisions
  /\ (forall (i : nat) (d d' : AllocationDecision),
         allocationDecisions !! i = Some d -> guarded !! i = Some d' ->
         AllocationDecision.deployment d' = AllocationDecision.deployment d
         /\ AllocationDecision.ruleMatch d' = AllocationDecision.ruleMatch d
         /\ (AllocationDecision.toAllocate d = false ->
             AllocationDecision.toAllocate d' = false)
         /\ (d' <> d ->
             AllocationDecision.toAllocate d' = false
             /\ exists nsd : SubgraphDeployment,
                 networkSubgraph_deployment network = Some nsd
                 /\ allocateOnNetworkSubgraph (indexerOptions (specification network))
                    = false
                 /\ bytes32 (AllocationDecision.deployment d)
                    = bytes32 (deployment_id nsd)
                 /\ forall (j : nat) (e : AllocationDecision),
                     (j < i)%nat -> allocationDecisions !! j = Some e ->
                     bytes32 (AllocationDecision.deployment e)
                     <> bytes32 (deployment_id nsd)))
  /\ (forall (i j : nat) (d d' e e' : AllocationDecision),
         allocationDecisions !! i = Some d -> guarded !! i = Some d' -> d' <> d ->
         allocationDecisions !! j = Some e -> guarded !! j = Some e' -> e' <> e ->
         i = j).
Proof.
  intros guarded. unfold guarded.
  destruct (networkSubgraphGuard_cases network allocationDecisions)
    as [Hsame|(n & x & nsd & Hg & Hnsd & Hflag & Hx & Hbytes & Hfirst)].
  - rewrite Hsame. split; [reflexivity|]. split.
    + intros i d d' Hd Hd'. assert (d' = d) by congruence. subst d'.
      repeat split; auto; contradiction.
    + intros i j d d' e e' Hd Hd' Hne. congruence.
  - rewrite Hg. split; [apply length_alter|].
    assert (Hother : forall i d d',
               allocationDecisions !! i = Some d ->
               alter (fun decision => AllocationDecision.setToAllocate decision false)
                     n allocationDecisions !! i = Some d' ->
               d' <> d -> i = n /\ d = x
                          /\ d' = AllocationDecision.setToAllocate x false).
    { intros i d d' Hd Hd' Hne. destruct (decide (n = i)) as [->|Hni].
      - rewrite list_lookup_alter_eq, Hx in Hd'. simpl in Hd'.
        repeat split; congruence.
      - rewrite list_lookup_alter_ne in Hd' by assumption. congruence. }
    split.
    + intros i d d' Hd Hd'.
      destruct (decide (n = i)) as [->|Hni].
      * rewrite list_lookup_alter_eq, Hd in Hd'. simpl in Hd'.
        injection Hd' as <-. assert (d = x) by congruence. subst d.
        repeat split; try reflexivity.
        exists nsd. repeat split; assumption.
      * rewrite list_lookup_alter_ne in Hd' by assumption.
        assert (d' = d) by congruence. subst d'.
        repeat split; auto; contradiction.
    + intros i j d d' e e' Hd Hd' Hne He He' Hne'.
      destruct (Hother i d d' Hd Hd' Hne) as (-> & _).
      destruct (Hother j e e' He He' Hne') as (-> & _). reflexivity.
Qed.

(** * Properties of the expiring allocations *)

(** Scenario S4: an allocation created at epoch 100 with no lifetime set,
    [maxAllocationEpochs = 28], epoch 128, open on chain. *)
Example expired_refresh_scenario :
  let a := Example.allocationOnA "0xa1" 100 None None ACTIVE in
  identifyExpiringAllocations [a] (Example.decisionFor Example.deploymentA true None)
    128 28 (Example.networkFor AUTO [a]) = [a].
Proof. reflexivity. Qed.

(** C7, as stated, fails on a rule whose [allocationLifetime] is set to 0:
    the specified lifetime is 0, so an allocation created at epoch 3 has
    expired at epoch 5, but the code falls back to
    [max(1, maxAllocationEpochs - 1) = 27] and returns nothing. *)
Lemma identifyExpiringAllocations_zero_lifetime :
  let a := Example.allocationOnA "0xa1" 3 None None ACTIVE in
  let d := Example.decisionFor Example.deploymentA true
             (Some (Example.ruleFor Example.hexA DEPLOYMENT ALWAYS (Some 0))) in
  specifiedExpiringAllocations [a] d 5 28 (Example.networkFor AUTO [a]) = [a]
  /\ identifyExpiringAllocations [a] d 5 28 (Example.networkFor AUTO [a]) = [].
Proof. split; reflexivity. Qed.

(** C7, amended.  [identifyExpiringAllocations] returns, in their order,
    exactly the given allocations (the caller passes the active
    allocations of the decision's deployment) whose age has reached the
    desired lifetime and that are still open on chain, an allocation whose
    contract read fails counting as open.  The desired lifetime is the
    rule's [allocationLifetime] when it is set and not 0, and
    [max(1, maxAllocationEpochs - 1)] otherwise. *)
Theorem identifyExpiringAllocations_spec (activeAllocations : list Allocation)
        (decision : AllocationDecision) (epoch maxAllocationEpochs : Z)
        (network : Network) :
  let lifetime :=
    match rule (AllocationDecision.ruleMatch decision) with
    | Some r => IndexingRule.allocationLifetime r
    | None => None
    end in
  let desiredLifetime :=
    match lifetime with
    | Some n => if n =? 0 then Z.max 1 (maxAllocationEpochs - 1) else n
    | None => Z.max 1 (maxAllocationEpochs - 1)
    end in
  let expiring :=
    identifyExpiringAllocations activeAllocations decision epoch maxAllocationEpochs
      network in
  expiring
  = List.filter
      (fun allocation =>
         (Allocation.createdAtEpoch allocation + desiredLifetime <=? epoch)
         && match staking_getAllocation network (Allocation.id allocation) with
            | Ok onChain => onChain_closedAtEpoch onChain =? 0
            | Throw => true
            end)
      activeAllocations
  /\ forall allocation : Allocation,
      In allocation expiring
      <-> In allocation activeAllocations
          /\ Allocation.createdAtEpoch allocation + desiredLifetime <= epoch
          /\ (staking_getAllocation network (Allocation.id allocation) = Throw
              \/ exists onChain : OnChainAllocation,
                  staking_getAllocation network (Allocation.id allocation) = Ok onChain
                  /\ onChain_closedAtEpoch onChain = 0).
Proof.
  intros lifetime desiredLifetime expiring.
  assert (Hdesired : desiredAllocationLifetime decision maxAllocationEpochs
                     = desiredLifetime).
  { unfold desiredAllocationLifetime, desiredLifetime, lifetime, truthyNumber.
    destruct (rule (AllocationDecision.ruleMatch decision)) as [r|]; [|reflexivity].
    destruct (IndexingRule.allocationLifetime r) as [n|]; [|reflexivity].
    destruct (n =? 0); reflexivity. }
  assert (Heq : expiring
                = List.filter
                    (fun allocation =>
                       (Allocation.createdAtEpoch allocation + desiredLifetime <=? epoch)
                       && openOnChain network allocation)
                    activeAllocations).
  { unfold expiring, identifyExpiringAllocations. rewrite Hdesired.
    induction activeAllocations as [|a l IH]; simpl; [reflexivity|].
    rewrite Z.geb_leb.
    destruct (Allocation.createdAtEpoch a + desiredLifetime <=? epoch); simpl.
    - destruct (openOnChain network a); rewrite IH; reflexivity.
    - exact IH. }
  split; [exact Heq|].
  intros allocation. rewrite Heq, filter_In, andb_true_iff, Z.leb_le.
  unfold openOnChain.
  destruct (staking_getAllocation network (Allocation.id allocation)) as [onChain|].
  - rewrite Z.eqb_eq. split.
    + intros (H1 & H2 & H3). repeat split; try assumption.
      right. exists onChain. split; [reflexivity | exact H3].
    + intros (H1 & H2 & [H3|(oc & H3 & H4)]); [discriminate|].
      injection H3 as ->. tauto.
  - split.
    + intros (H1 & H2 & _). repeat split; try assumption. left; reflexivity.
    + intros (H1 & H2 & _). tauto.
Qed.

(** * Properties of the dispute identifier *)

Lemma looseEq_eq (a b : option string) : Js.looseEq a b = true <-> a = b.
Proof.
  destruct a as [x|], b as [y|]; simpl; try (split; [discriminate | congruence]).
  - rewrite String.eqb_eq. split; congruence.
  - tauto.
Qed.

Lemma falsy_missing (r : option string) :
  Js.falsy r = true <-> r = None \/ r = Some ""%string.
Proof.
  destruct r as [s|]; simpl.
  - rewrite String.eqb_eq. split; [intros ->; auto | intros [H|H]; congruence].
  - split; auto.
Qed.

(** The status computed against a rewards pool: valid when the POI equals
    one of the two reference POIs; otherwise reference_unavailable when a
    reference POI is missing (absent or empty), and potential when both
    are there. *)
Lemma disputeStatus_classification (rewardsPool : RewardsPool) (allocation : Allocation) :
  let poi := Allocation.poi allocation in
  let reference := RewardsPool.referencePOI rewardsPool in
  let referencePrevious := RewardsPool.referencePreviousPOI rewardsPool in
  let matches := reference = poi \/ referencePrevious = poi in
  let missing :=
    (reference = None \/ reference = Some ""%string)
    \/ (referencePrevious = None \/ referencePrevious = Some ""%string) in
  (disputeStatus rewardsPool allocation = valid <-> matches)
  /\ (disputeStatus rewardsPool allocation = reference_unavailable
      <-> ~ matches /\ missing)
  /\ (disputeStatus rewardsPool allocation = potential <-> ~ matches /\ ~ missing).
Proof.
  intros poi reference referencePrevious matches missing.
  assert (Hm : Js.looseEq reference poi || Js.looseEq referencePrevious poi = true
               <-> matches).
  { rewrite orb_true_iff, !looseEq_eq. reflexivity. }
  assert (Hf : Js.falsy reference || Js.falsy referencePrevious = true <-> missing).
  { rewrite orb_true_iff, !falsy_missing. reflexivity. }
  unfold disputeStatus. fold poi reference referencePrevious.
  destruct (Js.looseEq reference poi || Js.looseEq referencePrevious poi) eqn:Em.
  - assert (Hyes : matches) by (apply Hm; reflexivity).
    simpl. split; [tauto|]. split; (split; [discriminate | tauto]).
  - assert (Hno : ~ matches) by (intros H; apply Hm in H; discriminate).
    destruct (Js.falsy reference || Js.falsy referencePrevious) eqn:Ef; simpl.
    + assert (Hmiss : missing) by (apply Hf; reflexivity).
      split; [split; [discriminate | tauto]|].
      split; [tauto|]. split; [discriminate | tauto].
    + assert (Hthere : ~ missing) by (intros H; apply Hf in H; discriminate).
      split; [split; [discriminate | tauto]|].
      split; [split; [discriminate | tauto]|]. tauto.
Qed.

Lemma mapR_Forall2 {A B : Type} (f : A -> Result B) (l : list A) (ys : list B) :
  mapR f l = Ok ys -> Forall2 (fun x y => f x = Ok y) l ys.
Proof.
  revert ys. induction l as [|x l IH]; simpl; intros ys H.
  - injection H as <-. constructor.
  - destruct (f x) as [y|] eqn:Hy; simpl in H; [|discriminate].
    destruct (mapR f l) as [ys'|]; simpl in H; [|discriminate].
    injection H as <-. constructor; auto.
Qed.

(** What a run that stores has computed on the way. *)
Lemma identifyPotentialDisputes_stored
      (proofOfIndexing : SubgraphDeploymentID -> Block -> string -> Result (option string))
      (operator : Operator) (network : Network) (store : list POIDisputeAttributes)
      (disputableAllocations : list Allocation) (disputableEpoch : Z)
      (disputes store' : list POIDisputeAttributes) :
  identifyPotentialDisputes proofOfIndexing operator network store
    disputableAllocations disputableEpoch = Ok (Stored disputes store') ->
  let new := newDisputableAllocations operator store disputableAllocations
               disputableEpoch in
  exists pools : list RewardsPool,
    uniqueRewardsPools proofOfIndexing network new = Ok pools
    /\ Forall2 (fun allocation dispute => makeDispute network pools allocation = Ok dispute)
               new disputes
    /\ store' = storePoiDisputes store disputes.
Proof.
  intros H new. unfold identifyPotentialDisputes in H. fold new in H.
  destruct (length new =? 0)%nat; [discriminate|].
  destruct (uniqueRewardsPools proofOfIndexing network new) as [pools|]; simpl in H;
    [|discriminate].
  destruct (mapR (makeDispute network pools) new) as [ds|] eqn:Hds; simpl in H;
    [|discriminate].
  injection H as <- <-. exists pools. repeat split.
  apply mapR_Forall2. exact Hds.
Qed.

(** C4. Every dispute that [identifyPotentialDisputes] stores for a new
    disputable allocation is classified against the rewards pool found for
    the allocation: valid exactly when the allocation's POI equals the
    pool's [referencePOI] or [referencePreviousPOI]; reference_unavailable
    exactly when it would otherwise be potential and one of the two
    reference POIs is missing (absent or empty); potential otherwise. *)
Theorem stored_status_classification
      (proofOfIndexing : SubgraphDeploymentID -> Block -> string -> Result (option string))
      (operator : Operator) (network : Network) (store : list POIDisputeAttributes)
      (disputableAllocations : list Allocation) (disputableEpoch : Z)
      (disputes store' : list POIDisputeAttributes) :
  identifyPotentialDisputes proofOfIndexing operator network store
    disputableAllocations disputableEpoch = Ok (Stored disputes store') ->
  exists pools : list RewardsPool,
    uniqueRewardsPools proofOfIndexing network
      (newDisputableAllocations operator store disputableAllocations disputableEpoch)
    = Ok pools
    /\ Forall2
         (fun allocation dispute =>
            POIDispute.allocationID dispute = Allocation.id allocation
            /\ exists pool : RewardsPool,
                findRewardsPool pools allocation = Some pool
                /\ let poi := Allocation.poi allocation in
                   let reference := RewardsPool.referencePOI pool in
                   let referencePrevious := RewardsPool.referencePreviousPOI pool in
                   let matches := reference = poi \/ referencePrevious = poi in
                   let missing :=
                     (reference = None \/ reference = Some ""%string)
                     \/ (referencePrevious = None
                         \/ referencePrevious = Some ""%string) in
                   (POIDispute.status dispute = valid <-> matches)
                   /\ (POIDispute.status dispute = reference_unavailable
                       <-> ~ matches /\ missing)
                   /\ (POIDispute.status dispute = potential
                       <-> ~ matches /\ ~ missing))
         (newDisputableAllocations operator store disputableAllocations disputableEpoch)
         disputes.
Proof.
  intros H. apply identifyPotentialDisputes_stored in H as (pools & Hpools & Hds & _).
  exists pools. split; [exact Hpools|].
  eapply Forall2_impl; [exact Hds|].
  intros allocation dispute Hmake. unfold makeDispute in Hmake.
  destruct (findRewardsPool pools allocation) as [pool|]; [|discriminate].
  injection Hmake as <-. simpl. split; [reflexivity|].
  exists pool. split; [reflexivity|].
  apply disputeStatus_classification.
Qed.

(** Scenario S5: the allocation's POI equals the reference POI at the
    previous epoch's start block, and the dispute is stored as valid. *)
Lemma stored_status_classification_witness :
  let pools :=
    [ {| RewardsPool.subgraphDeployment := Example.deploymentA;
         RewardsPool.allocationIndexer := Example.indexerAddress;
         RewardsPool.closedAtEpoch := Some 10;
         RewardsPool.closedAtEpochStartBlockHash := Some "0xc105ed"%string;
         RewardsPool.closedAtEpochStartBlockNumber := Some 100;
         RewardsPool.previousEpochStartBlockHash := Some "0x94e710"%string;
         RewardsPool.previousEpochStartBlockNumber := Some 100;
         RewardsPool.referencePOI := Some "0xbeef"%string;
         RewardsPool.referencePreviousPOI := Some "0xfeed"%string |} ] in
  let dispute :=
    Example.disputeOf (Some "0xbeef"%string) (Some "0xfeed"%string) valid in
  exists pools' : list RewardsPool,
    Ok pools = Ok pools'
    /\ Forall2
         (fun allocation dispute =>
            POIDispute.allocationID dispute = Allocation.id allocation
            /\ exists pool : RewardsPool,
                findRewardsPool pools' allocation = Some pool
                /\ let poi := Allocation.poi allocation in
                   let reference := RewardsPool.referencePOI pool in
                   let referencePrevious := RewardsPool.referencePreviousPOI pool in
                   let matches := reference = poi \/ referencePrevious = poi in
                   let missing :=
                     (reference = None \/ reference = Some ""%string)
                     \/ (referencePrevious = None
                         \/ referencePrevious = Some ""%string) in
                   (POIDispute.status dispute = valid <-> matches)
                   /\ (POIDispute.status dispute = reference_unavailable
                       <-> ~ matches /\ missing)
                   /\ (POIDispute.status dispute = potential
                       <-> ~ matches /\ ~ missing))
         [Example.closedAllocation] [dispute].
Proof.
  intros pools dispute.
  exact (stored_status_classification Example.proofOfIndexing (Example.operatorFor AUTO)
           (Example.networkFor AUTO []) [] [Example.closedAllocation] 9
           [dispute] [dispute] eq_refl).
Defined.

Lemma fetchPOIDisputes_In (store : list POIDisputeAttributes) (status : DisputeStatus)
      (epochThreshold : Z) (networkIdentifier : string) (e : POIDisputeAttributes) :
  In e (fetchPOIDisputes store status epochThreshold networkIdentifier)
  <-> In e store
      /\ POIDispute.status e = status
      /\ (exists c : Z, POIDispute.closedEpoch e = Some c /\ epochThreshold <= c)
      /\ POIDispute.protocolNetwork e = networkIdentifier.
Proof.
  unfold fetchPOIDisputes. rewrite filter_In, !andb_true_iff, String.eqb_eq.
  assert (Hs : disputeStatus_eqb (POIDispute.status e) status = true
               <-> POIDispute.status e = status).
  { destruct (POIDispute.status e), status; simpl; split; congruence. }
  assert (Hc : match POIDispute.closedEpoch e with
               | Some c => epochThreshold <=? c
               | None => false
               end = true
               <-> exists c : Z, POIDispute.closedEpoch e = Some c /\ epochThreshold <= c).
  { destruct (POIDispute.closedEpoch e) as [c|].
    - rewrite Z.leb_le. split; [eauto | intros (c' & Hc' & Hle); congruence].
    - split; [discriminate | intros (c' & Hc' & _); discriminate]. }
  rewrite Hs, Hc. tauto.
Qed.

Lemma storePoiDisputes_incl (disputes store : list POIDisputeAttributes)
      (e : POIDisputeAttributes) :
  In e store -> In e (storePoiDisputes store disputes).
Proof.
  unfold storePoiDisputes. revert store.
  induction disputes as [|d ds IH]; simpl; intros store H; [exact H|].
  apply IH. unfold storePoiDispute.
  destruct (existsb _ store); [exact H | apply in_or_app; left; exact H].
Qed.

Lemma storePoiDisputes_keyed (disputes store : list POIDisputeAttributes)
      (d : POIDisputeAttributes) :
  In d disputes ->
  exists e : POIDisputeAttributes,
    In e (storePoiDisputes store disputes)
    /\ sameDisputeKey d e = true
    /\ (In e store \/ In e disputes).
Proof.
  unfold storePoiDisputes. revert store.
  induction disputes as [|x ds IH]; simpl; intros store H; [contradiction|].
  destruct H as [->|H].
  - unfold storePoiDispute at 2.
    destruct (existsb (sameDisputeKey d) store) eqn:E.
    + apply existsb_exists in E as (e & He & Hk).
      exists e. split; [apply (storePoiDisputes_incl ds); exact He | auto].
    + exists d. split.
      * apply (storePoiDisputes_incl ds). apply in_or_app. right. left. reflexivity.
      * split; [|auto]. unfold sameDisputeKey. rewrite !String.eqb_refl. reflexivity.
  - destruct (IH (storePoiDispute store x) H) as (e & He & Hk & Hfrom).
    exists e. split; [exact He|]. split; [exact Hk|].
    destruct Hfrom as [Hfrom|Hfrom]; [|auto].
    unfold storePoiDispute in Hfrom.
    destruct (existsb (sameDisputeKey x) store); [auto|].
    apply in_app_or in Hfrom as [Hfrom|[<-|[]]]; auto.
Qed.

Lemma newDisputableAllocations_In (operator : Operator)
      (store : list POIDisputeAttributes) (disputableAllocations : list Allocation)
      (disputableEpoch : Z) (a : Allocation) :
  In a (newDisputableAllocations operator store disputableAllocations disputableEpoch)
  <-> In a disputableAllocations
      /\ forall e : POIDisputeAttributes,
          In e store ->
          POIDispute.status e = potential \/ POIDispute.status e = valid ->
          (exists c : Z, POIDispute.closedEpoch e = Some c /\ disputableEpoch <= c) ->
          POIDispute.protocolNetwork e
          = networkIdentifier (operator_specification operator) ->
          POIDispute.allocationID e <> Allocation.id a.
Proof.
  unfold newDisputableAllocations. rewrite filter_In, negb_true_iff.
  apply and_iff_compat_l.
  destruct (find _ _) as [e|] eqn:E.
  - apply find_some in E as [Hin Hid]. apply String.eqb_eq in Hid.
    split; [discriminate|]. intros H. exfalso.
    apply in_app_or in Hin as [Hin|Hin];
      apply fetchPOIDisputes_In in Hin as (Hs & Hst & Hc & Hn);
      apply (H e); auto.
  - split; [|reflexivity]. intros _ e Hin Hst Hc Hn Hid.
    assert (Hfetched : In e (fetchPOIDisputes store potential disputableEpoch
                               (networkIdentifier (operator_specification operator))
                             ++ fetchPOIDisputes store valid disputableEpoch
                                  (networkIdentifier (operator_specification operator)))).
    { apply in_or_app. destruct Hst as [Hst|Hst]; [left | right];
        apply fetchPOIDisputes_In; auto. }
    apply (find_none _ _ E) in Hfetched.
    apply String.eqb_neq in Hfetched. contradiction.
Qed.

Lemma Forall2_In_left {A B : Type} (P : A -> B -> Prop) (l : list A) (l' : list B)
      (x : A) :
  Forall2 P l l' -> In x l -> exists y : B, In y l' /\ P x y.
Proof.
  induction 1 as [|a b l l' Hab _ IH]; simpl; [contradiction|].
  intros [<-|H]; [exists b; auto|].
  destruct (IH H) as (y & Hy & Hxy). exists y; auto.
Qed.

Lemma Forall2_In_right {A B : Type} (P : A -> B -> Prop) (l : list A) (l' : list B)
      (y : B) :
  Forall2 P l l' -> In y l' -> exists x : A, In x l /\ P x y.
Proof.
  induction 1 as [|a b l l' Hab _ IH]; simpl; [contradiction|].
  intros [<-|H]; [exists a; auto|].
  destruct (IH H) as (x & Hx & Hxy). exists x; auto.
Qed.

Lemma newDisputableAllocations_cases (operator : Operator)
      (store : list POIDisputeAttributes) (disputableAllocations : list Allocation)
      (disputableEpoch : Z) (a : Allocation) :
  In a disputableAllocations ->
  In a (newDisputableAllocations operator store disputableAllocations disputableEpoch)
  \/ exists e : POIDisputeAttributes,
      In e store
      /\ (POIDispute.status e = potential \/ POIDispute.status e = valid)
      /\ (exists c : Z, POIDispute.closedEpoch e = Some c /\ disputableEpoch <= c)
      /\ POIDispute.protocolNetwork e
         = networkIdentifier (operator_specification operator)
      /\ POIDispute.allocationID e = Allocation.id a.
Proof.
  intros Hin. unfold newDisputableAllocations. rewrite filter_In.
  destruct (find _ _) as [e|] eqn:E; [right | left; auto].
  apply find_some in E as [He Hid]. apply String.eqb_eq in Hid.
  exists e. apply in_app_or in He as [He|He];
    apply fetchPOIDisputes_In in He as (Hs & Hst & Hc & Hn); auto 10.
Qed.

(** C5, as stated, fails when the graph node has no reference POI: the
    allocation is stored as reference_unavailable, the second run (same
    allocations, same epoch, the store left by the first run) does not
    load it as already processed, finds it new and stores again. *)
Lemma reference_unavailable_is_stored_again :
  let d := Example.disputeOf None None reference_unavailable in
  identifyPotentialDisputes Example.noProofOfIndexing (Example.operatorFor AUTO)
    (Example.networkFor AUTO []) [] [Example.closedAllocation] 9
  = Ok (Stored [d] [d])
  /\ identifyPotentialDisputes Example.noProofOfIndexing (Example.operatorFor AUTO)
       (Example.networkFor AUTO []) [d] [Example.closedAllocation] 9
     = Ok (Stored [d] [d]).
Proof. split; reflexivity. Qed.

(** C5, amended.  A second run of [identifyPotentialDisputes] with the same
    disputable allocations and disputable epoch, on the dispute store left
    by the first run, finds no new disputable allocation and stores
    nothing, provided that the first run classified every new allocation
    as potential or valid, that every disputable allocation was closed at
    or after the disputable epoch, and that the store held no earlier
    entry for the allocations the first run found new.  (The operator and
    the network are a pair of one protocol network.) *)
Theorem identifyPotentialDisputes_idempotent
      (proofOfIndexing : SubgraphDeploymentID -> Block -> string -> Result (option string))
      (operator : Operator) (network : Network) (store : list POIDisputeAttributes)
      (disputableAllocations : list Allocation) (disputableEpoch : Z)
      (disputes store' : list POIDisputeAttributes) :
  networkIdentifier (operator_specification operator)
  = networkIdentifier (specification network) ->
  identifyPotentialDisputes proofOfIndexing operator network store
    disputableAllocations disputableEpoch = Ok (Stored disputes store') ->
  Forall (fun dispute => POIDispute.status dispute <> reference_unavailable) disputes ->
  Forall (fun allocation =>
            exists c : Z, Allocation.closedAtEpoch allocation = Some c
                          /\ disputableEpoch <= c)
         disputableAllocations ->
  (forall (allocation : Allocation) (old : POIDisputeAttributes),
      In allocation
         (newDisputableAllocations operator store disputableAllocations disputableEpoch) ->
      In old store ->
      POIDispute.allocationID old = Allocation.id allocation ->
      POIDispute.protocolNetwork old <> networkIdentifier (specification network)) ->
  identifyPotentialDisputes proofOfIndexing operator network store'
    disputableAllocations disputableEpoch = Ok NoNewDisputableAllocations.
Proof.
  intros Hpair Hrun Hstatus Hclosed Hfresh.
  apply identifyPotentialDisputes_stored in Hrun as (pools & _ & Hds & ->).
  assert (Hnone : newDisputableAllocations operator (storePoiDisputes store disputes)
                    disputableAllocations disputableEpoch = []).
  { destruct (newDisputableAllocations operator (storePoiDisputes store disputes)
                disputableAllocations disputableEpoch) as [|a rest] eqn:Hnew;
      [reflexivity|]. exfalso.
    assert (Ha : In a (newDisputableAllocations operator (storePoiDisputes store disputes)
                         disputableAllocations disputableEpoch))
      by (rewrite Hnew; left; reflexivity).
    clear Hnew. apply newDisputableAllocations_In in Ha as [Hin Hnot].
    destruct (newDisputableAllocations_cases operator store disputableAllocations
                disputableEpoch a Hin)
      as [Hwasnew|(e & He & Hst & Hc & Hn & Hid)].
    - (* new in the first run: the entry stored for it is loaded now *)
      destruct (Forall2_In_left _ _ _ _ Hds Hwasnew) as (d & Hd & Hmake).
      destruct (storePoiDisputes_keyed disputes store d Hd) as (e & He & Hkey & Hfrom).
      unfold sameDisputeKey in Hkey. apply andb_true_iff in Hkey as [Hid Hnet].
      apply String.eqb_eq in Hid, Hnet.
      unfold makeDispute in Hmake.
      destruct (findRewardsPool pools a) as [pool|]; [|discriminate].
      injection Hmake as <-. simpl in Hid, Hnet.
      destruct Hfrom as [Hfrom|Hfrom].
      + apply (Hfresh a e Hwasnew Hfrom); congruence.
      + rewrite List.Forall_forall in Hstatus. specialize (Hstatus e Hfrom).
        destruct (Forall2_In_right _ _ _ _ Hds Hfrom) as (a' & Ha' & Hmake').
        unfold makeDispute in Hmake'.
        destruct (findRewardsPool pools a') as [pool'|]; [|discriminate].
        apply newDisputableAllocations_In in Ha' as [Hin' _].
        rewrite List.Forall_forall in Hclosed. destruct (Hclosed a' Hin') as (c & Hc & Hle).
        apply (Hnot e He).
        * destruct (POIDispute.status e); auto. contradiction.
        * exists c. split; [|exact Hle]. injection Hmake' as <-. exact Hc.
        * congruence.
        * congruence.
    - (* already processed before the first run: its entry is still there *)
      apply (Hnot e); auto. apply storePoiDisputes_incl. exact He. }
  unfold identifyPotentialDisputes. rewrite Hnone. reflexivity.
Qed.

(** A run on an empty store with the reference POIs at hand stores the
    allocation as valid; the second run finds nothing new. *)
Lemma identifyPotentialDisputes_idempotent_witness :
  let d := Example.disputeOf (Some "0xbeef"%string) (Some "0xfeed"%string) valid in
  identifyPotentialDisputes Example.proofOfIndexing (Example.operatorFor AUTO)
    (Example.networkFor AUTO []) [d] [Example.closedAllocation] 9
  = Ok NoNewDisputableAllocations.
Proof.
  intros d.
  apply (identifyPotentialDisputes_idempotent Example.proofOfIndexing
           (Example.operatorFor AUTO) (Example.networkFor AUTO []) []
           [Example.closedAllocation] 9 [d] [d]).
  - reflexivity.
  - reflexivity.
  - constructor; [discriminate | constructor].
  - constructor; [|constructor]. exists 10. split; [reflexivity | lia].
  - intros allocation old _ [].
Defined.

(** * Properties of the rule normalizer *)

Section RuleNormalizerFacts.

Variable decodeDeploymentID : string -> option (string * string).
Variable subgraphs : list Subgraph.
Variable previousVersionBuffer : Z.
Variable dateNow : Z.

Let targets := ruleTargets decodeDeploymentID.

Lemma identifierType_eqb_eq (a b : SubgraphIdentifierType) :
  identifierType_eqb a b = true <-> a = b.
Proof. destruct a, b; simpl; split; congruence. Qed.

Lemma deploymentRuleInList_true (l : list IndexingRuleAttributes)
      (d : SubgraphDeploymentID) :
  deploymentRuleInList decodeDeploymentID l d = Ok true ->
  exists r : IndexingRuleAttributes, In r l /\ targets r d.
Proof.
  induction l as [|x l IH]; simpl; [discriminate|].
  destruct (identifierType_eqb (IndexingRule.identifierType x) DEPLOYMENT) eqn:Ety.
  - unfold newSubgraphDeploymentID.
    destruct (decodeDeploymentID (IndexingRule.identifier x)) as [[hex ipfs]|] eqn:Edec;
      simpl; [|discriminate].
    destruct (String.eqb hex (toString d)) eqn:Ehex.
    + intros _. exists x. split; [left; reflexivity|].
      apply String.eqb_eq in Ehex. subst hex.
      unfold targets, ruleTargets, ruleTarget. rewrite Ety, Edec. reflexivity.
    + intros H. destruct (IH H) as (r & Hr & Ht). exists r. auto.
  - intros H. destruct (IH H) as (r & Hr & Ht). exists r. auto.
Qed.

Lemma deploymentRuleInList_false (l : list IndexingRuleAttributes)
      (d : SubgraphDeploymentID) :
  deploymentRuleInList decodeDeploymentID l d = Ok false ->
  forall r : IndexingRuleAttributes, In r l -> ~ targets r d.
Proof.
  induction l as [|x l IH]; simpl; [intros _ r []|].
  destruct (identifierType_eqb (IndexingRule.identifierType x) DEPLOYMENT) eqn:Ety.
  - unfold newSubgraphDeploymentID.
    destruct (decodeDeploymentID (IndexingRule.identifier x)) as [[hex ipfs]|] eqn:Edec;
      simpl; [|discriminate].
    destruct (String.eqb hex (toString d)) eqn:Ehex; [discriminate|].
    intros H r [<-|Hr]; [|apply IH; assumption].
    unfold targets, ruleTargets, ruleTarget. rewrite Ety, Edec. simpl.
    intros Hdec. injection Hdec as ->.
    rewrite String.eqb_refl in Ehex. discriminate.
  - intros H r [<-|Hr]; [|apply IH; assumption].
    unfold targets, ruleTargets, ruleTarget. rewrite Ety. discriminate.
Qed.

Lemma retarget_same (r : IndexingRuleAttributes) :
  IndexingRule.retarget r (IndexingRule.identifier r) (IndexingRule.identifierType r) = r.
Proof. destruct r; reflexivity. Qed.

Lemma retarget_retarget (r : IndexingRuleAttributes) (i j : string)
      (s t : SubgraphIdentifierType) :
  IndexingRule.retarget (IndexingRule.retarget r i s) j t = IndexingRule.retarget r j t.
Proof. reflexivity. Qed.

(** What the callback does to a rule that is not subgraph-typed, and how
    far it can change any rule. *)
Lemma convertRule_frame (done : list IndexingRuleAttributes)
      (rule : IndexingRuleAttributes) (rest : list IndexingRuleAttributes)
      (rule' : IndexingRuleAttributes) (copies : list IndexingRuleAttributes) :
  convertRule decodeDeploymentID subgraphs previousVersionBuffer dateNow done rule rest
  = Ok (rule', copies) ->
  (IndexingRule.identifierType rule <> SUBGRAPH -> rule' = rule /\ copies = [])
  /\ rule' = IndexingRule.retarget rule (IndexingRule.identifier rule')
                                   (IndexingRule.identifierType rule')
  /\ forall copy : IndexingRuleAttributes,
      In copy copies ->
      copy = IndexingRule.retarget rule (IndexingRule.identifier copy) DEPLOYMENT.
Proof.
  unfold convertRule.
  destruct (identifierType_eqb (IndexingRule.identifierType rule) SUBGRAPH) eqn:Ety; simpl.
  - assert (Hkeep : forall r c,
               Ok (rule, @nil IndexingRuleAttributes) = Ok (r, c) ->
               (IndexingRule.identifierType rule <> SUBGRAPH -> r = rule /\ c = [])
               /\ r = IndexingRule.retarget rule (IndexingRule.identifier r)
                                            (IndexingRule.identifierType r)
               /\ forall copy, In copy c ->
                   copy = IndexingRule.retarget rule (IndexingRule.identifier copy)
                                                DEPLOYMENT).
    { intros r c H. injection H as <- <-.
      split; [intros _; split; reflexivity|].
      split; [symmetry; apply retarget_same | intros copy []]. }
    apply identifierType_eqb_eq in Ety.
    destruct (find _ subgraphs) as [sg|]; [|apply Hkeep].
    destruct (find _ (Subgraph.versions sg)) as [latest|]; [|apply Hkeep].
    destruct (deploymentRuleInList _ _ _) as [targeted|]; simpl; [|discriminate].
    set (r1 := if negb targeted then _ else rule).
    assert (Hr1 : r1 = IndexingRule.retarget rule (IndexingRule.identifier r1)
                                            (IndexingRule.identifierType r1)).
    { unfold r1. destruct targeted; simpl; auto using eq_sym, retarget_same. }
    assert (Hkeep1 : forall r c,
               Ok (r1, @nil IndexingRuleAttributes) = Ok (r, c) ->
               (IndexingRule.identifierType rule <> SUBGRAPH -> r = rule /\ c = [])
               /\ r = IndexingRule.retarget rule (IndexingRule.identifier r)
                                            (IndexingRule.identifierType r)
               /\ forall copy, In copy c ->
                   copy = IndexingRule.retarget rule (IndexingRule.identifier copy)
                                                DEPLOYMENT).
    { intros r c H. injection H as <- <-.
      split; [intros Hne; contradiction|].
      split; [exact Hr1 | intros copy []]. }
    destruct (_ >? _); [|apply Hkeep1].
    destruct (find _ (Subgraph.versions sg)) as [previous|]; [|apply Hkeep1].
    destruct (deploymentRuleInList _ _ _) as [targeted'|]; simpl; [|discriminate].
    destruct targeted'; simpl; [apply Hkeep1|].
    intros H. injection H as <- <-.
    split; [intros Hne; contradiction|].
    split; [exact Hr1|].
    intros copy [<-|[]]. rewrite Hr1 at 1. reflexivity.
  - intros H. injection H as <- <-.
    split; [intros _; split; reflexivity|].
    split; [symmetry; apply retarget_same | intros copy []].
Qed.

(** What the callback does to a subgraph-typed rule whose subgraph and
    latest version are found. *)
Lemma convertRule_found (done : list IndexingRuleAttributes)
      (rule : IndexingRuleAttributes) (rest : list IndexingRuleAttributes)
      (rule' : IndexingRuleAttributes) (copies : list IndexingRuleAttributes)
      (sg : Subgraph) (latest : Subgraph.Version) :
  convertRule decodeDeploymentID subgraphs previousVersionBuffer dateNow done rule rest
  = Ok (rule', copies) ->
  IndexingRule.identifierType rule = SUBGRAPH ->
  find (fun subgraph => String.eqb (Subgraph.id subgraph) (IndexingRule.identifier rule))
       subgraphs = Some sg ->
  find (fun version => Subgraph.version version =? Subgraph.versionCount sg - 1)
       (Subgraph.versions sg) = Some latest ->
  exists targeted : bool,
    deploymentRuleInList decodeDeploymentID (done ++ rule :: rest)
      (Subgraph.deployment latest) = Ok targeted
    /\ rule' = (if targeted then rule
                else IndexingRule.retarget rule (toString (Subgraph.deployment latest))
                                           DEPLOYMENT)
    /\ ((Subgraph.createdAt latest > dateNow / 1000 - previousVersionBuffer
         /\ exists previous : Subgraph.Version,
             find (fun version =>
                     Subgraph.version version =? Subgraph.versionCount sg - 1 - 1)
                  (Subgraph.versions sg) = Some previous
             /\ deploymentRuleInList decodeDeploymentID (done ++ rule' :: rest)
                  (Subgraph.deployment previous) = Ok false
             /\ copies = [IndexingRule.retarget rule'
                            (toString (Subgraph.deployment previous)) DEPLOYMENT])
        \/ (copies = []
            /\ (Subgraph.createdAt latest <= dateNow / 1000 - previousVersionBuffer
                \/ find (fun version =>
                           Subgraph.version version =? Subgraph.versionCount sg - 1 - 1)
                        (Subgraph.versions sg) = None
                \/ exists previous : Subgraph.Version,
                    find (fun version =>
                            Subgraph.version version =? Subgraph.versionCount sg - 1 - 1)
                         (Subgraph.versions sg) = Some previous
                    /\ deploymentRuleInList decodeDeploymentID (done ++ rule' :: rest)
                         (Subgraph.deployment previous) = Ok true))).
Proof.
  unfold convertRule. intros H Hty Hsg Hlatest.
  rewrite Hty in H. simpl in H. rewrite Hsg, Hlatest in H.
  destruct (deploymentRuleInList decodeDeploymentID (done ++ rule :: rest)
              (Subgraph.deployment latest)) as [targeted|]; simpl in H; [|discriminate].
  exists targeted. split; [reflexivity|].
  set (r1 := if negb targeted then _ else rule) in H.
  assert (Hr1 : r1 = (if targeted then rule
                      else IndexingRule.retarget rule
                             (toString (Subgraph.deployment latest)) DEPLOYMENT))
    by (unfold r1; destruct targeted; reflexivity).
  clearbody r1.
  destruct (Subgraph.createdAt latest >? dateNow / 1000 - previousVersionBuffer) eqn:Ets.
  - apply Z.gtb_lt in Ets.
    destruct (find _ (Subgraph.versions sg)) as [previous|] eqn:Eprev.
    + destruct (deploymentRuleInList decodeDeploymentID (done ++ r1 :: rest)
                  (Subgraph.deployment previous)) as [targeted'|] eqn:Et';
        simpl in H; [|discriminate].
      destruct targeted'; simpl in H; injection H as <- <-.
      * split; [exact Hr1|]. right. split; [reflexivity|]. right. right.
        exists previous. auto.
      * split; [exact Hr1|]. left. split; [lia|]. exists previous. auto.
    + injection H as <- <-. split; [exact Hr1|]. right. auto.
  - injection H as <- <-. split; [exact Hr1|]. right. split; [reflexivity|].
    left.
    destruct (Z.gtb_spec (Subgraph.createdAt latest)
                (dateNow / 1000 - previousVersionBuffer)); [discriminate | lia].
Qed.

(** The loop, unrolled: the rules left in the array, the copies pushed
    for each rule, and the array as each rule saw it. *)
Lemma convertLoop_steps (pending done toAdd out added : list IndexingRuleAttributes) :
  convertLoop decodeDeploymentID subgraphs previousVersionBuffer dateNow done pending toAdd
  = Ok (out, added) ->
  exists (rules' : list IndexingRuleAttributes)
         (copies : list (list IndexingRuleAttributes)),
    out = done ++ rules' /\ added = toAdd ++ concat copies
    /\ length rules' = length pending /\ length copies = length pending
    /\ forall (i : nat) (rule : IndexingRuleAttributes),
        pending !! i = Some rule ->
        exists (rule' : IndexingRuleAttributes) (cs : list IndexingRuleAttributes),
          rules' !! i = Some rule' /\ copies !! i = Some cs
          /\ convertRule decodeDeploymentID subgraphs previousVersionBuffer dateNow
               (done ++ take i rules') rule (drop (S i) pending) = Ok (rule', cs).
Proof.
  revert done toAdd. induction pending as [|rule rest IH]; simpl; intros done toAdd H.
  - injection H as <- <-. exists [], []. simpl. rewrite !app_nil_r.
    repeat split; auto. intros i rule Hi. rewrite lookup_nil in Hi. discriminate.
  - destruct (convertRule decodeDeploymentID subgraphs previousVersionBuffer dateNow
                done rule rest) as [[r' cs]|] eqn:Hstep; simpl in H; [|discriminate].
    destruct (IH _ _ H) as (rules' & copies & -> & -> & Hlen & Hlen' & Hall).
    exists (r' :: rules'), (cs :: copies). simpl.
    rewrite <- !app_assoc. simpl.
    repeat split; auto.
    intros [|i] rule0 Hi; simpl in Hi.
    + injection Hi as <-. exists r', cs. simpl. rewrite app_nil_r. auto.
    + destruct (Hall i rule0 Hi) as (rule' & cs' & H1 & H2 & H3).
      exists rule', cs'. simpl. rewrite <- app_assoc in H3. simpl in H3. auto.
Qed.

(** Visiting a rule keeps the targets of the deployment rules of the array
    pairwise distinct, when the deployment strings of the subgraph
    versions decode to themselves. *)
Lemma convertRule_distinct (done : list IndexingRuleAttributes)
      (rule : IndexingRuleAttributes) (rest : list IndexingRuleAttributes)
      (rule' : IndexingRuleAttributes) (copies : list IndexingRuleAttributes) :
  (forall (sg : Subgraph) (v : Subgraph.Version),
      In sg subgraphs -> In v (Subgraph.versions sg) ->
      fst <$> decodeDeploymentID (toString (Subgraph.deployment v))
      = Some (toString (Subgraph.deployment v))) ->
  convertRule decodeDeploymentID subgraphs previousVersionBuffer dateNow done rule rest
  = Ok (rule', copies) ->
  NoDup (omap (ruleTarget decodeDeploymentID) (done ++ rule :: rest)) ->
  NoDup (omap (ruleTarget decodeDeploymentID) (done ++ rule' :: rest)).
Proof.
  intros Hversions Hstep Hdistinct.
  destruct (identifierType_eqb (IndexingRule.identifierType rule) SUBGRAPH) eqn:Ety.
  - apply identifierType_eqb_eq in Ety.
    destruct (find (fun subgraph =>
                      String.eqb (Subgraph.id subgraph) (IndexingRule.identifier rule))
                   subgraphs) as [sg|] eqn:Hsg.
    + destruct (find (fun version =>
                        Subgraph.version version =? Subgraph.versionCount sg - 1)
                     (Subgraph.versions sg)) as [latest|] eqn:Hlatest.
      * destruct (convertRule_found _ _ _ _ _ _ _ Hstep Ety Hsg Hlatest)
          as (targeted & Ht & -> & _).
        destruct targeted; [exact Hdistinct|].
        pose proof (deploymentRuleInList_false _ _ Ht) as Hnone.
        apply find_some in Hsg as [Hsg _]. apply find_some in Hlatest as [Hlatest _].
        specialize (Hversions sg latest Hsg Hlatest).
        rewrite omap_app in *. simpl in *.
        assert (Hold : ruleTarget decodeDeploymentID rule = None)
          by (unfold ruleTarget; rewrite Ety; reflexivity).
        assert (Hnew : ruleTarget decodeDeploymentID
                         (IndexingRule.retarget rule
                            (toString (Subgraph.deployment latest)) DEPLOYMENT)
                       = Some (toString (Subgraph.deployment latest)))
          by (unfold ruleTarget; simpl; exact Hversions).
        rewrite Hold in Hdistinct. rewrite Hnew.
        apply NoDup_app in Hdistinct as (Hd1 & Hd2 & Hd3).
        apply NoDup_app. split; [exact Hd1|]. split.
        -- intros x Hx Hx'. apply elem_of_cons in Hx' as [->|Hx'];
             [|exact (Hd2 x Hx Hx')].
           apply list_elem_of_omap in Hx as (r & Hr & Hrt).
           apply (Hnone r); [|exact Hrt].
           apply in_or_app. left. apply list_elem_of_In. exact Hr.
        -- apply NoDup_cons. split; [|exact Hd3].
           intros Hx. apply list_elem_of_omap in Hx as (r & Hr & Hrt).
           apply (Hnone r); [|exact Hrt].
           apply in_or_app. right. right. apply list_elem_of_In. exact Hr.
      * unfold convertRule in Hstep. rewrite Ety in Hstep. simpl in Hstep.
        rewrite Hsg, Hlatest in Hstep. injection Hstep as <- <-. exact Hdistinct.
    + unfold convertRule in Hstep. rewrite Ety in Hstep. simpl in Hstep.
      rewrite Hsg in Hstep. injection Hstep as <- <-. exact Hdistinct.
  - apply convertRule_frame in Hstep as (Hother & _).
    destruct Hother as [-> _]; [|exact Hdistinct].
    intros Hty. apply identifierType_eqb_eq in Hty. congruence.
Qed.

Lemma convertLoop_distinct (pending done toAdd out added : list IndexingRuleAttributes) :
  (forall (sg : Subgraph) (v : Subgraph.Version),
      In sg subgraphs -> In v (Subgraph.versions sg) ->
      fst <$> decodeDeploymentID (toString (Subgraph.deployment v))
      = Some (toString (Subgraph.deployment v))) ->
  convertLoop decodeDeploymentID subgraphs previousVersionBuffer dateNow done pending toAdd
  = Ok (out, added) ->
  NoDup (omap (ruleTarget decodeDeploymentID) (done ++ pending)) ->
  NoDup (omap (ruleTarget decodeDeploymentID) out).
Proof.
  intros Hversions. revert done toAdd.
  induction pending as [|rule rest IH]; simpl; intros done toAdd H Hdistinct.
  - injection H as <- <-. rewrite app_nil_r in Hdistinct. exact Hdistinct.
  - destruct (convertRule decodeDeploymentID subgraphs previousVersionBuffer dateNow
                done rule rest) as [[r' cs]|] eqn:Hstep; simpl in H; [|discriminate].
    apply (IH _ _ H). rewrite <- app_assoc. simpl.
    eapply convertRule_distinct; eassumption.
Qed.

(** The normalizer returns when the identifiers it decodes are well
    formed: those of the deployment-typed rules, and the deployment
    strings of the subgraph versions (which become identifiers). *)
Lemma deploymentRuleInList_returns (l : list IndexingRuleAttributes)
      (d : SubgraphDeploymentID) :
  (forall r : IndexingRuleAttributes,
      In r l -> IndexingRule.identifierType r = DEPLOYMENT ->
      decodeDeploymentID (IndexingRule.identifier r) <> None) ->
  exists targeted : bool, deploymentRuleInList decodeDeploymentID l d = Ok targeted.
Proof.
  induction l as [|x l IH]; simpl; intros Hgood; [exists false; reflexivity|].
  destruct IH as (t & Ht); [intros r Hr; apply Hgood; right; exact Hr|].
  destruct (identifierType_eqb (IndexingRule.identifierType x) DEPLOYMENT) eqn:Ety;
    [|exists t; exact Ht].
  apply identifierType_eqb_eq in Ety.
  unfold newSubgraphDeploymentID.
  destruct (decodeDeploymentID (IndexingRule.identifier x)) as [[hex ipfs]|] eqn:Edec.
  - simpl. destruct (String.eqb hex (toString d)); [exists true; reflexivity|].
    exists t; exact Ht.
  - exfalso. apply (Hgood x); auto.
Qed.

Lemma convertRule_returns (done : list IndexingRuleAttributes)
      (rule : IndexingRuleAttributes) (rest : list IndexingRuleAttributes) :
  (forall (sg : Subgraph) (v : Subgraph.Version),
      In sg subgraphs -> In v (Subgraph.versions sg) ->
      decodeDeploymentID (toString (Subgraph.deployment v)) <> None) ->
  (forall r : IndexingRuleAttributes,
      In r (done ++ rule :: rest) -> IndexingRule.identifierType r = DEPLOYMENT ->
      decodeDeploymentID (IndexingRule.identifier r) <> None) ->
  exists (rule' : IndexingRuleAttributes) (cs : list IndexingRuleAttributes),
    convertRule decodeDeploymentID subgraphs previousVersionBuffer dateNow done rule rest
    = Ok (rule', cs)
    /\ forall r : IndexingRuleAttributes,
        In r (done ++ rule' :: rest) -> IndexingRule.identifierType r = DEPLOYMENT ->
        decodeDeploymentID (IndexingRule.identifier r) <> None.
Proof.
  intros Hsubgraphs Hgood. unfold convertRule.
  destruct (negb _); [eauto|].
  destruct (find _ subgraphs) as [sg|] eqn:Hsg; [|eauto].
  apply find_some in Hsg as [Hsg _].
  destruct (find _ (Subgraph.versions sg)) as [latest|] eqn:Hlatest; [|eauto].
  apply find_some in Hlatest as [Hlatest _].
  destruct (deploymentRuleInList_returns (done ++ rule :: rest)
              (Subgraph.deployment latest) Hgood) as (targeted & ->).
  simpl. set (r1 := if negb targeted then _ else rule).
  assert (Hgood1 : forall r, In r (done ++ r1 :: rest) ->
                     IndexingRule.identifierType r = DEPLOYMENT ->
                     decodeDeploymentID (IndexingRule.identifier r) <> None).
  { intros r Hr Hty. apply in_app_or in Hr as [Hr|[<-|Hr]].
    - apply Hgood; [apply in_or_app; left; exact Hr | exact Hty].
    - unfold r1 in *. destruct targeted; simpl in *.
      + apply Hgood; [apply in_or_app; right; left; reflexivity | exact Hty].
      + apply (Hsubgraphs sg latest); assumption.
    - apply Hgood; [apply in_or_app; right; right; exact Hr | exact Hty]. }
  destruct (_ >? _); [|eauto].
  destruct (find _ (Subgraph.versions sg)) as [previous|]; [|eauto].
  destruct (deploymentRuleInList_returns (done ++ r1 :: rest)
              (Subgraph.deployment previous) Hgood1) as (targeted' & ->).
  simpl. destruct targeted'; simpl; eauto.
Qed.

Lemma convertLoop_returns (pending done toAdd : list IndexingRuleAttributes) :
  (forall (sg : Subgraph) (v : Subgraph.Version),
      In sg subgraphs -> In v (Subgraph.versions sg) ->
      decodeDeploymentID (toString (Subgraph.deployment v)) <> None) ->
  (forall r : IndexingRuleAttributes,
      In r (done ++ pending) -> IndexingRule.identifierType r = DEPLOYMENT ->
      decodeDeploymentID (IndexingRule.identifier r) <> None) ->
  exists out added : list IndexingRuleAttributes,
    convertLoop decodeDeploymentID subgraphs previousVersionBuffer dateNow
      done pending toAdd = Ok (out, added).
Proof.
  intros Hsubgraphs. revert done toAdd.
  induction pending as [|rule rest IH]; simpl; intros done toAdd Hgood; [eauto|].
  destruct (convertRule_returns done rule rest Hsubgraphs Hgood)
    as (rule' & cs & -> & Hgood').
  simpl. apply IH. rewrite <- app_assoc. exact Hgood'.
Qed.

(** The normalizer returns whenever every identifier it may decode is a
    deployment id: when the deployments of the subgraphs' versions and the
    identifiers of the deployment-typed rules are all accepted by
    [new SubgraphDeploymentID], [convertSubgraphBasedRulesToDeploymentBased]
    does not throw. *)
Lemma convert_returns (rules : list IndexingRuleAttributes) :
  (forall (sg : Subgraph) (v : Subgraph.Version),
      In sg subgraphs -> In v (Subgraph.versions sg) ->
      decodeDeploymentID (toString (Subgraph.deployment v)) <> None) ->
  (forall r : IndexingRuleAttributes,
      In r rules -> IndexingRule.identifierType r = DEPLOYMENT ->
      decodeDeploymentID (IndexingRule.identifier r) <> None) ->
  exists out : list IndexingRuleAttributes,
    convertSubgraphBasedRulesToDeploymentBased decodeDeploymentID subgraphs
      previousVersionBuffer dateNow rules = Ok out.
Proof.
  intros Hsubgraphs Hgood. unfold convertSubgraphBasedRulesToDeploymentBased.
  destruct (convertLoop_returns rules [] [] Hsubgraphs Hgood) as (out & added & ->).
  simpl. eauto.
Qed.

(** C10. [convertSubgraphBasedRulesToDeploymentBased] never removes or
    reorders rules: what it returns starts with every input rule at its
    original position, changed at most in [identifier] and
    [identifierType], and unchanged when its type is not SUBGRAPH; it is
    followed by the appended copies, each an input rule retargeted to a
    deployment.  So the output is at least as long as the input. *)
Theorem convert_keeps_rules (rules out : list IndexingRuleAttributes) :
  convertSubgraphBasedRulesToDeploymentBased decodeDeploymentID subgraphs
    previousVersionBuffer dateNow rules = Ok out ->
  exists toAdd : list IndexingRuleAttributes,
    out = take (length rules) out ++ toAdd
    /\ (length rules <= length out)%nat
    /\ (forall (i : nat) (rule : IndexingRuleAttributes),
           rules !! i = Some rule ->
           exists rule' : IndexingRuleAttributes,
             out !! i = Some rule'
             /\ (IndexingRule.identifierType rule <> SUBGRAPH -> rule' = rule)
             /\ rule' = IndexingRule.retarget rule (IndexingRule.identifier rule')
                                              (IndexingRule.identifierType rule'))
    /\ (forall copy : IndexingRuleAttributes,
           In copy toAdd ->
           exists rule : IndexingRuleAttributes,
             In rule rules
             /\ copy = IndexingRule.retarget rule (IndexingRule.identifier copy)
                                             DEPLOYMENT).
Proof.
  unfold convertSubgraphBasedRulesToDeploymentBased. intros H.
  destruct (convertLoop decodeDeploymentID subgraphs previousVersionBuffer dateNow
              [] rules []) as [[rules' added]|] eqn:Hloop; simpl in H; [|discriminate].
  injection H as <-.
  apply convertLoop_steps in Hloop
    as (rs & copies & Hout & Hadded & Hlen & Hlen' & Hall).
  simpl in Hout, Hadded. subst rules' added.
  exists (concat copies). rewrite <- Hlen, take_app_length.
  split; [reflexivity|]. split; [rewrite length_app; lia|]. split.
  - intros i rule Hi.
    destruct (Hall i rule Hi) as (rule' & cs & Hr & _ & Hstep).
    apply convertRule_frame in Hstep as (Hother & Hsame & _).
    exists rule'. split; [|split; [intros Hne; apply Hother; exact Hne | exact Hsame]].
    rewrite lookup_app_l; [exact Hr | eapply lookup_lt_Some; exact Hr].
  - intros copy Hcopy. apply in_concat in Hcopy as (cs & Hcs & Hin).
    apply list_elem_of_In, list_elem_of_lookup in Hcs as (i & Hi).
    assert (Hlt : (i < length rules)%nat)
      by (rewrite <- Hlen'; eapply lookup_lt_Some; exact Hi).
    apply lookup_lt_is_Some_2 in Hlt as (rule & Hrule).
    destruct (Hall i rule Hrule) as (rule' & cs' & _ & Hcs' & Hstep).
    assert (cs' = cs) by congruence. subst cs'.
    apply convertRule_frame in Hstep as (_ & _ & Hcopies).
    exists rule. split; [|apply Hcopies; exact Hin].
    apply list_elem_of_In. eapply list_elem_of_lookup_2. exact Hrule.
Qed.

(** C6, amended.  For every SUBGRAPH-typed rule whose subgraph is found
    and whose latest version ([version == versionCount - 1]) is present:
    the rule is rewritten to type DEPLOYMENT with the latest version's
    deployment string as identifier when no rule of the array, as it
    stands when the rule is visited, targets that deployment, and is left
    as it is when one does; and a previous-version copy of the rule is
    appended if and only if the latest version was created within the
    buffer window, the previous version ([version == versionCount - 2]) is
    present, and no rule of the array then targets its deployment; the
    copy is the rule as left, retargeted to the previous deployment.
    Among the rules returned in their original positions, the deployment
    rules target pairwise distinct deployments if they did in the input
    (the deployment strings of the subgraph versions decoding to
    themselves); nothing is said of duplicates among the appended
    copies. *)
Theorem convert_normalizes (rules out : list IndexingRuleAttributes) :
  convertSubgraphBasedRulesToDeploymentBased decodeDeploymentID subgraphs
    previousVersionBuffer dateNow rules = Ok out ->
  (exists copies : list (list IndexingRuleAttributes),
    drop (length rules) out = concat copies
    /\ length copies = length rules
    /\ forall (i : nat) (rule : IndexingRuleAttributes) (sg : Subgraph)
             (latest : Subgraph.Version),
        rules !! i = Some rule ->
        IndexingRule.identifierType rule = SUBGRAPH ->
        find (fun subgraph =>
                String.eqb (Subgraph.id subgraph) (IndexingRule.identifier rule))
             subgraphs = Some sg ->
        find (fun version => Subgraph.version version =? Subgraph.versionCount sg - 1)
             (Subgraph.versions sg) = Some latest ->
        exists (rule' : IndexingRuleAttributes) (cs : list IndexingRuleAttributes),
          out !! i = Some rule' /\ copies !! i = Some cs
          /\ let before := take i out ++ drop i rules in
             let after := take (S i) out ++ drop (S i) rules in
             ((exists r : IndexingRuleAttributes,
                  In r before
                  /\ ruleTargets decodeDeploymentID r (Subgraph.deployment latest)) ->
              rule' = rule)
             /\ ((forall r : IndexingRuleAttributes,
                     In r before ->
                     ~ ruleTargets decodeDeploymentID r (Subgraph.deployment latest)) ->
                 rule' = IndexingRule.retarget rule
                           (toString (Subgraph.deployment latest)) DEPLOYMENT)
             /\ (cs <> []
                 <-> Subgraph.createdAt latest
                     > dateNow / 1000 - previousVersionBuffer
                     /\ exists previous : Subgraph.Version,
                         find (fun version =>
                                 Subgraph.version version
                                 =? Subgraph.versionCount sg - 1 - 1)
                              (Subgraph.versions sg) = Some previous
                         /\ forall r : IndexingRuleAttributes,
                             In r after ->
                             ~ ruleTargets decodeDeploymentID r
                                 (Subgraph.deployment previous))
             /\ forall previous : Subgraph.Version,
                 find (fun version =>
                         Subgraph.version version =? Subgraph.versionCount sg - 1 - 1)
                      (Subgraph.versions sg) = Some previous ->
                 cs = []
                 \/ cs = [IndexingRule.retarget rule'
                            (toString (Subgraph.deployment previous)) DEPLOYMENT])
  /\ ((forall (sg : Subgraph) (v : Subgraph.Version),
          In sg subgraphs -> In v (Subgraph.versions sg) ->
          fst <$> decodeDeploymentID (toString (Subgraph.deployment v))
          = Some (toString (Subgraph.deployment v))) ->
      NoDup (omap (ruleTarget decodeDeploymentID) rules) ->
      NoDup (omap (ruleTarget decodeDeploymentID) (take (length rules) out))).
Proof.
  unfold convertSubgraphBasedRulesToDeploymentBased. intros H.
  destruct (convertLoop decodeDeploymentID subgraphs previousVersionBuffer dateNow
              [] rules []) as [[rules' added]|] eqn:Hloop; simpl in H; [|discriminate].
  injection H as <-.
  pose proof (fun Hversions =>
                convertLoop_distinct rules [] [] rules' added Hversions Hloop)
    as Hdistinct.
  apply convertLoop_steps in Hloop
    as (rs & copies & Hout & Hadded & Hlen & Hlen' & Hall).
  simpl in Hout, Hadded. subst rules' added.
  split; [|rewrite <- Hlen, take_app_length; exact Hdistinct].
  exists copies. rewrite <- Hlen, drop_app_length.
  split; [reflexivity|]. split; [congruence|].
  intros i rule sg latest Hi Hty Hsg Hlatest.
  destruct (Hall i rule Hi) as (rule' & cs & Hr & Hcs & Hstep).
  simpl in Hstep.
  assert (Hlt : (i < length rs)%nat) by (eapply lookup_lt_Some; exact Hr).
  exists rule', cs. split; [rewrite lookup_app_l; assumption|].
  split; [exact Hcs|].
  assert (Hbefore : take i (rs ++ concat copies) ++ drop i rules
                    = take i rs ++ rule :: drop (S i) rules).
  { rewrite take_app_le by lia. rewrite (drop_S _ _ _ Hi). reflexivity. }
  assert (Hafter : take (S i) (rs ++ concat copies) ++ drop (S i) rules
                   = take i rs ++ rule' :: drop (S i) rules).
  { rewrite take_app_le by lia. rewrite (take_S_r _ _ _ Hr).
    rewrite <- app_assoc. reflexivity. }
  cbv zeta. rewrite Hbefore, Hafter.
  destruct (convertRule_found _ _ _ _ _ _ _ Hstep Hty Hsg Hlatest)
    as (targeted & Ht & Hrule' & Hcopies).
  split; [|split; [|split]].
  - intros (r & Hin & Hr'). destruct targeted; [exact Hrule'|].
    exfalso. exact (deploymentRuleInList_false _ _ Ht r Hin Hr').
  - intros Hnone. destruct targeted; [|exact Hrule'].
    apply deploymentRuleInList_true in Ht as (r & Hin & Hr').
    exfalso. exact (Hnone r Hin Hr').
  - destruct Hcopies as [(Hts & previous & Hprev & Ht' & ->)
                        |(-> & [Hts|[Hnoprev|(previous & Hprev & Ht')]])].
    + split; [|discriminate]. intros _. split; [exact Hts|].
      exists previous. split; [exact Hprev|].
      apply deploymentRuleInList_false. exact Ht'.
    + split; [congruence|]. intros (Hts' & _). lia.
    + split; [congruence|]. intros (_ & previous & Hprev & _). congruence.
    + split; [congruence|]. intros (_ & previous' & Hprev' & Hnone).
      assert (previous' = previous) by congruence. subst previous'.
      apply deploymentRuleInList_true in Ht' as (r & Hin & Hr').
      exfalso. exact (Hnone r Hin Hr').
  - intros previous Hprev.
    destruct Hcopies as [(_ & previous' & Hprev' & _ & ->)|(-> & _)]; [|left; reflexivity].
    right. congruence.
Qed.

End RuleNormalizerFacts.

(** Scenario S2: a subgraph rule whose latest version (deployment B) was
    created ten seconds ago, with a buffer of an hour: the rule is
    rewritten to target B and a copy targeting the previous version
    (deployment A) is appended. *)
Example normalize_with_previous_version :
  let r := Example.ruleFor "0xa1-0" SUBGRAPH RULES None in
  convertSubgraphBasedRulesToDeploymentBased Example.decodeDeploymentID
    [Example.subgraph "0xa1-0" Example.deploymentA Example.deploymentB
       (Example.nowSeconds - 10)]
    3600 Example.dateNow [r]
  = Ok [ IndexingRule.retarget r Example.hexB DEPLOYMENT;
         IndexingRule.retarget r Example.hexA DEPLOYMENT ].
Proof. reflexivity. Qed.

(** C6, as stated, fails on a subgraph rule whose latest deployment is
    already targeted by a deployment rule (here spelled in base 58): the
    subgraph is found, but the rule is left subgraph-typed, and no rule of
    the result has type DEPLOYMENT and the latest deployment's string as
    identifier. *)
Lemma convert_leaves_targeted_subgraph_rule :
  let r0 := Example.ruleFor Example.ipfsB DEPLOYMENT ALWAYS None in
  let r1 := Example.ruleFor "0xa1-0" SUBGRAPH RULES None in
  let sg := Example.subgraph "0xa1-0" Example.deploymentA Example.deploymentB 2000 in
  find (fun subgraph => String.eqb (Subgraph.id subgraph) (IndexingRule.identifier r1))
       [sg] = Some sg
  /\ find (fun version => Subgraph.version version =? Subgraph.versionCount sg - 1)
          (Subgraph.versions sg)
     = Some (Subgraph.mkVersion 1 2000 Example.deploymentB)
  /\ convertSubgraphBasedRulesToDeploymentBased Example.decodeDeploymentID [sg]
       3600 Example.dateNow [r0; r1] = Ok [r0; r1]
  /\ existsb (fun r =>
                identifierType_eqb (IndexingRule.identifierType r) DEPLOYMENT
                && String.eqb (IndexingRule.identifier r) (toString Example.deploymentB))
             [r0; r1] = false.
Proof. repeat split; reflexivity. Qed.

(** The claim's "no duplicate" part also fails: two subgraphs that share
    their previous deployment each get a copy targeting it. *)
Example convert_appends_duplicate_copies :
  let r1 := Example.ruleFor "0xa1-0" SUBGRAPH RULES None in
  let r2 := Example.ruleFor "0xa2-0" SUBGRAPH RULES None in
  convertSubgraphBasedRulesToDeploymentBased Example.decodeDeploymentID
    [ Example.subgraph "0xa1-0" Example.deploymentA Example.deploymentB
        (Example.nowSeconds - 10);
      Example.subgraph "0xa2-0" Example.deploymentA' Example.deploymentC
        (Example.nowSeconds - 10) ]
    3600 Example.dateNow [r1; r2]
  = Ok [ IndexingRule.retarget r1 Example.hexB DEPLOYMENT;
         IndexingRule.retarget r2 Example.hexC DEPLOYMENT;
         IndexingRule.retarget r1 Example.hexA DEPLOYMENT;
         IndexingRule.retarget r2 Example.hexA DEPLOYMENT ]
  /\ IndexingRule.retarget r1 Example.hexA DEPLOYMENT
     = IndexingRule.retarget r2 Example.hexA DEPLOYMENT.
Proof. split; reflexivity. Qed.

(** Scenario S2 under C6: one rule, one list of copies. *)
Lemma convert_normalizes_witness :
  let r := Example.ruleFor "0xa1-0" SUBGRAPH RULES None in
  let out := [ IndexingRule.retarget r Example.hexB DEPLOYMENT;
               IndexingRule.retarget r Example.hexA DEPLOYMENT ] in
  exists copies : list (list IndexingRuleAttributes),
    drop 1 out = concat copies /\ length copies = 1%nat.
Proof.
  intros r out.
  destruct (convert_normalizes Example.decodeDeploymentID
              [Example.subgraph "0xa1-0" Example.deploymentA Example.deploymentB
                 (Example.nowSeconds - 10)]
              3600 Example.dateNow [r] out eq_refl)
    as ((copies & Hdrop & Hlen & _) & _).
  exists copies. split; [exact Hdrop | exact Hlen].
Defined.

(** Scenario S2 under C10: the rule stays first, the copy follows. *)
Lemma convert_keeps_rules_witness :
  let r := Example.ruleFor "0xa1-0" SUBGRAPH RULES None in
  let out := [ IndexingRule.retarget r Example.hexB DEPLOYMENT;
               IndexingRule.retarget r Example.hexA DEPLOYMENT ] in
  exists toAdd : list IndexingRuleAttributes,
    out = take 1 out ++ toAdd /\ (1 <= length out)%nat.
Proof.
  intros r out.
  destruct (convert_keeps_rules Example.decodeDeploymentID
              [Example.subgraph "0xa1-0" Example.deploymentA Example.deploymentB
                 (Example.nowSeconds - 10)]
              3600 Example.dateNow [r] out eq_refl)
    as (toAdd & Hout & Hlen & _).
  exists toAdd. split; [exact Hout | exact Hlen].
Defined.

(** * Properties of the target deployments *)

(** Adding an object to the set, read by bytes32, when the identity of the
    objects involved determines their bytes32. *)
Lemma Set_add_In (s : list SubgraphDeploymentID) (x : SubgraphDeploymentID) (b : string) :
  (forall y : SubgraphDeploymentID, In y s -> oid y = oid x -> bytes32 y = bytes32 x) ->
  In b (map bytes32 (Set_add s x)) <-> In b (map bytes32 s) \/ b = bytes32 x.
Proof.
  intros Hdet. unfold Set_add, Set_has.
  destruct (existsb _ s) eqn:E.
  - apply existsb_exists in E as (y & Hy & Hoid). apply Nat.eqb_eq in Hoid.
    split; [auto|]. intros [H| ->]; [exact H|].
    rewrite <- (Hdet y Hy Hoid). apply in_map. exact Hy.
  - rewrite map_app, in_app_iff. simpl. split.
    + intros [H|[H|[]]]; auto.
    + intros [H|H]; auto.
Qed.

Lemma Set_add_elements (s : list SubgraphDeploymentID) (x y : SubgraphDeploymentID) :
  In y (Set_add s x) -> In y s \/ y = x.
Proof.
  unfold Set_add. destruct (Set_has s x); [auto|].
  rewrite in_app_iff. simpl. intros [H|[H|[]]]; auto.
Qed.

Lemma fold_Set_add_elements (l s : list SubgraphDeploymentID) (y : SubgraphDeploymentID) :
  In y (fold_left Set_add l s) -> In y s \/ In y l.
Proof.
  revert s. induction l as [|x l IH]; simpl; intros s H; [auto|].
  destruct (IH _ H) as [H'|H']; [|auto].
  destruct (Set_add_elements _ _ _ H'); auto.
Qed.

Lemma fold_Set_add_In (l s : list SubgraphDeploymentID) (b : string) :
  (forall x y : SubgraphDeploymentID,
      In x (s ++ l) -> In y (s ++ l) -> oid x = oid y -> bytes32 x = bytes32 y) ->
  In b (map bytes32 (fold_left Set_add l s))
  <-> In b (map bytes32 s) \/ In b (map bytes32 l).
Proof.
  revert s. induction l as [|x l IH]; simpl; intros s Hdet; [tauto|].
  rewrite IH.
  - rewrite Set_add_In.
    + split; [intros [[H|H]|H] | intros [H|[H|H]]]; auto.
    + intros y Hy. apply Hdet; apply in_or_app; [left; exact Hy | right; left; reflexivity].
  - intros u v Hu Hv. apply Hdet.
    + apply in_app_or in Hu as [Hu|Hu]; [|apply in_or_app; right; right; exact Hu].
      destruct (Set_add_elements _ _ _ Hu) as [Hu'| ->]; apply in_or_app;
        [left; exact Hu' | right; left; reflexivity].
    + apply in_app_or in Hv as [Hv|Hv]; [|apply in_or_app; right; right; exact Hv].
      destruct (Set_add_elements _ _ _ Hv) as [Hv'| ->]; apply in_or_app;
        [left; exact Hv' | right; left; reflexivity].
Qed.

Lemma addOffchainRules_In (decodeDeploymentID : string -> option (string * string))
      (rules : list IndexingRuleAttributes) (s extra out : list SubgraphDeploymentID)
      (next : nat) :
  addOffchainRules decodeDeploymentID rules s next = Ok out ->
  (forall x : SubgraphDeploymentID, In x (s ++ extra) -> (oid x < next)%nat) ->
  (forall x y : SubgraphDeploymentID,
      In x (s ++ extra) -> In y (s ++ extra) -> oid x = oid y -> bytes32 x = bytes32 y) ->
  (forall b : string,
      In b (map bytes32 out)
      <-> In b (map bytes32 s)
          \/ exists rule : IndexingRuleAttributes,
              In rule rules
              /\ exists ipfs : string,
                  decodeDeploymentID (IndexingRule.identifier rule) = Some (b, ipfs))
  /\ (forall x y : SubgraphDeploymentID,
         In x (out ++ extra) -> In y (out ++ extra) -> oid x = oid y ->
         bytes32 x = bytes32 y).
Proof.
  revert s next. induction rules as [|rule rules IH]; simpl; intros s next H Hlt Hdet.
  - injection H as <-. split; [|exact Hdet].
    intros b. split; [auto | intros [H|(r & [] & _)]; exact H].
  - unfold newSubgraphDeploymentID in H.
    destruct (decodeDeploymentID (IndexingRule.identifier rule)) as [[hex ipfs]|] eqn:Edec;
      simpl in H; [|discriminate].
    set (d := mkSubgraphDeploymentID next hex ipfs) in H.
    assert (Hfresh : Set_add s d = s ++ [d]).
    { unfold Set_add, Set_has. destruct (existsb _ s) eqn:E; [|reflexivity].
      apply existsb_exists in E as (y & Hy & Hoid). apply Nat.eqb_eq in Hoid.
      assert (oid y < next)%nat by (apply Hlt; apply in_or_app; left; exact Hy).
      simpl in Hoid. lia. }
    rewrite Hfresh in H.
    assert (Hmem : forall x, In x ((s ++ [d]) ++ extra) -> In x (s ++ extra) \/ x = d).
    { intros x Hx. rewrite <- app_assoc in Hx.
      apply in_app_or in Hx as [Hx|[Hx|Hx]];
        [left; apply in_or_app; left; exact Hx | right; symmetry; exact Hx
        | left; apply in_or_app; right; exact Hx]. }
    destruct (IH (s ++ [d]) (S next) H) as [Hin Hdet'].
    + intros x Hx. destruct (Hmem x Hx) as [Hx'| ->]; [|simpl; lia].
      specialize (Hlt x Hx'). lia.
    + intros x y Hx Hy Hoid.
      destruct (Hmem x Hx) as [Hx'| ->], (Hmem y Hy) as [Hy'| ->]; auto.
      * specialize (Hlt x Hx'). simpl in Hoid. lia.
      * specialize (Hlt y Hy'). simpl in Hoid. lia.
    + split; [|exact Hdet'].
      intros b. rewrite Hin, map_app, in_app_iff. simpl. split.
      * intros [[Hb|[Hb|[]]]|(r & Hr & Hdec)]; [left; exact Hb | | ].
        -- right. exists rule. split; [left; reflexivity|]. exists ipfs.
           rewrite Edec, <- Hb. reflexivity.
        -- right. exists r. split; [right; exact Hr | exact Hdec].
      * intros [Hb|(r & [<-|Hr] & ipfs' & Hdec)]; [left; left; exact Hb | | ].
        -- left. right. left. rewrite Edec in Hdec. injection Hdec as -> _. reflexivity.
        -- right. exists r. split; [exact Hr | exists ipfs'; exact Hdec].
Qed.

(** The union holds by bytes32: when the deployment objects handed to the
    callback are well formed (an object's identity determines its bytes32,
    and [next] is not in use), what it emits has, by bytes32, exactly the
    deployments of the decisions to allocate, of the OFFCHAIN rules and of
    the startup list. *)
Lemma targetDeployments_union (decodeDeploymentID : string -> option (string * string))
      (offchainSubgraphs : list SubgraphDeploymentID) (next : nat)
      (indexingRules : gmap string (list IndexingRuleAttributes))
      (decisions : gmap string (list AllocationDecision))
      (out : list SubgraphDeploymentID) :
  let allocated :=
    map AllocationDecision.deployment
        (List.filter (fun decision => AllocationDecision.toAllocate decision)
                     (concat (Object_values decisions))) in
  targetDeployments decodeDeploymentID offchainSubgraphs next indexingRules decisions
  = Ok out ->
  (forall x : SubgraphDeploymentID,
      In x (allocated ++ offchainSubgraphs) -> (oid x < next)%nat) ->
  (forall x y : SubgraphDeploymentID,
      In x (allocated ++ offchainSubgraphs) -> In y (allocated ++ offchainSubgraphs) ->
      oid x = oid y -> bytes32 x = bytes32 y) ->
  forall b : string,
    In b (map bytes32 out)
    <-> In b (map bytes32 allocated)
        \/ (exists rule : IndexingRuleAttributes,
               In rule (concat (Object_values indexingRules))
               /\ IndexingRule.decisionBasis rule = OFFCHAIN
               /\ exists ipfs : string,
                   decodeDeploymentID (IndexingRule.identifier rule) = Some (b, ipfs))
        \/ In b (map bytes32 offchainSubgraphs).
Proof.
  intros allocated H Hlt Hdet b. unfold targetDeployments in H. fold allocated in H.
  destruct (addOffchainRules _ _ _ _) as [set1|] eqn:Hadd; simpl in H; [|discriminate].
  injection H as <-.
  assert (Hsub : forall x, In x (Set_new allocated ++ offchainSubgraphs) ->
                   In x (allocated ++ offchainSubgraphs)).
  { intros x Hx. apply in_app_or in Hx as [Hx|Hx]; apply in_or_app; [|auto].
    destruct (fold_Set_add_elements _ _ _ Hx) as [[]|Hx']. auto. }
  destruct (addOffchainRules_In _ _ _ offchainSubgraphs _ _ Hadd) as [Hin Hdet1].
  { intros x Hx. apply Hlt, Hsub, Hx. }
  { intros x y Hx Hy. apply Hdet; apply Hsub; assumption. }
  rewrite (fold_Set_add_In _ _ _ Hdet1), Hin.
  unfold Set_new. rewrite fold_Set_add_In.
  - simpl. split.
    + intros [[[[]|Hb]|(r & Hr & Hdec)]|Hb]; [left; exact Hb | | right; right; exact Hb].
      right. left. apply filter_In in Hr as [Hr Hbasis].
      exists r. split; [exact Hr|]. split; [|exact Hdec].
      destruct (IndexingRule.decisionBasis r); simpl in Hbasis; congruence.
    + intros [Hb|[(r & Hr & Hbasis & Hdec)|Hb]]; [left; left; right; exact Hb | | right; exact Hb].
      left. right. exists r. split; [|exact Hdec].
      apply filter_In. split; [exact Hr|]. rewrite Hbasis. reflexivity.
  - simpl. intros x y Hx Hy. apply Hdet; apply in_or_app; left; assumption.
Qed.

(** The union, when the decisions carry the same deployment object that
    the startup list holds: the [Set] keeps one entry. *)
Example targetDeployments_same_object :
  targetDeployments Example.decodeDeploymentID [Example.deploymentA] 4
    ({[ Example.mainnet := [] ]})
    ({[ Example.mainnet :=
          [ Example.decisionFor Example.deploymentA true None;
            Example.decisionFor Example.deploymentB false None ] ]})
  = Ok [Example.deploymentA].
Proof. vm_compute. reflexivity. Qed.

(** C3 fails on the code.  With deployment A in the startup offchain list
    and an OFFCHAIN rule for the same deployment, the [Set] receives a new
    [SubgraphDeploymentID] object for the rule and the startup object; it
    compares objects, not bytes32, and the emitted list holds deployment A
    twice. *)
Theorem targetDeployments_emits_duplicate_bytes32 :
  let emitted :=
    [ mkSubgraphDeploymentID 4 Example.hexA Example.ipfsA; Example.deploymentA ] in
  targetDeployments Example.decodeDeploymentID [Example.deploymentA] 4
    ({[ Example.mainnet := [Example.ruleFor Example.hexA DEPLOYMENT OFFCHAIN None] ]})
    ({[ Example.mainnet := [] ]})
  = Ok emitted
  /\ map bytes32 emitted = [Example.hexA; Example.hexA]
  /\ uniqueDeployments emitted = [mkSubgraphDeploymentID 4 Example.hexA Example.ipfsA].
Proof. vm_compute. repeat split; reflexivity. Qed.

(** * Properties of the action reconciler *)

(** The loop over the entries of the un-awaited promise deletes nothing. *)
Lemma manual_mode_filter_keeps_everything
      (manualModeNetworks : Promise (gmap string bool))
      (decisions : gmap string (list AllocationDecision)) :
  dropManualModeNetworks (Object_entries (PromiseObject manualModeNetworks)) decisions
  = decisions.
Proof. reflexivity. Qed.

(** On the dictionary the promise resolves to, the same loop drops the
    network flagged as manual. *)
Example resolved_filter_drops_manual_network :
  let d := Example.decisionFor Example.deploymentA true None in
  dropManualModeNetworks
    (Object_entries (A := gmap string bool)
       (Dictionary ({[ Example.mainnet := true ]})))
    ({[ Example.mainnet := [d] ]}) = ∅.
Proof. vm_compute. reflexivity. Qed.

(** C2 fails on the code (scenario S6).  The only network is in MANUAL
    mode and has a decision to allocate on deployment A, without active
    allocation: [reconcileActions] does not drop the network and issues
    [createAllocation] on it. *)
Theorem manual_mode_network_is_reconciled :
  let d := Example.decisionFor Example.deploymentA true None in
  let run :=
    reconcileActions (Example.networksFor MANUAL)
      ({[ Example.mainnet := [d] ]})
      ({[ Example.mainnet := [] ]})
      ({[ Example.mainnet := 10 ]})
      ({[ Example.mainnet := 28 ]}) in
  allocationManagementMode
    (indexerOptions (specification (Example.networkFor MANUAL []))) = MANUAL
  /\ run = act [createAllocation Example.mainnet d None] (Ok tt)
  /\ map callNetwork (calls run) = [Example.mainnet].
Proof. vm_compute. repeat split; reflexivity. Qed.

(** * Further properties of the deployment lists *)

Lemma filter_from_unique_NoDup (pre l : list SubgraphDeploymentID) :
  List.NoDup
    (map bytes32
       (Js.filter_from uniqueDeploymentsOnly (pre ++ l) l (Z.of_nat (length pre)))).
Proof.
  revert pre. induction l as [|x l IH]; intros pre; simpl; [constructor|].
  rewrite uniqueDeploymentsOnly_at.
  assert (Hshift : Js.filter_from uniqueDeploymentsOnly (pre ++ x :: l) l
                     (Z.of_nat (length pre) + 1)
                   = Js.filter_from uniqueDeploymentsOnly ((pre ++ [x]) ++ l) l
                       (Z.of_nat (length (pre ++ [x])))).
  { rewrite <- app_assoc. simpl. rewrite length_app. simpl. f_equal. lia. }
  rewrite Hshift.
  destruct (deploymentInList pre x); simpl; [apply IH|].
  constructor; [|apply IH].
  intros Hin. apply filter_from_unique_In in Hin as [_ Hin]. apply Hin.
  rewrite map_app, in_app_iff. right. left. reflexivity.
Qed.

Lemma filter_from_unique_first (pre l : list SubgraphDeploymentID)
      (d : SubgraphDeploymentID) :
  In d (Js.filter_from uniqueDeploymentsOnly (pre ++ l) l (Z.of_nat (length pre))) ->
  exists l1 l2 : list SubgraphDeploymentID,
    l = l1 ++ d :: l2 /\ ~ In (bytes32 d) (map bytes32 (pre ++ l1)).
Proof.
  revert pre. induction l as [|x l IH]; intros pre; simpl; [contradiction|].
  rewrite uniqueDeploymentsOnly_at.
  assert (Hshift : Js.filter_from uniqueDeploymentsOnly (pre ++ x :: l) l
                     (Z.of_nat (length pre) + 1)
                   = Js.filter_from uniqueDeploymentsOnly ((pre ++ [x]) ++ l) l
                       (Z.of_nat (length (pre ++ [x])))).
  { rewrite <- app_assoc. simpl. rewrite length_app. simpl. f_equal. lia. }
  rewrite Hshift.
  assert (Hlater : In d (Js.filter_from uniqueDeploymentsOnly ((pre ++ [x]) ++ l) l
                           (Z.of_nat (length (pre ++ [x])))) ->
                   exists l1 l2, x :: l = l1 ++ d :: l2
                                 /\ ~ In (bytes32 d) (map bytes32 (pre ++ l1))).
  { intros H. destruct (IH _ H) as (l1 & l2 & -> & Hnot).
    exists (x :: l1), l2. split; [reflexivity|].
    rewrite <- app_assoc in Hnot. exact Hnot. }
  destruct (deploymentInList pre x) eqn:E; simpl; [exact Hlater|].
  intros [<-|H]; [|exact (Hlater H)].
  exists [], l. split; [reflexivity|]. rewrite app_nil_r.
  intros Hin. apply deploymentInList_In in Hin. congruence.
Qed.

Lemma filter_from_unique_id (pre l : list SubgraphDeploymentID) :
  List.NoDup (map bytes32 (pre ++ l)) ->
  Js.filter_from uniqueDeploymentsOnly (pre ++ l) l (Z.of_nat (length pre)) = l.
Proof.
  revert pre. induction l as [|x l IH]; intros pre Hnd; simpl; [reflexivity|].
  rewrite uniqueDeploymentsOnly_at.
  assert (Hshift : Js.filter_from uniqueDeploymentsOnly (pre ++ x :: l) l
                     (Z.of_nat (length pre) + 1)
                   = Js.filter_from uniqueDeploymentsOnly ((pre ++ [x]) ++ l) l
                       (Z.of_nat (length (pre ++ [x])))).
  { rewrite <- app_assoc. simpl. rewrite length_app. simpl. f_equal. lia. }
  rewrite Hshift, IH by (rewrite <- app_assoc; exact Hnd).
  destruct (deploymentInList pre x) eqn:E; [|reflexivity].
  exfalso. apply deploymentInList_In in E.
  rewrite map_app in Hnd. simpl in Hnd.
  apply List.NoDup_remove_2 in Hnd. apply Hnd, in_or_app. left. exact E.
Qed.

(** [uniqueDeployments] keeps, in order, the first object of every
    bytes32: its result has no two entries of one bytes32, has exactly the
    bytes32 of its argument, each entry kept is preceded in the argument
    by no entry of its bytes32, and a list without duplicates is returned
    as it is, so that deduplicating twice changes nothing. *)
Theorem uniqueDeployments_first_occurrences (deployments : list SubgraphDeploymentID) :
  List.NoDup (map bytes32 (uniqueDeployments deployments))
  /\ (forall b : string,
         In b (map bytes32 (uniqueDeployments deployments))
         <-> In b (map bytes32 deployments))
  /\ (forall d : SubgraphDeploymentID,
         In d (uniqueDeployments deployments) ->
         exists l1 l2 : list SubgraphDeploymentID,
           deployments = l1 ++ d :: l2 /\ ~ In (bytes32 d) (map bytes32 l1))
  /\ (List.NoDup (map bytes32 deployments) -> uniqueDeployments deployments = deployments)
  /\ uniqueDeployments (uniqueDeployments deployments) = uniqueDeployments deployments.
Proof.
  assert (Hnd : forall l, List.NoDup (map bytes32 (uniqueDeployments l)))
    by (intros l; apply (filter_from_unique_NoDup [] l)).
  assert (Hid : forall l, List.NoDup (map bytes32 l) -> uniqueDeployments l = l)
    by (intros l H; apply (filter_from_unique_id [] l H)).
  split; [apply Hnd|]. split; [apply uniqueDeployments_In|].
  split; [|split; [apply Hid | apply Hid, Hnd]].
  intros d Hd. exact (filter_from_unique_first [] deployments d Hd).
Qed.

Lemma NoDup_map_filter {A B : Type} (f : A -> B) (p : A -> bool) (l : list A) :
  List.NoDup (map f l) -> List.NoDup (map f (List.filter p l)).
Proof.
  induction l as [|x l IH]; simpl; intros H; [constructor|].
  apply List.NoDup_cons_iff in H as [Hx Hl].
  destruct (p x); simpl; [|auto].
  constructor; [|auto]. intros Hin. apply Hx.
  apply in_map_iff in Hin as (y & Hy & Hin). apply filter_In in Hin as [Hin _].
  rewrite <- Hy. apply in_map. exact Hin.
Qed.

Lemma deployList_In
      (networkSubgraphDeployments offchainSubgraphs activeDeployments targetDeployments :
         list SubgraphDeploymentID) (d : SubgraphDeploymentID) :
  In d (deployList networkSubgraphDeployments offchainSubgraphs activeDeployments
          targetDeployments)
  <-> In d (augmentedTargetDeployments networkSubgraphDeployments offchainSubgraphs
              targetDeployments)
      /\ ~ In (bytes32 d) (map bytes32 activeDeployments).
Proof.
  unfold deployList. rewrite filter_In, negb_true_iff.
  rewrite <- (uniqueDeployments_In activeDeployments), <- deploymentInList_In.
  split; intros [H1 H2]; split; try assumption;
    [intros H; congruence | apply not_true_is_false; assumption].
Qed.

(** What [reconcileDeployments] ensures: by bytes32, exactly the target
    deployments, the pushed network subgraphs and the startup offchain
    subgraphs that are not active.  In particular every startup offchain
    subgraph is either active already or ensured, whatever the rules say.
    No deployment is ensured twice and none is removed twice. *)
Theorem reconcileDeployments_ensures
      (networkSubgraphDeployments offchainSubgraphs activeDeployments targetDeployments :
         list SubgraphDeploymentID)
      (eligibleAllocations : list Allocation) :
  let calls :=
    reconcileDeployments networkSubgraphDeployments offchainSubgraphs
      activeDeployments targetDeployments eligibleAllocations in
  let ensured :=
    deployList networkSubgraphDeployments offchainSubgraphs activeDeployments
      targetDeployments in
  let removed :=
    removeList networkSubgraphDeployments offchainSubgraphs activeDeployments
      targetDeployments eligibleAllocations in
  calls
  = map (fun d => ensure (String.append "indexer-agent/" (Js.sliceLast 10 (ipfsHash d))) d)
        ensured
    ++ map remove removed
  /\ (forall b : string,
         In b (map bytes32 ensured)
         <-> (In b (map bytes32 targetDeployments)
              \/ In b (map bytes32 networkSubgraphDeployments)
              \/ In b (map bytes32 offchainSubgraphs))
             /\ ~ In b (map bytes32 activeDeployments))
  /\ (forall d : SubgraphDeploymentID,
         In d offchainSubgraphs ->
         In (bytes32 d) (map bytes32 activeDeployments)
         \/ exists (name : string) (d' : SubgraphDeploymentID),
             In (ensure name d') calls /\ bytes32 d' = bytes32 d)
  /\ List.NoDup (map bytes32 ensured)
  /\ List.NoDup (map bytes32 removed).
Proof.
  intros calls ensured removed.
  assert (Hens : forall b, In b (map bytes32 ensured)
                   <-> (In b (map bytes32 targetDeployments)
                        \/ In b (map bytes32 networkSubgraphDeployments)
                        \/ In b (map bytes32 offchainSubgraphs))
                       /\ ~ In b (map bytes32 activeDeployments)).
  { intros b. rewrite <- augmentedTargetDeployments_In. split.
    - intros H. apply in_map_iff in H as (d & <- & Hd).
      apply deployList_In in Hd as [Hd Hn]. split; [apply in_map; exact Hd | exact Hn].
    - intros [H Hn]. apply in_map_iff in H as (d & <- & Hd).
      apply in_map. apply deployList_In. auto. }
  split; [reflexivity|]. split; [exact Hens|]. split; [|split].
  - intros d Hd.
    destruct (in_dec string_dec (bytes32 d) (map bytes32 activeDeployments))
      as [Hact|Hact]; [left; exact Hact | right].
    assert (Hin : In (bytes32 d) (map bytes32 ensured)).
    { apply Hens. split; [|exact Hact]. right. right. apply in_map. exact Hd. }
    apply in_map_iff in Hin as (d' & Hb & Hd').
    exists (String.append "indexer-agent/" (Js.sliceLast 10 (ipfsHash d'))), d'.
    split; [|exact Hb]. unfold calls, reconcileDeployments.
    apply in_or_app. left.
    apply (in_map (fun d0 => ensure (String.append "indexer-agent/"
                                       (Js.sliceLast 10 (ipfsHash d0))) d0)).
    exact Hd'.
  - unfold ensured, deployList. apply NoDup_map_filter.
    unfold augmentedTargetDeployments. apply (filter_from_unique_NoDup [] _).
  - unfold removed, removeList. apply NoDup_map_filter.
    apply (filter_from_unique_NoDup [] _).
Qed.

Lemma removeList_bytes32
      (networkSubgraphDeployments offchainSubgraphs activeDeployments targetDeployments :
         list SubgraphDeploymentID)
      (eligibleAllocations : list Allocation) (b : string) :
  In b (map bytes32
          (removeList networkSubgraphDeployments offchainSubgraphs activeDeployments
             targetDeployments eligibleAllocations))
  <-> In b (map bytes32 activeDeployments)
      /\ ~ In b (map bytes32
                   (augmentedTargetDeployments networkSubgraphDeployments
                      offchainSubgraphs targetDeployments))
      /\ ~ In b (map bytes32
                   (map (fun allocation =>
                           deployment_id (Allocation.subgraphDeployment allocation))
                        eligibleAllocations)).
Proof.
  split.
  - intros H. apply in_map_iff in H as (d & <- & Hd).
    apply removeList_In in Hd as (Ha & Ht & He). split; [|tauto].
    apply uniqueDeployments_In. apply in_map. exact Ha.
  - intros (Ha & Ht & He). apply uniqueDeployments_In in Ha.
    apply in_map_iff in Ha as (d & <- & Hd).
    apply in_map. apply removeList_In. tauto.
Qed.

(** [reconcileDeployments] calls the graph node only when there is
    something to change: it issues no call exactly when, by bytes32, every
    (augmented) target deployment is active and every active deployment is
    a target or backs an eligible allocation. *)
Theorem reconcileDeployments_in_sync
      (networkSubgraphDeployments offchainSubgraphs activeDeployments targetDeployments :
         list SubgraphDeploymentID)
      (eligibleAllocations : list Allocation) :
  let target :=
    augmentedTargetDeployments networkSubgraphDeployments offchainSubgraphs
      targetDeployments in
  let eligible :=
    map (fun allocation => deployment_id (Allocation.subgraphDeployment allocation))
        eligibleAllocations in
  reconcileDeployments networkSubgraphDeployments offchainSubgraphs
    activeDeployments targetDeployments eligibleAllocations = []
  <-> (forall b : string,
          In b (map bytes32 target) -> In b (map bytes32 activeDeployments))
      /\ (forall b : string,
             In b (map bytes32 activeDeployments) ->
             In b (map bytes32 target) \/ In b (map bytes32 eligible)).
Proof.
  intros target eligible.
  pose proof (removeList_bytes32 networkSubgraphDeployments offchainSubgraphs
                activeDeployments targetDeployments eligibleAllocations) as Hrem.
  fold target eligible in Hrem.
  unfold reconcileDeployments. split.
  - intros H. apply app_eq_nil in H as [Hd Hr].
    apply map_eq_nil in Hd, Hr. split.
    + intros b Hb.
      destruct (in_dec string_dec b (map bytes32 activeDeployments)) as [Ha|Ha];
        [exact Ha | exfalso].
      apply in_map_iff in Hb as (d & <- & Hd').
      assert (Hin : In d (deployList networkSubgraphDeployments offchainSubgraphs
                            activeDeployments targetDeployments))
        by (apply deployList_In; auto).
      rewrite Hd in Hin. exact Hin.
    + intros b Hb.
      destruct (in_dec string_dec b (map bytes32 target)) as [Ht|Ht]; [left; exact Ht|].
      destruct (in_dec string_dec b (map bytes32 eligible)) as [He|He]; [right; exact He|].
      exfalso.
      assert (Hin : In b (map bytes32
                            (removeList networkSubgraphDeployments offchainSubgraphs
                               activeDeployments targetDeployments eligibleAllocations)))
        by (apply Hrem; tauto).
      rewrite Hr in Hin. exact Hin.
  - intros [Hsub Hcov].
    assert (Hd : deployList networkSubgraphDeployments offchainSubgraphs
                   activeDeployments targetDeployments = []).
    { destruct (deployList _ _ _ _) as [|d l] eqn:E; [reflexivity | exfalso].
      assert (Hin : In d (deployList networkSubgraphDeployments offchainSubgraphs
                            activeDeployments targetDeployments))
        by (rewrite E; left; reflexivity).
      apply deployList_In in Hin as [Hin Hn]. apply Hn, Hsub, in_map, Hin. }
    assert (Hr : removeList networkSubgraphDeployments offchainSubgraphs
                   activeDeployments targetDeployments eligibleAllocations = []).
    { destruct (removeList networkSubgraphDeployments offchainSubgraphs
                  activeDeployments targetDeployments eligibleAllocations)
        as [|d l] eqn:E; [reflexivity | exfalso].
      assert (Hin : In (bytes32 d) (map bytes32 (d :: l))) by (left; reflexivity).
      apply Hrem in Hin as (Ha & Ht & He). destruct (Hcov _ Ha); contradiction. }
    rewrite Hd, Hr. reflexivity.
Qed.

(** * Further properties of the allocation actions *)

Lemma Act_bind_calls {A B : Type} (m : Act A) (k : A -> Act B) :
  calls (m ≫= k)
  = calls m ++ match outcome m with
               | Ok a => calls (k a)
               | Throw => []
               end.
Proof.
  destruct m as [c [a|]]; unfold mbind, Act_bind; simpl.
  - destruct (k a); reflexivity.
  - rewrite app_nil_r. reflexivity.
Qed.

Lemma Act_bind_outcome {A B : Type} (m : Act A) (k : A -> Act B) :
  outcome (m ≫= k)
  = match outcome m with
    | Ok a => outcome (k a)
    | Throw => Throw
    end.
Proof.
  destruct m as [c [a|]]; unfold mbind, Act_bind; simpl; [|reflexivity].
  destruct (k a); reflexivity.
Qed.

(** The active allocations of the decision's deployment, as
    [reconcileDeploymentAllocationAction] selects them. *)
Lemma allocation_action_read_failure (d : AllocationDecision)
      (epoch maxAllocationEpochs : Z) (network : Network) (operator : Operator) :
  networkMonitor_allocations network ACTIVE = Throw ->
  reconcileDeploymentAllocationAction d epoch maxAllocationEpochs network operator
  = act [] Throw.
Proof.
  intros H. unfold reconcileDeploymentAllocationAction. rewrite H. reflexivity.
Qed.

(** [reconcileDeploymentAllocationAction], case by case. *)
Lemma allocation_action_unfold (d : AllocationDecision)
      (epoch maxAllocationEpochs : Z) (network : Network) (operator : Operator) :
  reconcileDeploymentAllocationAction d epoch maxAllocationEpochs network operator
  = match networkMonitor_allocations network ACTIVE with
    | Throw => act [] Throw
    | Ok active =>
        let protocolNetwork := networkIdentifier (operator_specification operator) in
        let mine :=
          List.filter
            (fun allocation =>
               String.eqb
                 (bytes32 (deployment_id (Allocation.subgraphDeployment allocation)))
                 (bytes32 (AllocationDecision.deployment d)))
            active in
        if AllocationDecision.toAllocate d
        then
          match mine with
          | [] =>
              match networkMonitor_closedAllocations network
                      (AllocationDecision.deployment d) with
              | Ok closed =>
                  act [createAllocation protocolNetwork d (head closed)] (Ok tt)
              | Throw => act [] Throw
              end
          | _ :: _ =>
              match identifyExpiringAllocations mine d epoch maxAllocationEpochs
                      network with
              | [] => act [] (Ok tt)
              | expiring =>
                  act [refreshExpiredAllocations protocolNetwork d expiring] (Ok tt)
              end
          end
        else act [closeEligibleAllocations protocolNetwork d mine epoch] (Ok tt)
    end.
Proof.
  unfold reconcileDeploymentAllocationAction.
  destruct (networkMonitor_allocations network ACTIVE) as [active|]; [|reflexivity].
  simpl. destruct (AllocationDecision.toAllocate d); simpl; [|reflexivity].
  destruct (List.filter _ active) as [|a mine]; simpl.
  - destruct (networkMonitor_closedAllocations _ _); reflexivity.
  - destruct (identifyExpiringAllocations _ _ _ _ _); reflexivity.
Qed.

(** What [reconcileDeploymentAllocationAction] issues. *)
Lemma allocation_action_spec (d : AllocationDecision)
        (epoch maxAllocationEpochs : Z) (network : Network) (operator : Operator) :
  let run :=
    reconcileDeploymentAllocationAction d epoch maxAllocationEpochs network operator in
  (length (calls run) <= 1)%nat
  /\ (outcome run = Throw -> calls run = [])
  /\ forall c : OperatorCall,
      In c (calls run) ->
      callNetwork c = networkIdentifier (operator_specification operator)
      /\ callDecision c = d
      /\ exists active : list Allocation,
          networkMonitor_allocations network ACTIVE = Ok active
          /\ let mine :=
               List.filter
                 (fun allocation =>
                    String.eqb
                      (bytes32 (deployment_id (Allocation.subgraphDeployment allocation)))
                      (bytes32 (AllocationDecision.deployment d)))
                 active in
             match c with
             | closeEligibleAllocations _ _ allocations e =>
                 AllocationDecision.toAllocate d = false
                 /\ allocations = mine /\ e = epoch
             | createAllocation _ _ mostRecentlyClosed =>
                 AllocationDecision.toAllocate d = true
                 /\ mine = []
                 /\ exists closed : list Allocation,
                     networkMonitor_closedAllocations network
                       (AllocationDecision.deployment d) = Ok closed
                     /\ mostRecentlyClosed = head closed
             | refreshExpiredAllocations _ _ expiring =>
                 AllocationDecision.toAllocate d = true
                 /\ mine <> [] /\ expiring <> []
                 /\ expiring
                    = identifyExpiringAllocations mine d epoch maxAllocationEpochs network
             end.
Proof.
  intros run. unfold run. rewrite allocation_action_unfold.
  destruct (networkMonitor_allocations network ACTIVE) as [active|] eqn:Hact;
    [|simpl; split; [lia|]; split; [intros _; reflexivity | intros c0 []]].
  cbv zeta. remember (List.filter _ active) as mine eqn:Hmine.
  destruct (AllocationDecision.toAllocate d) eqn:Hto.
  - destruct mine as [|a0 mine0].
    + destruct (networkMonitor_closedAllocations network (AllocationDecision.deployment d))
        as [closed|] eqn:Hclosed; simpl.
      * split; [lia|]. split; [intros H; discriminate H|].
        intros c [<-|[]]. split; [reflexivity|]. split; [reflexivity|].
        exists active. split; [reflexivity|]. rewrite <- Hmine.
        split; [reflexivity|]. split; [reflexivity|]. exists closed. auto.
      * split; [lia|]. split; [intros _; reflexivity | intros c []].
    + destruct (identifyExpiringAllocations (a0 :: mine0) d epoch maxAllocationEpochs
                  network) as [|x expiring] eqn:Hexp; simpl.
      * split; [lia|]. split; [intros H; discriminate H | intros c []].
      * split; [lia|]. split; [intros H; discriminate H|].
        intros c [<-|[]]. split; [reflexivity|]. split; [reflexivity|].
        exists active. split; [reflexivity|]. rewrite <- Hmine.
        split; [reflexivity|]. split; [discriminate|]. split; [discriminate|].
        symmetry. exact Hexp.
  - simpl. split; [lia|]. split; [intros H; discriminate H|].
    intros c [<-|[]]. split; [reflexivity|]. split; [reflexivity|].
    exists active. split; [reflexivity|]. rewrite <- Hmine. auto.
Qed.


(** No allocation is opened on a deployment that has an active allocation:
    whenever the fresh read reports an active allocation of the decision's
    deployment (by bytes32), or the decision is not to allocate, no
    [createAllocation] is issued. *)
Theorem allocation_action_never_doubles (d : AllocationDecision)
        (epoch maxAllocationEpochs : Z) (network : Network) (operator : Operator)
        (active : list Allocation) (a : Allocation) :
  networkMonitor_allocations network ACTIVE = Ok active ->
  AllocationDecision.toAllocate d = false
  \/ (In a active
      /\ bytes32 (deployment_id (Allocation.subgraphDeployment a))
         = bytes32 (AllocationDecision.deployment d)) ->
  Forall (fun c => match c with
                   | createAllocation _ _ _ => False
                   | _ => True
                   end)
         (calls (reconcileDeploymentAllocationAction d epoch maxAllocationEpochs
                   network operator)).
Proof.
  intros Hact Hwhy. apply List.Forall_forall. intros c Hin.
  destruct (allocation_action_spec d epoch maxAllocationEpochs network operator)
    as (_ & _ & Hall).
  destruct (Hall _ Hin) as (_ & _ & active' & Hact' & Hcase).
  assert (active' = active) by congruence. subst active'.
  destruct c as [n d' recent| |]; [|exact I | exact I].
  destruct Hcase as (Hto & Hmine & _).
  destruct Hwhy as [Hno|[Ha Hb]]; [congruence|].
  assert (Hin' : In a (List.filter
                         (fun allocation =>
                            String.eqb
                              (bytes32 (deployment_id
                                          (Allocation.subgraphDeployment allocation)))
                              (bytes32 (AllocationDecision.deployment d)))
                         active)).
  { apply filter_In. split; [exact Ha|]. apply String.eqb_eq. exact Hb. }
  rewrite Hmine in Hin'. exact Hin'.
Qed.

(** A decision to allocate on deployment A, which has an active
    allocation created in the current epoch: nothing is created. *)
Lemma allocation_action_never_doubles_witness :
  let a := Example.allocationOnA "0xa1" 10 None None ACTIVE in
  Forall (fun c => match c with
                   | createAllocation _ _ _ => False
                   | _ => True
                   end)
         (calls (reconcileDeploymentAllocationAction
                   (Example.decisionFor Example.deploymentA' true None) 10 28
                   (Example.networkFor AUTO [a]) (Example.operatorFor AUTO))).
Proof.
  intros a.
  apply (allocation_action_never_doubles
           (Example.decisionFor Example.deploymentA' true None) 10 28
           (Example.networkFor AUTO [a]) (Example.operatorFor AUTO) [a] a).
  - reflexivity.
  - right. split; [left; reflexivity | reflexivity].
Defined.

(** * Further properties of the expiring allocations *)

Lemma desiredAllocationLifetime_default (d : AllocationDecision) (maxAllocationEpochs : Z) :
  truthyNumber
    match rule (AllocationDecision.ruleMatch d) with
    | Some r => IndexingRule.allocationLifetime r
    | None => None
    end = false ->
  desiredAllocationLifetime d maxAllocationEpochs = Z.max 1 (maxAllocationEpochs - 1).
Proof.
  unfold desiredAllocationLifetime. intros ->. reflexivity.
Qed.

Lemma identifyExpiringAllocations_In (activeAllocations : list Allocation)
      (d : AllocationDecision) (epoch maxAllocationEpochs : Z) (network : Network)
      (a : Allocation) :
  In a (identifyExpiringAllocations activeAllocations d epoch maxAllocationEpochs network)
  <-> In a activeAllocations
      /\ Allocation.createdAtEpoch a + desiredAllocationLifetime d maxAllocationEpochs
         <= epoch
      /\ openOnChain network a = true.
Proof.
  unfold identifyExpiringAllocations. rewrite !filter_In, Z.geb_le. tauto.
Qed.

(** Expiry is monotone and never immediate by default.  An allocation
    found expiring at some epoch is found expiring at every later epoch
    (the contract reads being the same).  When the decision's rule sets no
    lifetime (or sets 0), the lifetime is at least one epoch and at least
    [maxAllocationEpochs - 1]: an allocation is never found expiring in
    the epoch it was created in, nor before [maxAllocationEpochs - 1]
    epochs have passed. *)
Theorem identifyExpiringAllocations_monotone (activeAllocations : list Allocation)
        (d : AllocationDecision) (maxAllocationEpochs : Z) (network : Network) :
  (forall (epoch epoch' : Z) (a : Allocation),
      epoch <= epoch' ->
      In a (identifyExpiringAllocations activeAllocations d epoch maxAllocationEpochs
              network) ->
      In a (identifyExpiringAllocations activeAllocations d epoch' maxAllocationEpochs
              network))
  /\ (truthyNumber
        match rule (AllocationDecision.ruleMatch d) with
        | Some r => IndexingRule.allocationLifetime r
        | None => None
        end = false ->
      forall (epoch : Z) (a : Allocation),
        In a (identifyExpiringAllocations activeAllocations d epoch maxAllocationEpochs
                network) ->
        Allocation.createdAtEpoch a < epoch
        /\ Allocation.createdAtEpoch a + (maxAllocationEpochs - 1) <= epoch).
Proof.
  split.
  - intros epoch epoch' a Hle Hin. apply identifyExpiringAllocations_In in Hin.
    apply identifyExpiringAllocations_In. intuition lia.
  - intros Hdefault epoch a Hin. apply identifyExpiringAllocations_In in Hin.
    rewrite (desiredAllocationLifetime_default d maxAllocationEpochs Hdefault) in Hin.
    lia.
Qed.

(** * Further properties of the network-subgraph guard *)

Lemma existsb_first {A : Type} (p : A -> bool) (l : list A) :
  existsb p l = true ->
  exists (pre : list A) (x : A) (rest : list A),
    l = pre ++ x :: rest /\ existsb p pre = false /\ p x = true.
Proof.
  induction l as [|y l IH]; simpl; [discriminate|].
  destruct (p y) eqn:Hy; simpl.
  - intros _. exists [], y, l. auto.
  - intros H. destruct (IH H) as (pre & x & rest & -> & Hpre & Hx).
    exists (y :: pre), x, rest. simpl. rewrite Hy. auto.
Qed.

Lemma findIndex_from_none {A : Type} (p : A -> bool) (l : list A) (i : Z) :
  existsb p l = false -> Js.findIndex_from p l i = -1.
Proof.
  revert i. induction l as [|y l IH]; simpl; intros i H; [reflexivity|].
  apply orb_false_elim in H as [Hy Hl]. rewrite Hy. apply IH. exact Hl.
Qed.

Lemma alter_middle {A : Type} (f : A -> A) (pre : list A) (x : A) (rest : list A) :
  alter f (length pre) (pre ++ x :: rest) = pre ++ f x :: rest.
Proof. induction pre as [|y pre IH]; simpl; [reflexivity|]. f_equal. exact IH. Qed.

(** With the guard in force, the first decision for the network subgraph
    is the one cleared. *)
Lemma networkSubgraphGuard_at_first (network : Network) (nsd : SubgraphDeployment)
      (pre : list AllocationDecision) (d : AllocationDecision)
      (rest : list AllocationDecision) :
  networkSubgraph_deployment network = Some nsd ->
  allocateOnNetworkSubgraph (indexerOptions (specification network)) = false ->
  existsb (fun decision =>
             String.eqb (bytes32 (AllocationDecision.deployment decision))
                        (bytes32 (deployment_id nsd))) pre = false ->
  bytes32 (AllocationDecision.deployment d) = bytes32 (deployment_id nsd) ->
  networkSubgraphGuard network (pre ++ d :: rest)
  = pre ++ AllocationDecision.setToAllocate d false :: rest.
Proof.
  intros Hnsd Hflag Hpre Hd. unfold networkSubgraphGuard, Js.findIndex.
  rewrite Hnsd, Hflag. simpl.
  rewrite findIndex_from_fresh by (try assumption; apply String.eqb_eq; exact Hd).
  replace (0 + Z.of_nat (length pre) >=? 0) with true
    by (symmetry; apply Z.geb_le; lia).
  replace (Z.to_nat (0 + Z.of_nat (length pre))) with (length pre) by lia.
  exact (alter_middle (fun decision => AllocationDecision.setToAllocate decision false)
           pre d rest).
Qed.

Lemma networkSubgraphGuard_no_match (network : Network)
      (nsd : SubgraphDeployment) (ds : list AllocationDecision) :
  networkSubgraph_deployment network = Some nsd ->
  existsb (fun decision =>
             String.eqb (bytes32 (AllocationDecision.deployment decision))
                        (bytes32 (deployment_id nsd))) ds = false ->
  networkSubgraphGuard network ds = ds.
Proof.
  intros Hnsd Hno. unfold networkSubgraphGuard, Js.findIndex. rewrite Hnsd.
  destruct (negb _); [|reflexivity].
  rewrite (findIndex_from_none _ _ _ Hno). reflexivity.
Qed.

(** The guard, decision by decision: when the network subgraph is
    configured and [allocateOnNetworkSubgraph] is false, a decision of the
    guarded list that is still to allocate on the network subgraph (by
    bytes32) is never the first decision for it; so when the decisions are
    for pairwise distinct deployments, none is left to allocate on it. *)
Lemma networkSubgraphGuard_forced (network : Network) (nsd : SubgraphDeployment)
      (ds : list AllocationDecision) :
  networkSubgraph_deployment network = Some nsd ->
  allocateOnNetworkSubgraph (indexerOptions (specification network)) = false ->
  List.NoDup (map (fun d => bytes32 (AllocationDecision.deployment d)) ds) ->
  forall d' : AllocationDecision,
    In d' (networkSubgraphGuard network ds) ->
    bytes32 (AllocationDecision.deployment d') = bytes32 (deployment_id nsd) ->
    AllocationDecision.toAllocate d' = false.
Proof.
  intros Hnsd Hflag Hnd d' Hin Hmatch.
  destruct (existsb (fun decision =>
                       String.eqb (bytes32 (AllocationDecision.deployment decision))
                                  (bytes32 (deployment_id nsd))) ds) eqn:E.
  - apply existsb_first in E as (pre & d & rest & -> & Hpre & Hd).
    apply String.eqb_eq in Hd.
    rewrite (networkSubgraphGuard_at_first network nsd pre d rest Hnsd Hflag Hpre Hd)
      in Hin.
    apply in_app_or in Hin as [Hin|[<-|Hin]].
    + exfalso. assert (Hex : existsb (fun decision =>
                         String.eqb (bytes32 (AllocationDecision.deployment decision))
                                    (bytes32 (deployment_id nsd))) pre = true).
      { apply existsb_exists. exists d'. split; [exact Hin|].
        apply String.eqb_eq. exact Hmatch. }
      congruence.
    + reflexivity.
    + exfalso. rewrite map_app in Hnd. simpl in Hnd.
      apply List.NoDup_remove_2 in Hnd. apply Hnd. apply in_or_app. right.
      rewrite Hd, <- Hmatch.
      apply (in_map (fun d0 => bytes32 (AllocationDecision.deployment d0))). exact Hin.
  - rewrite (networkSubgraphGuard_no_match network nsd ds Hnsd E) in Hin.
    exfalso.
    assert (Hex : existsb (fun decision =>
                       String.eqb (bytes32 (AllocationDecision.deployment decision))
                                  (bytes32 (deployment_id nsd))) ds = true).
    { apply existsb_exists. exists d'. split; [exact Hin|].
      apply String.eqb_eq. exact Hmatch. }
    congruence.
Qed.

(** The network subgraph is never left to allocate on: when it is
    configured, [allocateOnNetworkSubgraph] is false and the decisions are
    for pairwise distinct deployments (one decision per deployment), no
    decision of the guarded list for the network subgraph has
    [toAllocate = true]. *)
Theorem networkSubgraphGuard_forces (network : Network) (nsd : SubgraphDeployment)
        (ds : list AllocationDecision) :
  networkSubgraph_deployment network = Some nsd ->
  allocateOnNetworkSubgraph (indexerOptions (specification network)) = false ->
  List.NoDup (map (fun d => bytes32 (AllocationDecision.deployment d)) ds) ->
  Forall (fun d' =>
            bytes32 (AllocationDecision.deployment d') = bytes32 (deployment_id nsd) ->
            AllocationDecision.toAllocate d' = false)
         (networkSubgraphGuard network ds).
Proof.
  intros Hnsd Hflag Hnd. apply List.Forall_forall. intros d' Hin.
  eapply networkSubgraphGuard_forced; eassumption.
Qed.

(** The guard is idempotent: applied to its own result it changes
    nothing. *)
Theorem networkSubgraphGuard_idempotent (network : Network)
        (ds : list AllocationDecision) :
  networkSubgraphGuard network (networkSubgraphGuard network ds)
  = networkSubgraphGuard network ds.
Proof.
  destruct (networkSubgraph_deployment network) as [nsd|] eqn:Hnsd;
    [|unfold networkSubgraphGuard; rewrite Hnsd; reflexivity].
  destruct (allocateOnNetworkSubgraph (indexerOptions (specification network)))
    eqn:Hflag; [unfold networkSubgraphGuard; rewrite Hnsd, Hflag; reflexivity|].
  destruct (existsb (fun decision =>
                       String.eqb (bytes32 (AllocationDecision.deployment decision))
                                  (bytes32 (deployment_id nsd))) ds) eqn:E.
  - apply existsb_first in E as (pre & d & rest & -> & Hpre & Hd).
    apply String.eqb_eq in Hd.
    rewrite (networkSubgraphGuard_at_first network nsd pre d rest Hnsd Hflag Hpre Hd).
    apply (networkSubgraphGuard_at_first network nsd pre
             (AllocationDecision.setToAllocate d false) rest Hnsd Hflag Hpre Hd).
  - rewrite (networkSubgraphGuard_no_match network nsd ds Hnsd E).
    apply (networkSubgraphGuard_no_match network nsd ds Hnsd E).
Qed.

Lemma networkSubgraphGuard_forces_witness :
  Forall (fun d' =>
            bytes32 (AllocationDecision.deployment d')
            = bytes32 (deployment_id (mkSubgraphDeployment Example.deploymentC)) ->
            AllocationDecision.toAllocate d' = false)
         (networkSubgraphGuard GuardExample.guardedNetwork GuardExample.decisions).
Proof.
  apply (networkSubgraphGuard_forces GuardExample.guardedNetwork
           (mkSubgraphDeployment Example.deploymentC) GuardExample.decisions).
  - reflexivity.
  - reflexivity.
  - simpl. repeat constructor; simpl; intuition discriminate.
Defined.

(** * Further properties of the action reconciler *)

Lemma pMap_calls {A B : Type} (f : A -> Act B) (l : list A) (c : OperatorCall) :
  In c (calls (pMap f l)) <-> exists x : A, In x l /\ In c (calls (f x)).
Proof.
  induction l as [|x l IH]; simpl.
  - split; [contradiction | intros (x & [] & _)].
  - destruct (f x) as [c1 r1] eqn:Hx, (pMap f l) as [c2 r2]. simpl in *.
    rewrite in_app_iff, IH. split.
    + intros [H|(y & Hy & H)].
      * exists x. rewrite Hx. auto.
      * exists y. auto.
    + intros (y & [<-|Hy] & H).
      * rewrite Hx in H. auto.
      * right. exists y. auto.
Qed.

Lemma pMap_outcome {A B : Type} (f : A -> Act B) (l : list A) (ys : list B) :
  outcome (pMap f l) = Ok ys -> Forall2 (fun x y => outcome (f x) = Ok y) l ys.
Proof.
  revert ys. induction l as [|x l IH]; simpl; intros ys H.
  - injection H as <-. constructor.
  - destruct (f x) as [c1 r1] eqn:Hx, (pMap f l) as [c2 r2]. simpl in *.
    destruct r1 as [y|]; simpl in H; [|discriminate].
    destruct r2 as [ys'|]; simpl in H; [|discriminate].
    injection H as <-. constructor; [rewrite Hx; reflexivity | apply IH; reflexivity].
Qed.

(** Where the calls of a [mapNetworkMapped] come from. *)
Lemma mapNetworkMapped_calls {T U : Type} (inner : gmap string NetworkAndOperator)
      (nmap : gmap string T) (func : NetworkAndOperator -> T -> Act U)
      (c : OperatorCall) :
  In c (calls (await (mapNetworkMapped inner nmap func))) ->
  exists (k : string) (v : T) (item : NetworkAndOperator),
    nmap !! k = Some v /\ inner !! k = Some item /\ In c (calls (func item v)).
Proof.
  unfold mapNetworkMapped, await. rewrite Act_bind_calls, in_app_iff.
  intros [H|H].
  - apply pMap_calls in H as ([k v] & Hkv & H). simpl in H.
    apply list_elem_of_In, elem_of_map_to_list in Hkv.
    destruct (inner !! k) as [item|] eqn:Hitem; [|destruct H].
    rewrite Act_bind_calls, in_app_iff in H. destruct H as [H|H].
    + exists k, v, item. auto.
    + destruct (outcome (func item v)); destruct H.
  - destruct (outcome (pMap _ _)); destruct H.
Qed.

(** What a [mapNetworkMapped] resolves to. *)
Lemma mapNetworkMapped_outcome {T U : Type} (inner : gmap string NetworkAndOperator)
      (nmap : gmap string T) (func : NetworkAndOperator -> T -> Act U)
      (r : gmap string U) (k : string) (u : U) :
  outcome (await (mapNetworkMapped inner nmap func)) = Ok r ->
  r !! k = Some u ->
  exists (v : T) (item : NetworkAndOperator),
    nmap !! k = Some v /\ inner !! k = Some item /\ outcome (func item v) = Ok u.
Proof.
  unfold mapNetworkMapped, await. rewrite Act_bind_outcome.
  destruct (outcome (pMap _ (map_to_list nmap))) as [entries|] eqn:Hentries;
    [|discriminate].
  simpl. intros H Hk. injection H as <-.
  apply elem_of_list_to_map_2 in Hk.
  apply pMap_outcome in Hentries.
  apply list_elem_of_In in Hk.
  destruct (Forall2_In_right _ _ _ _ Hentries Hk) as ([k' v] & Hkv & Hout).
  simpl in Hout. apply list_elem_of_In, elem_of_map_to_list in Hkv.
  destruct (inner !! k') as [item|] eqn:Hitem; [|discriminate].
  rewrite Act_bind_outcome in Hout.
  destruct (outcome (func item v)) as [u'|] eqn:Hu; [|discriminate].
  simpl in Hout. injection Hout as -> ->.
  exists v, item. auto.
Qed.

(** Where the calls of [reconcileActions] come from: each is issued for a
    decision of the guarded list of a network that has decisions and is
    among the agent's networks, on that network's operator. *)
Lemma reconcileActions_call_origin (multiNetworks : gmap string NetworkAndOperator)
      (decisions : gmap string (list AllocationDecision))
      (activeAllocations : gmap string (list Allocation))
      (epoch maxAllocationEpochs : gmap string Z) (c : OperatorCall) :
  In c (calls (reconcileActions multiNetworks decisions activeAllocations epoch
                 maxAllocationEpochs)) ->
  exists (k : string) (item : NetworkAndOperator) (ds : list AllocationDecision)
         (e m : Z),
    multiNetworks !! k = Some item /\ decisions !! k = Some ds
    /\ epoch !! k = Some e /\ maxAllocationEpochs !! k = Some m
    /\ In (callDecision c) (networkSubgraphGuard (network item) ds)
    /\ In c (calls (reconcileDeploymentAllocationAction (callDecision c) e m
                      (network item) (operator item))).
Proof.
  unfold reconcileActions. rewrite manual_mode_filter_keeps_everything.
  destruct (bool_decide (decisions = ∅)); [intros []|].
  rewrite Act_bind_calls, in_app_iff. intros [H|H].
  { apply mapNetworkMapped_calls in H as (k & v & item & _ & _ & []). }
  destruct (outcome (await (mapNetworkMapped multiNetworks decisions _)))
    as [filtered|] eqn:Hfiltered; [|destruct H].
  rewrite Act_bind_calls in H. unfold lift in H.
  cbn [calls outcome app] in H.
  destruct (zip4 multiNetworks filtered activeAllocations epoch maxAllocationEpochs)
    as [zipped|] eqn:Hzip; [|destruct H].
  rewrite Act_bind_calls, in_app_iff in H. destruct H as [H|H].
  2:{ destruct (outcome (await (mapNetworkMapped multiNetworks zipped _)));
      exact (False_ind _ H). }
  apply mapNetworkMapped_calls in H as (k & [[[ds' act'] e] m] & item & Hk & Hitem & H).
  apply pMap_calls in H as (d & Hd & H).
  unfold zip4 in Hzip. destruct (bool_decide _); [|discriminate].
  injection Hzip as <-.
  apply map_lookup_zip_with_Some in Hk as ([x1 x2] & [y1 y2] & Heq & Hab & Hcd).
  simpl in Heq. injection Heq as -> -> -> ->.
  apply map_lookup_zip_with_Some in Hab as (x & y & Heq & Hx & _).
  injection Heq as -> ->.
  apply map_lookup_zip_with_Some in Hcd as (x' & y' & Heq & He & Hm).
  injection Heq as -> ->.
  destruct (mapNetworkMapped_outcome _ _ _ _ _ _ Hfiltered Hx)
    as (v & item' & Hv & Hitem' & Hout).
  assert (item' = item) by congruence. subst item'.
  simpl in Hout. injection Hout as <-.
  destruct (allocation_action_spec d x' y' (network item) (operator item))
    as (_ & _ & Hall).
  destruct (Hall c H) as (_ & Hcd & _). subst d.
  exists k, item, v, x', y'. auto 10.
Qed.

(** Every operator call of [reconcileActions] is issued on the operator
    of one of the agent's networks, for a decision that this network has
    in the dictionary of decisions (as left by the network-subgraph
    guard); and a dictionary without networks yields no call at all. *)
Theorem reconcileActions_calls_are_for_decisions
        (multiNetworks : gmap string NetworkAndOperator)
        (decisions : gmap string (list AllocationDecision))
        (activeAllocations : gmap string (list Allocation))
        (epoch maxAllocationEpochs : gmap string Z) :
  let run :=
    reconcileActions multiNetworks decisions activeAllocations epoch
      maxAllocationEpochs in
  (decisions = ∅ -> run = act [] (Ok tt))
  /\ forall c : OperatorCall,
      In c (calls run) ->
      exists (k : string) (item : NetworkAndOperator) (ds : list AllocationDecision),
        multiNetworks !! k = Some item /\ decisions !! k = Some ds
        /\ callNetwork c = networkIdentifier (operator_specification (operator item))
        /\ In (callDecision c) (networkSubgraphGuard (network item) ds).
Proof.
  intros run. split.
  - intros ->. reflexivity.
  - intros c Hc.
    destruct (reconcileActions_call_origin _ _ _ _ _ c Hc)
      as (k & item & ds & e & m & Hitem & Hds & _ & _ & Hguard & Hcall).
    exists k, item, ds. repeat split; try assumption.
    destruct (allocation_action_spec (callDecision c) e m (network item) (operator item))
      as (_ & _ & Hall).
    destruct (Hall c Hcall) as (Hnet & _). exact Hnet.
Qed.

(** [reconcileActions] never opens or refreshes an allocation on a
    network's own subgraph: a call that allocates (create or refresh)
    comes from a network for which, if its network subgraph is configured,
    [allocateOnNetworkSubgraph] is false and its decisions are for
    pairwise distinct deployments, the call's deployment is not the
    network subgraph (by bytes32). *)
Theorem reconcileActions_spares_network_subgraph
        (multiNetworks : gmap string NetworkAndOperator)
        (decisions : gmap string (list AllocationDecision))
        (activeAllocations : gmap string (list Allocation))
        (epoch maxAllocationEpochs : gmap string Z) :
  forall c : OperatorCall,
    In c (calls (reconcileActions multiNetworks decisions activeAllocations epoch
                   maxAllocationEpochs))
    /\ allocates c = true ->
    exists (k : string) (item : NetworkAndOperator) (ds : list AllocationDecision),
      multiNetworks !! k = Some item /\ decisions !! k = Some ds
      /\ callNetwork c = networkIdentifier (operator_specification (operator item))
      /\ forall nsd : SubgraphDeployment,
          networkSubgraph_deployment (network item) = Some nsd ->
          allocateOnNetworkSubgraph (indexerOptions (specification (network item)))
          = false ->
          List.NoDup (map (fun d => bytes32 (AllocationDecision.deployment d)) ds) ->
          bytes32 (AllocationDecision.deployment (callDecision c))
          <> bytes32 (deployment_id nsd).
Proof.
  intros c [Hc Halloc].
  destruct (reconcileActions_call_origin _ _ _ _ _ c Hc)
    as (k & item & ds & e & m & Hitem & Hds & _ & _ & Hguard & Hcall).
  destruct (allocation_action_spec (callDecision c) e m (network item) (operator item))
    as (_ & _ & Hall).
  destruct (Hall c Hcall) as (Hnet & _ & active & _ & Hcase).
  exists k, item, ds. repeat split; try assumption.
  intros nsd Hnsd Hflag Hnd Hmatch.
  pose proof (networkSubgraphGuard_forced (network item) nsd ds Hnsd Hflag Hnd
                (callDecision c) Hguard Hmatch) as Hoff.
  destruct c; simpl in *; try discriminate; destruct Hcase as (Hto & _); congruence.
Qed.

Lemma reconcileActions_spares_network_subgraph_witness :
  let c := createAllocation Example.mainnet
             (Example.decisionFor Example.deploymentA true None) None in
  exists (k : string) (item : NetworkAndOperator) (ds : list AllocationDecision),
    GuardExample.guardedNetworks !! k = Some item
    /\ ({[ Example.mainnet := GuardExample.decisions ]}
        : gmap string (list AllocationDecision)) !! k = Some ds
    /\ callNetwork c = networkIdentifier (operator_specification (operator item))
    /\ forall nsd : SubgraphDeployment,
        networkSubgraph_deployment (network item) = Some nsd ->
        allocateOnNetworkSubgraph (indexerOptions (specification (network item)))
        = false ->
        List.NoDup (map (fun d => bytes32 (AllocationDecision.deployment d)) ds) ->
        bytes32 (AllocationDecision.deployment (callDecision c))
        <> bytes32 (deployment_id nsd).
Proof.
  intros c.
  apply (reconcileActions_spares_network_subgraph GuardExample.guardedNetworks
           ({[ Example.mainnet := GuardExample.decisions ]})
           ({[ Example.mainnet := [] ]})
           ({[ Example.mainnet := 10 ]})
           ({[ Example.mainnet := 28 ]}) c).
  split; [|reflexivity].
  vm_compute. right. left. reflexivity.
Defined.

(** * Further properties of the dispute identifier *)

Lemma mapR_Throw {A B : Type} (f : A -> Result B) (l : list A) (x : A) :
  In x l -> f x = Throw -> mapR f l = Throw.
Proof.
  induction l as [|y l IH]; simpl; [contradiction|].
  intros [->|Hin] Hx.
  - rewrite Hx. reflexivity.
  - destruct (f y); [|reflexivity]. simpl. rewrite (IH Hin Hx). reflexivity.
Qed.

Lemma fillRewardsPool_keeps
      (proofOfIndexing : SubgraphDeploymentID -> Block -> string -> Result (option string))
      (network : Network) (pool pool' : RewardsPool) :
  fillRewardsPool proofOfIndexing network pool = Ok pool' ->
  RewardsPool.subgraphDeployment pool' = RewardsPool.subgraphDeployment pool
  /\ RewardsPool.closedAtEpoch pool' = RewardsPool.closedAtEpoch pool.
Proof.
  unfold fillRewardsPool. intros H.
  destruct (networkProvider_getBlock network (RewardsPool.closedAtEpochStartBlockHash pool))
    as [b1|]; simpl in H; [|discriminate H].
  destruct (networkProvider_getBlock network (RewardsPool.previousEpochStartBlockHash pool))
    as [b2|]; simpl in H; [|discriminate H].
  destruct (proofOfIndexing (RewardsPool.subgraphDeployment pool)
              (mkBlock (number b1) (hash b1)) (RewardsPool.allocationIndexer pool));
    simpl in H; [|discriminate H].
  destruct (proofOfIndexing (RewardsPool.subgraphDeployment pool)
              (mkBlock (number b2) (hash b2)) (RewardsPool.allocationIndexer pool));
    simpl in H; [|discriminate H].
  injection H as <-. split; reflexivity.
Qed.



(** One dispute per new allocation: a run that stores has built exactly
    one dispute for each new disputable allocation, in their order, and
    none for an allocation already processed; each carries the
    allocation's id, indexer, tokens, POI, closing epoch and block hash,
    the deployment's IPFS hash and the network's identifier. *)
Theorem identifyPotentialDisputes_one_dispute_each
      (proofOfIndexing : SubgraphDeploymentID -> Block -> string -> Result (option string))
      (operator : Operator) (network : Network) (store : list POIDisputeAttributes)
      (disputableAllocations : list Allocation) (disputableEpoch : Z)
      (disputes store' : list POIDisputeAttributes) :
  identifyPotentialDisputes proofOfIndexing operator network store
    disputableAllocations disputableEpoch = Ok (Stored disputes store') ->
  let new :=
    newDisputableAllocations operator store disputableAllocations disputableEpoch in
  new <> []
  /\ map POIDispute.allocationID disputes = map Allocation.id new
  /\ (forall a : Allocation,
         In a new
         <-> In a disputableAllocations
             /\ ~ In (Allocation.id a)
                  (map POIDispute.allocationID
                     (fetchPOIDisputes store potential disputableEpoch
                        (networkIdentifier (operator_specification operator))
                      ++ fetchPOIDisputes store valid disputableEpoch
                           (networkIdentifier (operator_specification operator)))))
  /\ Forall2
       (fun a d =>
          POIDispute.allocationID d = Allocation.id a
          /\ POIDispute.allocationIndexer d = Allocation.indexer a
          /\ POIDispute.allocationAmount d = Allocation.allocatedTokens a
          /\ POIDispute.allocationProof d = Allocation.poi a
          /\ POIDispute.closedEpoch d = Allocation.closedAtEpoch a
          /\ POIDispute.closedEpochStartBlockHash d
             = Allocation.closedAtEpochStartBlockHash a
          /\ POIDispute.subgraphDeploymentID d
             = ipfsHash (deployment_id (Allocation.subgraphDeployment a))
          /\ POIDispute.protocolNetwork d = networkIdentifier (specification network))
       new disputes.
Proof.
  intros H new.
  assert (Hne : new <> []).
  { intros Hnil. unfold identifyPotentialDisputes in H. fold new in H.
    rewrite Hnil in H. simpl in H. discriminate H. }
  apply identifyPotentialDisputes_stored in H as (pools & _ & Hds & _).
  fold new in Hds.
  assert (Hshape : Forall2
       (fun a d =>
          POIDispute.allocationID d = Allocation.id a
          /\ POIDispute.allocationIndexer d = Allocation.indexer a
          /\ POIDispute.allocationAmount d = Allocation.allocatedTokens a
          /\ POIDispute.allocationProof d = Allocation.poi a
          /\ POIDispute.closedEpoch d = Allocation.closedAtEpoch a
          /\ POIDispute.closedEpochStartBlockHash d
             = Allocation.closedAtEpochStartBlockHash a
          /\ POIDispute.subgraphDeploymentID d
             = ipfsHash (deployment_id (Allocation.subgraphDeployment a))
          /\ POIDispute.protocolNetwork d = networkIdentifier (specification network))
       new disputes).
  { eapply Forall2_impl; [exact Hds|]. intros a d Hmake. unfold makeDispute in Hmake.
    destruct (findRewardsPool pools a); [|discriminate].
    injection Hmake as <-. simpl. repeat split. }
  split; [exact Hne|]. split; [|split; [|exact Hshape]].
  - clear -Hshape. induction Hshape as [|a d l l' (Hid & _) _ IH]; simpl;
      [reflexivity | f_equal; assumption].
  - intros a. unfold new, newDisputableAllocations.
    rewrite filter_In, negb_true_iff. apply and_iff_compat_l.
    destruct (find _ _) as [e|] eqn:E.
    + apply find_some in E as [He Hid]. apply String.eqb_eq in Hid.
      split; [discriminate|]. intros Hn. exfalso. apply Hn.
      rewrite <- Hid. apply in_map. exact He.
    + split; [|reflexivity]. intros _ Hin.
      apply in_map_iff in Hin as (e & Hid & He).
      apply (find_none _ _ E) in He. apply String.eqb_neq in He. contradiction.
Qed.

(** Scenario S5: one new allocation, one dispute. *)
Lemma identifyPotentialDisputes_one_dispute_each_witness :
  let d := Example.disputeOf (Some "0xbeef"%string) (Some "0xfeed"%string) valid in
  map POIDispute.allocationID [d] = map Allocation.id [Example.closedAllocation].
Proof.
  intros d.
  exact (proj1 (proj2 (identifyPotentialDisputes_one_dispute_each
                         Example.proofOfIndexing (Example.operatorFor AUTO)
                         (Example.networkFor AUTO []) [] [Example.closedAllocation] 9
                         [d] [d] eq_refl))).
Defined.

(** A new allocation without rewards pool is fatal for the run: when a new
    disputable allocation lacks its [closedAtEpochStartBlockHash], as do
    all new allocations of the same deployment object and closing epoch,
    no pool is kept for it and [identifyPotentialDisputes] throws; nothing
    is stored for any allocation of the batch. *)
Theorem identifyPotentialDisputes_missing_pool
      (proofOfIndexing : SubgraphDeploymentID -> Block -> string -> Result (option string))
      (operator : Operator) (network : Network) (store : list POIDisputeAttributes)
      (disputableAllocations : list Allocation) (disputableEpoch : Z) (a : Allocation) :
  In a (newDisputableAllocations operator store disputableAllocations disputableEpoch) ->
  (forall a' : Allocation,
      In a' (newDisputableAllocations operator store disputableAllocations
               disputableEpoch) ->
      oid (deployment_id (Allocation.subgraphDeployment a'))
      = oid (deployment_id (Allocation.subgraphDeployment a)) ->
      Js.looseEqZ (Allocation.closedAtEpoch a') (Allocation.closedAtEpoch a) = true ->
      Js.falsy (Allocation.closedAtEpochStartBlockHash a') = true) ->
  identifyPotentialDisputes proofOfIndexing operator network store
    disputableAllocations disputableEpoch = Throw.
Proof.
  intros Hin Hmissing. unfold identifyPotentialDisputes.
  set (new := newDisputableAllocations operator store disputableAllocations
                disputableEpoch) in *.
  destruct (length new =? 0)%nat eqn:Hlen.
  { apply Nat.eqb_eq, length_zero_iff_nil in Hlen. rewrite Hlen in Hin. destruct Hin. }
  destruct (uniqueRewardsPools proofOfIndexing network new) as [pools|] eqn:Hpools;
    [|reflexivity].
  simpl.
  assert (Hnone : findRewardsPool pools a = None).
  { destruct (findRewardsPool pools a) as [pool|] eqn:Hfind; [exfalso | reflexivity].
    unfold findRewardsPool in Hfind. apply find_some in Hfind as [Hpool Hmatch].
    apply andb_true_iff in Hmatch as [Hoid Hepoch]. apply Nat.eqb_eq in Hoid.
    unfold uniqueRewardsPools in Hpools. apply mapR_Forall2 in Hpools.
    destruct (Forall2_In_right _ _ _ _ Hpools Hpool) as (p0 & Hp0 & Hfill).
    apply filter_In in Hp0 as [Hp0 Htruthy].
    apply in_map_iff in Hp0 as (a' & <- & Ha').
    apply fillRewardsPool_keeps in Hfill as [Hdep Hclosed].
    simpl in Hdep, Hclosed, Htruthy.
    rewrite Hdep in Hoid. rewrite Hclosed in Hepoch.
    rewrite (Hmissing a' Ha' Hoid Hepoch) in Htruthy. discriminate. }
  rewrite (mapR_Throw (makeDispute network pools) new a Hin); [reflexivity|].
  unfold makeDispute. rewrite Hnone. reflexivity.
Qed.

(** An allocation closed without a start block hash on record. *)
Lemma identifyPotentialDisputes_missing_pool_witness :
  identifyPotentialDisputes Example.proofOfIndexing (Example.operatorFor AUTO)
    (Example.networkFor AUTO []) []
    [Allocation.mk "0xa2" Example.indexerAddress
       (mkSubgraphDeployment Example.deploymentA) 1000 3 (Some 10) None None
       (Some "0xfeed"%string) CLOSED] 9
  = Throw.
Proof.
  apply (identifyPotentialDisputes_missing_pool Example.proofOfIndexing
           (Example.operatorFor AUTO) (Example.networkFor AUTO []) []
           [Allocation.mk "0xa2" Example.indexerAddress
              (mkSubgraphDeployment Example.deploymentA) 1000 3 (Some 10) None None
              (Some "0xfeed"%string) CLOSED] 9
           (Allocation.mk "0xa2" Example.indexerAddress
              (mkSubgraphDeployment Example.deploymentA) 1000 3 (Some 10) None None
              (Some "0xfeed"%string) CLOSED)).
  - left. reflexivity.
  - intros a' [<-|[]] _ _. reflexivity.
Defined.

(** * Further properties of the target deployments and of the normalizer *)

Lemma addOffchainRules_Throw_iff (decodeDeploymentID : string -> option (string * string))
      (rules : list IndexingRuleAttributes) (s : list SubgraphDeploymentID) (next : nat) :
  addOffchainRules decodeDeploymentID rules s next = Throw
  <-> exists rule : IndexingRuleAttributes,
      In rule rules /\ decodeDeploymentID (IndexingRule.identifier rule) = None.
Proof.
  revert s next. induction rules as [|rule rules IH]; simpl; intros s next.
  - split; [discriminate | intros (r & [] & _)].
  - unfold newSubgraphDeploymentID.
    destruct (decodeDeploymentID (IndexingRule.identifier rule)) as [[hex ipfs]|] eqn:E;
      simpl.
    + rewrite IH. split.
      * intros (r & Hr & Hd). exists r. auto.
      * intros (r & [<-|Hr] & Hd); [congruence|]. exists r. auto.
    + split; [|reflexivity]. intros _. exists rule. auto.
Qed.

(** The target deployments are not emitted when an OFFCHAIN rule has an
    identifier that is no deployment id: the callback throws exactly when
    some rule of some network has decision basis OFFCHAIN and an
    identifier that [new SubgraphDeploymentID] rejects (the identifier
    [global] of the global rule, a subgraph id), whatever the decisions
    and the startup list. *)
Theorem targetDeployments_throws_iff
        (decodeDeploymentID : string -> option (string * string))
        (offchainSubgraphs : list SubgraphDeploymentID) (next : nat)
        (indexingRules : gmap string (list IndexingRuleAttributes))
        (decisions : gmap string (list AllocationDecision)) :
  targetDeployments decodeDeploymentID offchainSubgraphs next indexingRules decisions
  = Throw
  <-> exists rule : IndexingRuleAttributes,
      In rule (concat (Object_values indexingRules))
      /\ IndexingRule.decisionBasis rule = OFFCHAIN
      /\ decodeDeploymentID (IndexingRule.identifier rule) = None.
Proof.
  unfold targetDeployments.
  destruct (addOffchainRules _ _ _ _) as [set1|] eqn:Hadd; simpl.
  - split; [discriminate|]. intros (r & Hr & Hbasis & Hdec). exfalso.
    assert (Hthrow : addOffchainRules decodeDeploymentID
                       (List.filter
                          (fun rule =>
                             decisionBasis_eqb (IndexingRule.decisionBasis rule) OFFCHAIN)
                          (concat (Object_values indexingRules)))
                       (Set_new
                          (map AllocationDecision.deployment
                             (List.filter
                                (fun decision => AllocationDecision.toAllocate decision)
                                (concat (Object_values decisions)))))
                       next = Throw).
    { apply addOffchainRules_Throw_iff. exists r. split; [|exact Hdec].
      apply filter_In. split; [exact Hr|]. rewrite Hbasis. reflexivity. }
    congruence.
  - split; [|reflexivity]. intros _.
    apply addOffchainRules_Throw_iff in Hadd as (r & Hr & Hdec).
    apply filter_In in Hr as [Hr Hbasis].
    exists r. split; [exact Hr|]. split; [|exact Hdec].
    destruct (IndexingRule.decisionBasis r); simpl in Hbasis; congruence.
Qed.

(** The global rule set to OFFCHAIN ([graph indexer rules offchain global])
    stops the target deployments from being emitted. *)
Example targetDeployments_offchain_global :
  targetDeployments Example.decodeDeploymentID [Example.deploymentA] 4
    ({[ Example.mainnet := [Example.ruleFor "global" GLOBAL OFFCHAIN None] ]})
    ({[ Example.mainnet := [Example.decisionFor Example.deploymentB true None] ]})
  = Throw.
Proof. vm_compute. reflexivity. Qed.

(** A decision to allocate on B, an OFFCHAIN rule for C and the startup
    list [A]: deployment C is emitted. *)
Lemma targetDeployments_union_witness :
  In Example.hexC
     (map bytes32
        [ Example.deploymentB; mkSubgraphDeploymentID 4 Example.hexC Example.ipfsC;
          Example.deploymentA ])
  <-> In Example.hexC
         (map bytes32
            (map AllocationDecision.deployment
               (List.filter (fun decision => AllocationDecision.toAllocate decision)
                  (concat
                     (Object_values
                        ({[ Example.mainnet :=
                              [Example.decisionFor Example.deploymentB true None] ]}
                         : gmap string (list AllocationDecision)))))))
      \/ (exists rule : IndexingRuleAttributes,
             In rule
                (concat
                   (Object_values
                      ({[ Example.mainnet :=
                            [Example.ruleFor Example.ipfsC DEPLOYMENT OFFCHAIN None] ]}
                       : gmap string (list IndexingRuleAttributes))))
             /\ IndexingRule.decisionBasis rule = OFFCHAIN
             /\ exists ipfs : string,
                 Example.decodeDeploymentID (IndexingRule.identifier rule)
                 = Some (Example.hexC, ipfs))
      \/ In Example.hexC (map bytes32 [Example.deploymentA]).
Proof.
  apply (targetDeployments_union Example.decodeDeploymentID [Example.deploymentA] 4
           ({[ Example.mainnet :=
                 [Example.ruleFor Example.ipfsC DEPLOYMENT OFFCHAIN None] ]})
           ({[ Example.mainnet := [Example.decisionFor Example.deploymentB true None] ]})
           [ Example.deploymentB; mkSubgraphDeploymentID 4 Example.hexC Example.ipfsC;
             Example.deploymentA ]).
  - vm_compute. reflexivity.
  - vm_compute. intros x [<-|[<-|[]]]; simpl; lia.
  - vm_compute. intros x y [<-|[<-|[]]] [<-|[<-|[]]]; simpl; congruence.
Defined.

Section NormalizerEdges.

Variable decodeDeploymentID : string -> option (string * string).
Variable subgraphs : list Subgraph.
Variable previousVersionBuffer : Z.
Variable dateNow : Z.

Lemma convertLoop_untouched (pending done toAdd : list IndexingRuleAttributes) :
  (forall r : IndexingRuleAttributes,
      In r pending ->
      IndexingRule.identifierType r = SUBGRAPH ->
      find (fun subgraph => String.eqb (Subgraph.id subgraph) (IndexingRule.identifier r))
           subgraphs = None) ->
  convertLoop decodeDeploymentID subgraphs previousVersionBuffer dateNow done pending toAdd
  = Ok (done ++ pending, toAdd).
Proof.
  revert done toAdd. induction pending as [|rule rest IH]; simpl; intros done toAdd H.
  - rewrite app_nil_r. reflexivity.
  - assert (Hstep : convertRule decodeDeploymentID subgraphs previousVersionBuffer
                      dateNow done rule rest = Ok (rule, [])).
    { unfold convertRule.
      destruct (identifierType_eqb (IndexingRule.identifierType rule) SUBGRAPH) eqn:Ety;
        simpl; [|reflexivity].
      apply identifierType_eqb_eq in Ety.
      rewrite (H rule (or_introl eq_refl) Ety). reflexivity. }
    rewrite Hstep. simpl. rewrite app_nil_r, IH by (intros r Hr; apply H; right; exact Hr).
    rewrite <- app_assoc. reflexivity.
Qed.

(** Nothing to normalize: when no subgraph-typed rule names one of the
    subgraphs at hand (no subgraph at all, no subgraph-typed rule, or
    none that matches), [convertSubgraphBasedRulesToDeploymentBased]
    returns the rules as they are; it does not decode any identifier, so
    it cannot throw. *)
Theorem convert_nothing_to_normalize (rules : list IndexingRuleAttributes) :
  (forall r : IndexingRuleAttributes,
      In r rules ->
      IndexingRule.identifierType r = SUBGRAPH ->
      find (fun subgraph => String.eqb (Subgraph.id subgraph) (IndexingRule.identifier r))
           subgraphs = None) ->
  convertSubgraphBasedRulesToDeploymentBased decodeDeploymentID subgraphs
    previousVersionBuffer dateNow rules = Ok rules.
Proof.
  intros H. unfold convertSubgraphBasedRulesToDeploymentBased.
  rewrite (convertLoop_untouched rules [] [] H). simpl. rewrite app_nil_r. reflexivity.
Qed.

End NormalizerEdges.

(** A subgraph rule and a malformed deployment rule, with no subgraph
    known: both are returned as they are. *)
Lemma convert_nothing_to_normalize_witness :
  let rules := [ Example.ruleFor "0xa1-0" SUBGRAPH RULES None;
                 Example.ruleFor "not-a-deployment" DEPLOYMENT ALWAYS None ] in
  convertSubgraphBasedRulesToDeploymentBased Example.decodeDeploymentID [] 3600
    Example.dateNow rules = Ok rules.
Proof.
  intros rules.
  apply (convert_nothing_to_normalize Example.decodeDeploymentID [] 3600
           Example.dateNow rules).
  intros r _ _. reflexivity.
Defined.

(** Scenario S2 has well-formed identifiers: the normalizer returns. *)
Lemma convert_returns_witness :
  exists out : list IndexingRuleAttributes,
    convertSubgraphBasedRulesToDeploymentBased Example.decodeDeploymentID
      [Example.subgraph "0xa1-0" Example.deploymentA Example.deploymentB
         (Example.nowSeconds - 10)]
      3600 Example.dateNow
      [ Example.ruleFor "0xa1-0" SUBGRAPH RULES None;
        Example.ruleFor Example.ipfsC DEPLOYMENT ALWAYS None ]
    = Ok out.
Proof.
  apply (convert_returns Example.decodeDeploymentID
           [Example.subgraph "0xa1-0" Example.deploymentA Example.deploymentB
              (Example.nowSeconds - 10)]
           3600 Example.dateNow).
  - intros sg v [<-|[]] [<-|[<-|[]]]; vm_compute; discriminate.
  - intros r [<-|[<-|[]]] Hty; [discriminate Hty | vm_compute; discriminate].
Defined.

(** * Properties of the construction of the agent's networks *)

Lemma every_from_pairs (networks : list Network) (operators : list Operator)
      (skipped : list Operator) :
  length networks = length operators ->
  every_from
    (fun network index =>
       match (skipped ++ operators) !! index with
       | Some operator =>
           Ok (String.eqb (networkIdentifier (specification network))
                          (networkIdentifier (operator_specification operator)))
       | None => Throw
       end)
    networks (length skipped)
  = Ok (forallb
          (fun pair : Network * Operator =>
             String.eqb (networkIdentifier (specification pair.1))
                        (networkIdentifier (operator_specification pair.2)))
          (combine networks operators)).
Proof.
  revert operators skipped.
  induction networks as [|n networks IH]; intros [|o operators] skipped Hlen;
    simpl in *; try discriminate; [reflexivity|].
  rewrite lookup_app_r, Nat.sub_diag by lia. simpl.
  destruct (String.eqb _ _); simpl; [|reflexivity].
  specialize (IH operators (skipped ++ [o]) ltac:(lia)).
  rewrite <- app_assoc, length_app in IH. simpl in IH.
  rewrite Nat.add_1_r in IH. exact IH.
Qed.

Lemma validInputs_spec (networks : list Network) (operators : list Operator) :
  validInputs networks operators
  = Ok ((length networks =? length operators)%nat
        && forallb
             (fun pair : Network * Operator =>
                String.eqb (networkIdentifier (specification pair.1))
                           (networkIdentifier (operator_specification pair.2)))
             (combine networks operators)).
Proof.
  unfold validInputs. destruct (length networks =? length operators)%nat eqn:E;
    [|reflexivity].
  apply Nat.eqb_eq in E. exact (every_from_pairs networks operators [] E).
Qed.

Lemma newMultiNetworks_from_lookup (items : list NetworkAndOperator)
      (identity : NetworkAndOperator -> Result string)
      (acc inner : gmap string NetworkAndOperator) (k : string)
      (pair : NetworkAndOperator) :
  newMultiNetworks_from items identity acc = Ok inner ->
  inner !! k = Some pair ->
  acc !! k = Some pair \/ (In pair items /\ identity pair = Ok k).
Proof.
  revert acc. induction items as [|item rest IH]; simpl; intros acc H Hk.
  - injection H as <-. left. exact Hk.
  - destruct (identity item) as [id|] eqn:Hid; simpl in H; [|discriminate].
    destruct (acc !! id) eqn:Hacc; [discriminate|].
    destruct (IH _ H Hk) as [Hin|[Hin Hident]]; [|right; auto].
    destruct (decide (id = k)) as [->|Hne].
    + rewrite lookup_insert_eq in Hin. injection Hin as <-. right. auto.
    + rewrite lookup_insert_ne in Hin by assumption. left. exact Hin.
Qed.

(** Networks and operators are paired by position and agree on their
    identifier: when [createMultiNetworks] returns, the two arrays have
    the same length, and every pair it holds is a network and the operator
    at the same index, both carrying the identifier the pair is keyed by. *)
Theorem createMultiNetworks_pairs (networks : list Network) (operators : list Operator)
        (inner : gmap string NetworkAndOperator) :
  createMultiNetworks networks operators = Ok inner ->
  length networks = length operators
  /\ forall (k : string) (pair : NetworkAndOperator),
      inner !! k = Some pair ->
      networkIdentifier (specification (network pair)) = k
      /\ networkIdentifier (operator_specification (operator pair)) = k
      /\ exists i : nat,
          networks !! i = Some (network pair) /\ operators !! i = Some (operator pair).
Proof.
  unfold createMultiNetworks. rewrite validInputs_spec. simpl.
  destruct (length networks =? length operators)%nat eqn:Hlen; simpl; [|discriminate].
  destruct (forallb _ _) eqn:Hall; simpl; [|discriminate].
  intros H. apply Nat.eqb_eq in Hlen. split; [exact Hlen|].
  intros k pair Hk.
  destruct (newMultiNetworks_from_lookup _ _ _ _ _ _ H Hk) as [Hempty|[Hin Hid]];
    [rewrite lookup_empty in Hempty; discriminate|].
  unfold networkAndOperatorIdentity in Hid.
  destruct (String.eqb _ _) eqn:Heq; simpl in Hid; [|discriminate].
  injection Hid as Hid. apply String.eqb_eq in Heq.
  split; [exact Hid|]. split; [congruence|].
  apply in_map_iff in Hin as ([n o] & <- & Hin). simpl.
  apply (In_nth _ _ (n, o)) in Hin as (i & Hi & Hnth).
  rewrite length_combine in Hi.
  exists i. rewrite combine_nth in Hnth by exact Hlen. injection Hnth as Hn Ho.
  cbn [network operator fst snd]. split.
  - destruct (nth_lookup_or_length networks i n) as [Hl|Hl]; [|lia].
    rewrite Hn in Hl. exact Hl.
  - destruct (nth_lookup_or_length operators i o) as [Hl|Hl]; [|lia].
    rewrite Ho in Hl. exact Hl.
Qed.

(** Invalid pairs are refused: [createMultiNetworks] throws when the two
    arrays differ in length, and when the network and the operator at some
    index carry different identifiers. *)
Theorem createMultiNetworks_refuses (networks : list Network) (operators : list Operator) :
  length networks <> length operators
  \/ (exists (i : nat) (n : Network) (o : Operator),
         networks !! i = Some n /\ operators !! i = Some o
         /\ networkIdentifier (specification n)
            <> networkIdentifier (operator_specification o)) ->
  createMultiNetworks networks operators = Throw.
Proof.
  intros Hbad.
  destruct (createMultiNetworks networks operators) as [inner|] eqn:H; [exfalso | reflexivity].
  unfold createMultiNetworks in H. rewrite validInputs_spec in H. simpl in H.
  destruct (length networks =? length operators)%nat eqn:Hlen; simpl in H; [|discriminate].
  destruct (forallb _ _) eqn:Hall; simpl in H; [|discriminate].
  apply Nat.eqb_eq in Hlen.
  destruct Hbad as [Hbad|(i & n & o & Hn & Ho & Hne)]; [contradiction|].
  rewrite forallb_forall in Hall.
  assert (Hin : In (n, o) (combine networks operators)).
  { apply list_elem_of_In. apply list_elem_of_lookup. exists i.
    clear -Hn Ho. revert i operators Hn Ho.
    induction networks as [|n' networks IH]; intros [|i] operators Hn Ho;
      destruct operators as [|o' operators]; simpl in *; try discriminate.
    - congruence.
    - apply IH; assumption. }
  specialize (Hall _ Hin). simpl in Hall. apply String.eqb_eq in Hall. contradiction.
Qed.

Lemma createMultiNetworks_pairs_witness :
  exists inner : gmap string NetworkAndOperator,
    createMultiNetworks [Example.networkFor AUTO []] [Example.operatorFor AUTO] = Ok inner
    /\ inner !! Example.mainnet
       = Some (mkNetworkAndOperator (Example.networkFor AUTO []) (Example.operatorFor AUTO))
    /\ length [Example.networkFor AUTO []] = length [Example.operatorFor AUTO].
Proof.
  destruct (createMultiNetworks [Example.networkFor AUTO []] [Example.operatorFor AUTO])
    as [inner|] eqn:H.
  - exists inner. split; [reflexivity|]. split.
    + vm_compute in H. injection H as <-. reflexivity.
    + exact (proj1 (createMultiNetworks_pairs _ _ _ H)).
  - vm_compute in H. discriminate H.
Defined.

Lemma createMultiNetworks_refuses_witness :
  createMultiNetworks [Example.networkFor AUTO []] [] = Throw.
Proof.
  apply createMultiNetworks_refuses. left. simpl. discriminate.
Defined.

(** * Properties of the indexing rules of one network *)

Section IndexingRulesFacts.

Variable decodeDeploymentID : string -> option (string * string).

Lemma convertRule_copy (subgraphs : list Subgraph) (previousVersionBuffer dateNow : Z)
      (done : list IndexingRuleAttributes) (rule : IndexingRuleAttributes)
      (rest : list IndexingRuleAttributes) (rule' : IndexingRuleAttributes)
      (copies : list IndexingRuleAttributes) (copy : IndexingRuleAttributes) :
  convertRule decodeDeploymentID subgraphs previousVersionBuffer dateNow done rule rest
  = Ok (rule', copies) ->
  In copy copies ->
  IndexingRule.identifierType rule = SUBGRAPH
  /\ exists (sg : Subgraph) (latest previous : Subgraph.Version),
      In sg subgraphs /\ Subgraph.id sg = IndexingRule.identifier rule
      /\ In latest (Subgraph.versions sg)
      /\ Subgraph.version latest = Subgraph.versionCount sg - 1
      /\ In previous (Subgraph.versions sg)
      /\ Subgraph.version previous = Subgraph.versionCount sg - 2
      /\ Subgraph.createdAt latest > dateNow / 1000 - previousVersionBuffer
      /\ copy = IndexingRule.retarget rule (toString (Subgraph.deployment previous))
                                      DEPLOYMENT.
Proof.
  intros H Hin.
  destruct (convertRule_frame decodeDeploymentID subgraphs previousVersionBuffer dateNow
              done rule rest rule' copies H) as (Hframe & Hrule' & _).
  assert (Hty : IndexingRule.identifierType rule = SUBGRAPH).
  { destruct (IndexingRule.identifierType rule) eqn:Hty; [| reflexivity |];
      (destruct Hframe as [_ ->]; [discriminate | destruct Hin]). }
  split; [exact Hty|].
  destruct (find (fun subgraph =>
                    String.eqb (Subgraph.id subgraph) (IndexingRule.identifier rule))
                 subgraphs) as [sg|] eqn:Hsg.
  2:{ unfold convertRule in H. rewrite Hsg in H.
      destruct (negb _) in H; injection H as _ <-; destruct Hin. }
  destruct (find (fun version => Subgraph.version version =? Subgraph.versionCount sg - 1)
                 (Subgraph.versions sg)) as [latest|] eqn:Hlatest.
  2:{ unfold convertRule in H. rewrite Hsg, Hlatest in H.
      destruct (negb _) in H; injection H as _ <-; destruct Hin. }
  destruct (convertRule_found decodeDeploymentID subgraphs previousVersionBuffer dateNow
              done rule rest rule' copies sg latest H Hty Hsg Hlatest)
    as (targeted & _ & Hr' & [(Hyoung & previous & Hprev & _ & ->)|(-> & _)]);
    [|destruct Hin].
  destruct Hin as [<-|[]].
  apply find_some in Hsg as [Hsg1 Hsg2]. apply String.eqb_eq in Hsg2.
  apply find_some in Hlatest as [Hl1 Hl2]. apply Z.eqb_eq in Hl2.
  apply find_some in Hprev as [Hp1 Hp2]. apply Z.eqb_eq in Hp2.
  exists sg, latest, previous. repeat split; try assumption; [lia|].
  destruct targeted; rewrite Hr'; reflexivity.
Qed.

Variable operator_indexingRules : Result (list IndexingRuleAttributes).
Variable networkMonitor_subgraphs : list string -> Result (list Subgraph).
Variable epochManager_epochLength : Result Z.
Variable dateNow : Z.

(** The rules of a network are the operator's rules, followed by rules
    for previous subgraph versions; a rule for a previous version is added
    only for a subgraph-typed rule of the operator whose subgraph the
    network monitor returned, and only while the latest version of that
    subgraph is younger than 100 epochs of 15-second blocks
    ([epochLength * 15 * 100] seconds before now).  The added rule targets
    the previous version's deployment and is otherwise the operator's
    rule. *)
Theorem networkIndexingRules_previous_versions (out : list IndexingRuleAttributes) :
  networkIndexingRules decodeDeploymentID operator_indexingRules networkMonitor_subgraphs
    epochManager_epochLength dateNow = Ok out ->
  exists rules : list IndexingRuleAttributes,
    operator_indexingRules = Ok rules
    /\ (length rules <= length out)%nat
    /\ forall copy : IndexingRuleAttributes,
        In copy (drop (length rules) out) ->
        exists (epochLength : Z) (subgraphs : list Subgraph) (rule : IndexingRuleAttributes)
               (sg : Subgraph) (latest previous : Subgraph.Version),
          epochManager_epochLength = Ok epochLength
          /\ networkMonitor_subgraphs
               (map IndexingRule.identifier
                    (List.filter
                       (fun rule =>
                          identifierType_eqb (IndexingRule.identifierType rule) SUBGRAPH)
                       rules)) = Ok subgraphs
          /\ In rule rules /\ IndexingRule.identifierType rule = SUBGRAPH
          /\ In sg subgraphs /\ Subgraph.id sg = IndexingRule.identifier rule
          /\ In latest (Subgraph.versions sg)
          /\ Subgraph.version latest = Subgraph.versionCount sg - 1
          /\ In previous (Subgraph.versions sg)
          /\ Subgraph.version previous = Subgraph.versionCount sg - 2
          /\ Subgraph.createdAt latest > dateNow / 1000 - epochLength * 15 * 100
          /\ copy = IndexingRule.retarget rule (toString (Subgraph.deployment previous))
                                          DEPLOYMENT.
Proof.
  unfold networkIndexingRules. intros H.
  destruct operator_indexingRules as [rules|]; simpl in H; [|discriminate].
  exists rules. split; [reflexivity|].
  destruct (networkMonitor_subgraphs _) as [subgraphs|] eqn:Hsubgraphs; simpl in H;
    [|discriminate].
  destruct subgraphs as [|sg0 subgraphs0] eqn:Hsgs; simpl in H.
  { injection H as <-. split; [lia|]. rewrite drop_all. intros copy []. }
  rewrite <- Hsgs in *. clear Hsgs sg0 subgraphs0.
  destruct epochManager_epochLength as [epochLength|]; simpl in H; [|discriminate].
  unfold convertSubgraphBasedRulesToDeploymentBased in H.
  destruct (convertLoop _ _ _ _ _ _ _) as [[out' added]|] eqn:Hloop; simpl in H;
    [|discriminate].
  injection H as <-.
  destruct (convertLoop_steps decodeDeploymentID subgraphs _ dateNow rules [] [] out' added
              Hloop) as (rules' & copies & -> & -> & Hlen & Hlenc & Hstep).
  simpl. split; [rewrite length_app; lia|].
  rewrite <- Hlen, drop_app_length. intros copy Hin.
  apply in_concat in Hin as (cs & Hcs & Hin).
  apply list_elem_of_In, list_elem_of_lookup in Hcs as [i Hi].
  assert (Hlt : (i < length rules)%nat)
    by (rewrite <- Hlenc; eapply lookup_lt_Some; exact Hi).
  destruct (lookup_lt_is_Some_2 rules i Hlt) as [rule Hrule].
  destruct (Hstep i rule Hrule) as (rule' & cs' & _ & Hcs' & Hconv).
  rewrite Hi in Hcs'. injection Hcs' as <-.
  destruct (convertRule_copy _ _ _ _ _ _ _ _ copy Hconv Hin)
    as (Hty & sg & latest & previous & H1 & H2 & H3 & H4 & H5 & H6 & H7 & H8).
  exists epochLength, subgraphs, rule, sg, latest, previous.
  repeat split; try assumption.
  apply list_elem_of_In. eapply list_elem_of_lookup_2. exact Hrule.
Qed.

End IndexingRulesFacts.

Lemma networkIndexingRules_previous_versions_witness :
  let r := Example.ruleFor "0xa1-0" SUBGRAPH RULES None in
  let sg := Example.subgraph "0xa1-0" Example.deploymentA Example.deploymentB
              (Example.nowSeconds - 10) in
  let out := [ IndexingRule.retarget r Example.hexB DEPLOYMENT;
               IndexingRule.retarget r Example.hexA DEPLOYMENT ] in
  networkIndexingRules Example.decodeDeploymentID (Ok [r]) (fun _ => Ok [sg]) (Ok 6646)
    Example.dateNow = Ok out
  /\ exists rules : list IndexingRuleAttributes,
      Ok [r] = Ok rules /\ (length rules <= length out)%nat.
Proof.
  intros r sg out. split; [reflexivity|].
  destruct (networkIndexingRules_previous_versions Example.decodeDeploymentID
              (Ok [r]) (fun _ => Ok [sg]) (Ok 6646) Example.dateNow out eq_refl)
    as (rules & Hrules & Hlen & _).
  exists rules. split; assumption.
Defined.

(** * Properties of the allocation decisions and of the reconciliation loop *)

Lemma mapValues_lookup {T U : Type} (callback : T -> Result U) (object : gmap string T)
      (r : gmap string U) :
  mapValues callback object = Ok r ->
  forall k : string,
    (forall u : U, r !! k = Some u ->
                   exists v : T, object !! k = Some v /\ callback v = Ok u)
    /\ (forall v : T, object !! k = Some v ->
                      exists u : U, r !! k = Some u /\ callback v = Ok u).
Proof.
  unfold mapValues.
  destruct (mapR _ (map_to_list object)) as [entries|] eqn:Hentries; simpl; [|discriminate].
  intros H k. injection H as <-.
  apply mapR_Forall2 in Hentries.
  assert (Hfst : entries.*1 = (map_to_list object).*1).
  { clear -Hentries. induction Hentries as [|[k v] [k' u] l l' H _ IH]; [reflexivity|].
    simpl in *. destruct (callback v); simpl in H; [|discriminate].
    injection H as <- _. f_equal. exact IH. }
  assert (Hnd : NoDup entries.*1) by (rewrite Hfst; apply NoDup_fst_map_to_list).
  split.
  - intros u Hk. apply elem_of_list_to_map_2, list_elem_of_In in Hk.
    destruct (Forall2_In_right _ _ _ _ Hentries Hk) as ([k' v] & Hkv & Hout).
    simpl in Hout. destruct (callback v) as [u'|] eqn:Hu; simpl in Hout; [|discriminate].
    injection Hout as -> ->.
    apply list_elem_of_In, elem_of_map_to_list in Hkv. exists v. auto.
  - intros v Hv. apply elem_of_map_to_list, list_elem_of_In in Hv.
    destruct (Forall2_In_left _ _ _ _ Hentries Hv) as ([k' u] & Hku & Hout).
    simpl in Hout. destruct (callback v) as [u'|] eqn:Hu; simpl in Hout; [|discriminate].
    injection Hout as -> ->. exists u. split; [|reflexivity].
    apply elem_of_list_to_map_1; [exact Hnd|]. apply list_elem_of_In. exact Hku.
Qed.

Lemma networkSubgraphGuard_length (network : Network) (ds : list AllocationDecision) :
  length (networkSubgraphGuard network ds) = length ds.
Proof.
  destruct (networkSubgraphGuard_cases network ds) as [->|(n & x & nsd & -> & _)];
    [reflexivity|].
  apply length_alter.
Qed.

(** No rules, no allocation actions: when the decisions are those computed
    from the indexing rules, a network whose rule list is empty gets the
    empty list of decisions (the evaluator is not consulted), every
    network of the agent gets a list of decisions, and every operator call
    of [reconcileActions] is issued on the operator of a network that has
    at least one indexing rule. *)
Theorem no_rules_no_allocation_actions
        (multiNetworks : gmap string NetworkAndOperator)
        (evaluateDeployments :
           list SubgraphDeployment -> list IndexingRuleAttributes ->
           Result (list AllocationDecision))
        (indexingRules : gmap string (list IndexingRuleAttributes))
        (networkDeployments : gmap string (list SubgraphDeployment))
        (decisions : gmap string (list AllocationDecision))
        (activeAllocations : gmap string (list Allocation))
        (epoch maxAllocationEpochs : gmap string Z) :
  networkDeploymentAllocationDecisions multiNetworks evaluateDeployments
    indexingRules networkDeployments = Ok decisions ->
  dom decisions = dom multiNetworks
  /\ (forall k : string, indexingRules !! k = Some [] -> decisions !! k = Some [])
  /\ forall c : OperatorCall,
      In c (calls (reconcileActions multiNetworks decisions activeAllocations epoch
                     maxAllocationEpochs)) ->
      exists (k : string) (item : NetworkAndOperator) (rules : list IndexingRuleAttributes),
        multiNetworks !! k = Some item
        /\ callNetwork c = networkIdentifier (operator_specification (operator item))
        /\ indexingRules !! k = Some rules /\ rules <> [].
Proof.
  unfold networkDeploymentAllocationDecisions, zip.
  destruct (bool_decide _) eqn:Hdom; simpl; [|discriminate].
  apply bool_decide_eq_true in Hdom as [Hrules Hdeployments].
  intros H. pose proof (mapValues_lookup _ _ _ H) as Hlookup.
  assert (Hzip : forall k, is_Some (map_zip indexingRules networkDeployments !! k)
                           <-> k ∈ dom multiNetworks).
  { intros k. rewrite map_lookup_zip_with. rewrite <- Hrules at 1.
    rewrite elem_of_dom.
    assert (Hk : is_Some (indexingRules !! k) <-> is_Some (networkDeployments !! k))
      by (rewrite <- !elem_of_dom, Hrules, Hdeployments; reflexivity).
    destruct (indexingRules !! k) as [rs|], (networkDeployments !! k) as [dd|]; simpl.
    - split; eauto.
    - exfalso. destruct Hk as [Hk _]. destruct (Hk ltac:(eauto)) as [? ?]. discriminate.
    - split; intros [? ?]; discriminate.
    - split; intros [? ?]; discriminate. }
  split; [|split].
  - apply set_eq. intros k. rewrite <- Hzip, elem_of_dom. split.
    + intros [u Hu]. destruct (proj1 (Hlookup k) u Hu) as (v & Hv & _). eauto.
    + intros [v Hv]. destruct (proj2 (Hlookup k) v Hv) as (u & Hu & _). eauto.
  - intros k Hk.
    assert (Hin : k ∈ dom networkDeployments)
      by (rewrite Hdeployments, <- Hrules; apply elem_of_dom; eauto).
    apply elem_of_dom in Hin as [deployments Hd].
    destruct (proj2 (Hlookup k) ([], deployments)) as (u & Hu & Hout).
    { rewrite map_lookup_zip_with, Hk, Hd. reflexivity. }
    simpl in Hout. injection Hout as <-. exact Hu.
  - intros c Hc.
    destruct (reconcileActions_call_origin _ _ _ _ _ c Hc)
      as (k & item & ds & e & m & Hitem & Hds & _ & _ & Hguard & Hcall).
    destruct (proj1 (Hlookup k) ds Hds) as ([rules deployments] & Hv & Hout).
    apply map_lookup_zip_with_Some in Hv as (x & y & Heq & Hx & _).
    injection Heq as <- <-.
    exists k, item, rules. repeat split; try assumption.
    + destruct (allocation_action_spec (callDecision c) e m (network item) (operator item))
        as (_ & _ & Hall).
      destruct (Hall c Hcall) as (Hnet & _). exact Hnet.
    + intros ->. simpl in Hout. injection Hout as <-.
      pose proof (networkSubgraphGuard_length (network item) []) as Hlen.
      destruct (networkSubgraphGuard (network item) []); [destruct Hguard | discriminate].
Qed.

Lemma Object_values_In {T : Type} (m : gmap string T) (v : T) :
  In v (Object_values m) <-> exists k : string, m !! k = Some v.
Proof.
  unfold Object_values. rewrite <- list_elem_of_In, list_elem_of_fmap. split.
  - intros ([k v'] & -> & H). apply elem_of_map_to_list in H. eauto.
  - intros [k H]. exists (k, v). split; [reflexivity|].
    apply elem_of_map_to_list. exact H.
Qed.

(** The reconciliation loop never stops indexing a deployment that is
    still needed: a deployment that [reconcileDeployments], called with
    the loop's eligible allocations, removes from the graph node is an
    active deployment that is no target deployment, no offchain subgraph,
    not the deployment of a recently closed allocation, and not the
    deployment of an active allocation on any network (all by bytes32). *)
Theorem reconciliation_keeps_allocated_deployments
        (networkSubgraphDeployments offchainSubgraphs activeDeployments targetDeployments :
           list SubgraphDeploymentID)
        (recentlyClosedAllocations : list Allocation)
        (activeAllocations : gmap string (list Allocation))
        (d : SubgraphDeploymentID) :
  In (remove d)
     (reconcileDeployments networkSubgraphDeployments offchainSubgraphs
        activeDeployments targetDeployments
        (eligibleAllocations recentlyClosedAllocations activeAllocations)) ->
  In (bytes32 d) (map bytes32 activeDeployments)
  /\ ~ In (bytes32 d) (map bytes32 targetDeployments)
  /\ ~ In (bytes32 d) (map bytes32 offchainSubgraphs)
  /\ (forall a : Allocation,
         In a recentlyClosedAllocations ->
         bytes32 (deployment_id (Allocation.subgraphDeployment a)) <> bytes32 d)
  /\ (forall (k : string) (allocations : list Allocation) (a : Allocation),
         activeAllocations !! k = Some allocations -> In a allocations ->
         bytes32 (deployment_id (Allocation.subgraphDeployment a)) <> bytes32 d).
Proof.
  intros H. apply reconcileDeployments_remove_calls in H.
  assert (Hb : In (bytes32 d)
                  (map bytes32
                     (removeList networkSubgraphDeployments offchainSubgraphs
                        activeDeployments targetDeployments
                        (eligibleAllocations recentlyClosedAllocations
                           activeAllocations))))
    by (apply in_map; exact H).
  apply removeList_bytes32 in Hb as (Hactive & Htarget & Heligible).
  rewrite augmentedTargetDeployments_In in Htarget.
  assert (Hall : forall a : Allocation,
             In a (eligibleAllocations recentlyClosedAllocations activeAllocations) ->
             bytes32 (deployment_id (Allocation.subgraphDeployment a)) <> bytes32 d).
  { intros a Ha Heq. apply Heligible. rewrite <- Heq, map_map.
    apply (in_map (fun x => bytes32 (deployment_id (Allocation.subgraphDeployment x)))).
    exact Ha. }
  repeat split; try tauto.
  - intros a Ha. apply Hall. unfold eligibleAllocations. apply in_or_app. left. exact Ha.
  - intros k allocations a Hk Ha. apply Hall. unfold eligibleAllocations.
    apply in_or_app. right. apply in_concat. exists allocations. split; [|exact Ha].
    apply Object_values_In. eauto.
Qed.

Lemma no_rules_no_allocation_actions_witness :
  let evaluate :=
    fun (deployments : list SubgraphDeployment) (rules : list IndexingRuleAttributes) =>
      Ok (map (fun d => Example.decisionFor (deployment_id d) true None) deployments) in
  let indexingRules : gmap string (list IndexingRuleAttributes) :=
    {[ Example.mainnet := [Example.ruleFor Example.hexA DEPLOYMENT ALWAYS None] ]} in
  let networkDeployments : gmap string (list SubgraphDeployment) :=
    {[ Example.mainnet := [mkSubgraphDeployment Example.deploymentA] ]} in
  exists decisions : gmap string (list AllocationDecision),
    networkDeploymentAllocationDecisions (Example.networksFor AUTO) evaluate
      indexingRules networkDeployments = Ok decisions
    /\ dom decisions = dom (Example.networksFor AUTO).
Proof.
  intros evaluate indexingRules networkDeployments.
  destruct (networkDeploymentAllocationDecisions (Example.networksFor AUTO) evaluate
              indexingRules networkDeployments) as [decisions|] eqn:H.
  - exists decisions. split; [reflexivity|].
    exact (proj1 (no_rules_no_allocation_actions (Example.networksFor AUTO) evaluate
                    indexingRules networkDeployments decisions ∅ ∅ ∅ H)).
  - vm_compute in H. discriminate H.
Defined.

Lemma reconciliation_keeps_allocated_deployments_witness :
  let a := Example.allocationOnA "0xa1" 3 None None ACTIVE in
  In (remove Example.deploymentB)
     (reconcileDeployments [] [] [Example.deploymentA; Example.deploymentB] []
        (eligibleAllocations [] {[ Example.mainnet := [a] ]}))
  /\ forall (k : string) (allocations : list Allocation) (a' : Allocation),
      ({[ Example.mainnet := [a] ]} : gmap string (list Allocation)) !! k
      = Some allocations ->
      In a' allocations ->
      bytes32 (deployment_id (Allocation.subgraphDeployment a'))
      <> bytes32 Example.deploymentB.
Proof.
  intros a.
  assert (H : In (remove Example.deploymentB)
                 (reconcileDeployments [] [] [Example.deploymentA; Example.deploymentB] []
                    (eligibleAllocations [] {[ Example.mainnet := [a] ]})))
    by (vm_compute; left; reflexivity).
  split; [exact H|].
  exact (proj2 (proj2 (proj2 (proj2
           (reconciliation_keeps_allocated_deployments [] []
              [Example.deploymentA; Example.deploymentB] [] []
              {[ Example.mainnet := [a] ]} Example.deploymentB H))))).
Defined.

(** * Properties of the query endpoint *)

Lemma findIndex_from_existsb {A : Type} (p : A -> bool) (l : list A) (i : Z) :
  0 <= i -> (Js.findIndex_from p l i >=? 0) = existsb p l.
Proof.
  revert i. induction l as [|x l IH]; simpl; intros i Hi; [reflexivity|].
  destruct (p x); simpl.
  - apply Z.geb_le. exact Hi.
  - apply IH. lia.
Qed.

Lemma indexOf_In (whitelist : list string) (x : string) :
  (Server.indexOf whitelist x >=? 0) = true <-> In x whitelist.
Proof.
  unfold Server.indexOf, Js.findIndex.
  rewrite findIndex_from_existsb by lia. rewrite existsb_exists. split.
  - intros (y & Hy & Heq). apply String.eqb_eq in Heq. subst y. exact Hy.
  - intros H. exists x. split; [exact H | apply String.eqb_refl].
Qed.

Section ServerFacts.

Variable Payload : Type.
Variable paidQueryProcessor_addPaidQuery :
  string -> string -> string -> Result (Server.Paid.Response Payload).
Variable freeQueryProcessor_addFreeQuery :
  string -> string -> Result (Server.Free.Response Payload).
Variable whitelist : list string.

(** The payment gate: a query reaches no processor exactly when the
    payment header is repeated, or when it is absent and the request does
    not come from a whitelisted address; the reply is then 400 without
    content type.  Every other request reaches exactly one processor. *)
Theorem postSubgraphQuery_gate (req : Server.Request) :
  let run :=
    Server.postSubgraphQuery Payload paidQueryProcessor_addPaidQuery
      freeQueryProcessor_addFreeQuery whitelist req in
  (run.1 = []
   <-> (exists values : list string, Server.header_paymentId req = Server.several values)
       \/ (Server.header_paymentId req = Server.undefined
           /\ ~ In (Server.ip req) whitelist))
  /\ (run.1 = [] ->
      Server.reply_status run.2 = 400 /\ Server.reply_contentType run.2 = None)
  /\ (run.1 <> [] -> length run.1 = 1%nat).
Proof.
  unfold Server.postSubgraphQuery.
  pose proof (indexOf_In whitelist (Server.ip req)) as Hin.
  destruct (Server.header_paymentId req) as [|p|values] eqn:Hheader;
    destruct (Server.indexOf whitelist (Server.ip req) >=? 0) eqn:Hidx; simpl.
  - repeat split; try discriminate; try reflexivity.
    intros [(v & Hv)|(_ & Hno)]; [discriminate | exfalso; apply Hno, Hin; reflexivity].
  - repeat split; try reflexivity; try (intros; congruence).
    intros _. right. split; [reflexivity|]. intros H. apply Hin in H. discriminate.
  - repeat split; try discriminate; try reflexivity.
    intros [(v & Hv)|(Hno & _)]; discriminate.
  - repeat split; try discriminate; try reflexivity.
    intros [(v & Hv)|(Hno & _)]; discriminate.
  - repeat split; try reflexivity; try (intros; congruence). intros _. left. eauto.
  - repeat split; try reflexivity; try (intros; congruence). intros _. left. eauto.
Qed.

(** A payment that is offered is always taken, and free queries are for
    whitelisted addresses only: with a single payment header the handler
    calls the paid processor with the request's subgraph, payment
    identifier and query, whether the address is whitelisted or not; the
    free processor is called only for a request without payment header
    from a whitelisted address. *)
Theorem postSubgraphQuery_dispatch (req : Server.Request) :
  let run :=
    Server.postSubgraphQuery Payload paidQueryProcessor_addPaidQuery
      freeQueryProcessor_addFreeQuery whitelist req in
  (forall paymentId : string,
      Server.header_paymentId req = Server.single paymentId ->
      run.1 = [Server.addPaidQuery (Server.params_id req) paymentId (Server.body req)])
  /\ (forall subgraphId paymentId query : string,
         In (Server.addPaidQuery subgraphId paymentId query) run.1 ->
         Server.header_paymentId req = Server.single paymentId
         /\ subgraphId = Server.params_id req /\ query = Server.body req)
  /\ (forall subgraphId query : string,
         In (Server.addFreeQuery subgraphId query) run.1 ->
         Server.header_paymentId req = Server.undefined
         /\ In (Server.ip req) whitelist
         /\ subgraphId = Server.params_id req /\ query = Server.body req).
Proof.
  unfold Server.postSubgraphQuery.
  pose proof (indexOf_In whitelist (Server.ip req)) as Hin.
  destruct (Server.header_paymentId req) as [|p|values] eqn:Hheader;
    destruct (Server.indexOf whitelist (Server.ip req) >=? 0) eqn:Hidx; simpl;
    repeat split; intros;
    repeat match goal with
           | H : _ \/ _ |- _ => destruct H
           | H : False |- _ => destruct H
           | H : Server.addPaidQuery _ _ _ = Server.addPaidQuery _ _ _ |- _ =>
               injection H as <- <- <-
           | H : Server.addFreeQuery _ _ = Server.addFreeQuery _ _ |- _ =>
               injection H as <- <-
           | H : Server.single _ = Server.single _ |- _ => injection H as <-
           end;
    try discriminate; try reflexivity.
  apply Hin. reflexivity.
Qed.


End ServerFacts.

(** * Properties of the startup check of the network subgraph *)

Section StartupFacts.

Variable decodeDeploymentID : string -> option (string * string).
Variable graphNode_ensure : string -> SubgraphDeploymentID -> Result unit.
Variable validateProviderNetworkIdentifier : string -> string -> Result unit.


End StartupFacts.
